(** * PlanScore: tile scoring (planscore/tiles.py) and tile enumeration
      (planscore/prepare_state.py)

    A shallow embedding of the tile scorer.  Python numbers are idealised as
    exact rationals ([Q]); dictionaries are finite maps; exceptions are
    values of [exn] threaded through a small writer/error monad whose log
    records the OGR calls that build a new geometry and the S3 requests.
    The OGR geometry library, the Modest Maps projection and the pieces of
    [constants], [score] and [data] that the two modules import are
    interfaces ([Class]es) of which the functions are clients. *)

From Stdlib Require Import QArith Qround ZArith Lia Lqa.
From stdpp Require Import base option list gmap strings pretty fin_maps sorting.

Set Default Proof Using "Type".

(** ** Python values, exceptions, results *)

(** The exception classes that the two modules raise, catch or let through.
    All of them derive from [Exception]. *)
Inductive exn : Type :=
| KeyError (key : string)
| TypeError
| AttributeError
| UnboundLocalError (name : string)
| RuntimeError (msg : string)       (* [str(e)] is [msg] *)
| ClientError (code : string)       (* botocore: [error.response['Error']['Code']] *)
| OtherError (msg : string).        (* any other [Exception]: I/O, decoding, ... *)

Inductive result (A : Type) : Type :=
| Ok (a : A)
| Raise (e : exn).
Arguments Ok {A} a.
Arguments Raise {A} e.

(** JSON scalars as [json.load] delivers them in a feature's properties. *)
Inductive pyval : Type :=
| PNone
| PBool (b : bool)
| PNum (q : Q)
| PStr (s : string).

(** Numeric view of a value: numbers, and booleans as 0/1. *)
Definition as_num (v : pyval) : option Q :=
  match v with
  | PNum q => Some q
  | PBool b => Some (if b then 1%Q else 0%Q)
  | PNone | PStr _ => None
  end.

(** Truth value of [v], as [or] and [if] see it. *)
Definition truthy (v : pyval) : bool :=
  match v with
  | PNone => false
  | PBool b => b
  | PNum q => negb (Qeq_bool q 0)
  | PStr s => negb (String.eqb s "")
  end.

(** [v or 0] *)
Definition py_or_zero (v : pyval) : pyval :=
  if truthy v then v else PNum 0.

(** [v == 0] *)
Definition py_eq_zero (v : pyval) : bool :=
  match as_num v with
  | Some q => Qeq_bool q 0
  | None => false
  end.

(** [a * b] followed by [round]: a product of two numbers is a number; a
    product with [None], or with a string that reaches [round], is a
    [TypeError]. *)
Definition py_mul (a b : pyval) : result Q :=
  match as_num a, as_num b with
  | Some x, Some y => Ok (x * y)%Q
  | _, _ => Raise TypeError
  end.

(** Nearest integer, ties to the even one (Python 3 [round]). *)
Definition round_half_even (x : Q) : Z :=
  let f := Qfloor x in
  match Qcompare (x - inject_Z f) (1 # 2) with
  | Lt => f
  | Gt => (f + 1)%Z
  | Eq => if Z.even f then f else (f + 1)%Z
  end.

(** [round(x, ndigits)], the result in lowest terms. *)
Definition py_round (ndigits : nat) (x : Q) : Q :=
  let scale := (10 ^ Z.of_nat ndigits)%Z in
  Qred (Qmake (round_half_even (x * inject_Z scale)) (Z.to_pos scale)).

(** [needle in hay] for strings. *)
Fixpoint str_contains (needle hay : string) : bool :=
  String.prefix needle hay ||
  match hay with
  | EmptyString => false
  | String _ rest => str_contains needle rest
  end.

(** [d[key]] for a dictionary with string keys. *)
Definition getitem {V : Type} (d : gmap string V) (key : string) : result V :=
  match d !! key with
  | Some v => Ok v
  | None => Raise (KeyError key)
  end.

(** ** The logging monad *)

Section Monad.
Context {E : Type}.

(** A computation yields the calls it made, in order, and a value or the
    exception it raised. *)
Definition M (A : Type) : Type := list E * result A.

Definition ret {A} (a : A) : M A := ([], Ok a).

Definition bind {A B} (k : A → M B) (m : M A) : M B :=
  match m with
  | (t, Ok a) => let '(t', r) := k a in (t ++ t', r)
  | (t, Raise e) => (t, Raise e)
  end.

Definition raise {A} (e : exn) : M A := ([], Raise e).

Definition lift {A} (r : result A) : M A := ([], r).

(** A call to the outside world: logged, then its outcome. *)
Definition call {A} (ev : E) (r : result A) : M A := ([ev], r).

(** [try: m  except <class> as e: handler e]; the handler re-raises
    what it does not handle. *)
Definition try_except {A} (m : M A) (handler : exn → M A) : M A :=
  match m with
  | (t, Raise e) => let '(t', r) := handler e in (t ++ t', r)
  | ok => ok
  end.

(** A [for] loop that threads an accumulator. *)
Fixpoint foldM {A B} (f : A → B → M A) (a : A) (l : list B) : M A :=
  match l with
  | [] => ret a
  | x :: l' => bind (λ a', foldM f a' l') (f a x)
  end.
End Monad.
Arguments M : clear implicits.

#[export] Instance M_ret {E} : MRet (M E) := @ret E.
#[export] Instance M_bind {E} : MBind (M E) := @bind E.

(** ** The OGR geometry library, as far as the scorer calls it *)

Inductive wkbGeometryType : Type :=
| wkbUnknown | wkbPoint | wkbLineString | wkbPolygon
| wkbMultiPoint | wkbMultiLineString | wkbMultiPolygon | wkbGeometryCollection
| wkbPoint25D | wkbLineString25D | wkbPolygon25D
| wkbMultiPoint25D | wkbMultiLineString25D | wkbMultiPolygon25D
| wkbGeometryCollection25D.

(** Methods of [osgeo.ogr.Geometry].  A method that builds a geometry may
    hand back [None]; [Intersection] may also raise (a [RuntimeError] whose
    message names a [TopologyException], for one). *)
Class OGR (G : Type) : Type := {
  CreateGeometryFromWkt : string → option G;
  IsEmpty : G → bool;
  GetGeometryType : G → wkbGeometryType;
  IsValid : G → bool;
  Area : G → Q;
  Within : G → G → bool;
  Disjoint : G → G → bool;
  Intersection : G → G → result (option G);
  Buffer : G → Q → option G;
}.

(** A GeoJSON feature of a tile partition: its properties, and its geometry
    member as [osgeo.ogr.CreateGeometryFromJson] reads it ([None] when OGR
    builds no geometry from it). *)
Record Feature (G : Type) : Type := {
  properties : gmap string pyval;
  geometry : option G;
}.
Arguments properties {G} _.
Arguments geometry {G} _.

(** ** Storage and the Lambda event *)

(** What [s3.get_object] answers: the content-encoding header, if any, and
    the bytes of the body. *)
Record S3Object : Type := {
  ContentEncoding : option string;
  Body : string;
}.

(** [data.Storage], without its client. *)
Record Storage : Type := {
  storage_bucket : string;
  storage_prefix : string;
}.

(** [data.Model] and [data.Upload], the fields the handler reads. *)
Record Model : Type := { key_prefix : string }.
Record Upload : Type := {
  upload_id : string;
  upload_model : option Model;
}.

(** The event of one tile invocation, its members already parsed by
    [data.Storage.from_event] and [data.Upload.from_dict]. *)
Record Event : Type := {
  event_storage : Storage;
  event_upload : Upload;
  event_key : string;
}.

(** The [totals] member of the result object: per-geometry totals, or
    [str(err)] for the exception [err] that ended the scoring. *)
Inductive totals_field : Type :=
| TotalsMap (m : gmap string (gmap string Q))
| TotalsStr (err : exn).

(** The JSON document that the handler writes: the event extended with
    four members. *)
Record ResultBody : Type := {
  body_event : Event;
  body_tile_key : string;
  body_geoms_prefix : string;
  body_totals : totals_field;
  body_precinct_count : nat;
}.

(** The boto3 S3 client.  [list_objects] gives the keys of
    [response['Contents']], or [None] when the response has no such member. *)
Record S3Client : Type := {
  get_object : string → string → result S3Object;
  list_objects : string → string → result (option (list string));
  put_object : string → string → ResultBody → result ();
}.

(** The calls that the log records. *)
Inductive logged (G : Type) : Type :=
| OgrIntersection (a b : G)
| OgrBuffer (a : G) (distance : Q)
| S3GetObject (bucket key : string)
| S3ListObjects (bucket prefix : string)
| S3PutObject (bucket key : string) (body : ResultBody).
Arguments OgrIntersection {G} a b.
Arguments OgrBuffer {G} a distance.
Arguments S3GetObject {G} bucket key.
Arguments S3ListObjects {G} bucket prefix.
Arguments S3PutObject {G} bucket key body.

(** What [tiles.py] imports from the rest of the package and from the
    Python library: constants of [constants], [score] and [data], path
    functions of [posixpath], the decoders, and the tile arithmetic of
    Modest Maps behind [tile_geometry]. *)
Class Env (G : Type) : Type := {
  FIELD_NAMES : list string;                    (* score.FIELD_NAMES *)
  ROUND_COUNT : nat;                            (* constants.ROUND_COUNT *)
  UPLOAD_TILES_KEY : string → string → string;  (* data.UPLOAD_TILES_KEY.format(id=, zxy=) *)
  UPLOAD_GEOMETRIES_DIR : string → string;
    (* posixpath.dirname(data.UPLOAD_GEOMETRIES_KEY).format(id=) *)
  relpath : string → string → result string;    (* posixpath.relpath *)
  splitext : string → string * string;          (* posixpath.splitext *)
  gzip_decompress : string → result string;     (* gzip.decompress *)
  json_load : string → result (gmap string (list (Feature G)));
    (* json.load on a feature collection: its members that hold features *)
  parse_zxy : string → result (Z * Z * Z);      (* map(int, tile_zxy.split('/')) *)
  tile_wkt : Z → Z → Z → string;
    (* the polygon text of tile z/x/y, from the mercator corner locations *)
}.

(** prepare_state.FRACTION_FIELD *)
Definition FRACTION_FIELD : string := "PlanScore:Fraction".

(** ** planscore/tiles.py *)

Section Tiles.
Context {G : Type} `{!OGR G} `{!Env G}.

Local Abbreviation Feature := (Feature G).
Local Abbreviation M := (M (logged G)).

(** The two OGR methods that build geometries, logged. *)
Definition ogr_Intersection (a b : G) : M (option G) :=
  call (OgrIntersection a b) (Intersection a b).

Definition ogr_Buffer (a : G) (distance : Q) : M (option G) :=
  call (OgrBuffer a distance) (Ok (Buffer a distance)).

(** [load_tile_precincts(storage, tile_zxy)]: GeoJSON features for a
    specific tile. *)
Definition load_tile_precincts (s3 : S3Client) (storage : Storage)
    (tile_zxy : string) : M (list Feature) :=
  let key := storage_prefix storage +:+ "/" +:+ tile_zxy +:+ ".geojson" in
  fetched ← try_except
    (object ← call (S3GetObject (storage_bucket storage) key)
                   (get_object s3 (storage_bucket storage) key);
     mret (Some object))
    (λ error,
       match error with
       | ClientError code =>
           if String.eqb code "NoSuchKey" then mret None (* return [] *)
           else raise error
       | _ => raise error
       end);
  match fetched with
  | None => mret []
  | Some object =>
      body ← (if bool_decide (ContentEncoding object = Some "gzip")
              then lift (gzip_decompress (Body object))
              else mret (Body object));
      geojson ← lift (json_load body);
      lift (getitem geojson "features")
  end.

(** [get_tile_zxy(model_key_prefix, tile_key)] *)
Definition get_tile_zxy (model_key_prefix tile_key : string) : result string :=
  match relpath tile_key model_key_prefix with
  | Ok rel => Ok (fst (splitext rel))
  | Raise e => Raise e
  end.

(** [tile_geometry(tile_zxy)]: an OGR geometry for a web mercator tile
    (the cache in front of it does not change what it returns). *)
Definition tile_geometry (tile_zxy : string) : result (option G) :=
  match parse_zxy tile_zxy with
  | Ok (z, x, y) => Ok (CreateGeometryFromWkt (tile_wkt z x y))
  | Raise e => Raise e
  end.

Definition is_point_type (t : wkbGeometryType) : bool :=
  match t with
  | wkbPoint | wkbPoint25D | wkbMultiPoint | wkbMultiPoint25D => true
  | _ => false
  end.

(** The names that [totals] is initialised with, in order:
    [name for name in score.FIELD_NAMES if name in properties]. *)
Definition totals_names (props : gmap string pyval) : list string :=
  filter (λ name, is_Some (props !! name)) FIELD_NAMES.

(** [{name: 0 for name in score.FIELD_NAMES if name in properties}] *)
Definition totals_init (props : gmap string pyval) : gmap string Q :=
  list_to_map ((λ name, (name, 0%Q)) <$> totals_names props).

(** Lines 100-109: the overlap of precinct and district, with one repair
    of an invalid precinct geometry.  Yields the precinct geometry in use
    afterwards and the overlap. *)
Definition overlap_with_repair (precinct_geom partial_district_geom : G)
    : M (G * option G) :=
  try_except
    (overlap_geom ← ogr_Intersection precinct_geom partial_district_geom;
     mret (precinct_geom, overlap_geom))
    (λ e,
       match e with
       | RuntimeError msg =>
           if str_contains "TopologyException" msg
              && negb (IsValid precinct_geom)
           then
             buffered ← ogr_Buffer precinct_geom (1 # 10000000);
             match buffered with
             | None => raise AttributeError
             | Some precinct_geom' =>
                 overlap_geom ← ogr_Intersection precinct_geom' partial_district_geom;
                 mret (precinct_geom', overlap_geom)
             end
           else raise e
       | _ => raise e
       end).

(** Lines 117-119: every name of [totals] gets its rounded share.  The
    names are visited once each; in which order does not show in the
    outcome, as no step depends on another. *)
Definition weigh_totals (props : gmap string pyval) (precinct_fraction : pyval)
    (totals : gmap string Q) : M (gmap string Q) :=
  foldM (λ totals name,
           value ← lift (getitem props name);
           precinct_value ← lift (py_mul precinct_fraction (py_or_zero value));
           mret (<[name := py_round ROUND_COUNT precinct_value]> totals))
        totals (remove_dups (totals_names props)).

(** [score_precinct(partial_district_geom, precinct_feat, tile_geom)]:
    weighted single-district totals for a precinct feature within a tile.
    [partial_district_geom] is the intersection of district and tile
    geometries. *)
Definition score_precinct (partial_district_geom : option G)
    (precinct_feat : Feature) (tile_geom : G) : M (gmap string Q) :=
  let props := properties precinct_feat in
  (* Initialize totals to zero *)
  let totals := totals_init props in
  match geometry precinct_feat, partial_district_geom with
  | None, _ => mret totals
  | Some _, None => mret totals
  | Some precinct_geom, Some district_geom =>
      if IsEmpty precinct_geom then mret totals
      else if IsEmpty district_geom then mret totals
      else
        '(precinct_is_point, precinct_frac) ←
          (if is_point_type (GetGeometryType precinct_geom)
           then mret (true, PNum 1)
           else frac ← lift (getitem props FRACTION_FIELD); mret (false, frac));
        if py_eq_zero precinct_frac then mret totals
        else
          fraction ←
            (if Within tile_geom district_geom then mret (Some precinct_frac)
             else if precinct_is_point : bool then
               mret (Some (if Within precinct_geom district_geom
                           then precinct_frac else PNum 0))
             else
               '(precinct_geom, overlap_geom) ←
                 overlap_with_repair precinct_geom district_geom;
               if Qeq_bool (Area precinct_geom) 0 then mret None (* return totals *)
               else
                 match overlap_geom with
                 | None => raise AttributeError
                 | Some overlap_geom =>
                     let overlap_area := (Area overlap_geom / Area precinct_geom)%Q in
                     f ← lift (py_mul (PNum overlap_area) precinct_frac);
                     mret (Some (PNum f))
                 end);
          match fraction with
          | None => mret totals
          | Some precinct_fraction => weigh_totals props precinct_fraction totals
          end
  end.

(** [totals.update({name: round(value + totals.get(name, 0), ROUND_COUNT)
    for (name, value) in subtotals.items()})] *)
Definition add_subtotals (totals subtotals : gmap string Q) : gmap string Q :=
  map_imap (λ name value,
              Some (py_round ROUND_COUNT (value + default 0%Q (totals !! name))))
           subtotals
  ∪ totals.

(** [score_district(district_geom, precincts, tile_geom)]: weighted
    precinct totals for a district over a tile. *)
Definition score_district (district_geom : G) (precincts : list Feature)
    (tile_geom : G) : M (gmap string Q) :=
  if Disjoint district_geom tile_geom then mret ∅
  else
    partial_district_geom ← ogr_Intersection district_geom tile_geom;
    foldM (λ totals precinct_feat,
             subtotals ← score_precinct partial_district_geom precinct_feat tile_geom;
             mret (add_subtotals totals subtotals))
          ∅ precincts.

(** Lines 131-132 of [lambda_handler]: the tile id and its precincts. *)
Definition lambda_handler_load (s3 : S3Client) (storage : Storage)
    (upload : Upload) (event : Event) : M (string * list Feature) :=
  prefix ← lift (match upload_model upload with
                 | Some m => Ok (key_prefix m)
                 | None => Raise AttributeError
                 end);
  tile_zxy ← lift (get_tile_zxy prefix (event_key event));
  precincts ← load_tile_precincts s3 storage tile_zxy;
  mret (tile_zxy, precincts).

(** Lines 136-145 of [lambda_handler]: list the district geometries of
    the upload and score each one over the tile. *)
Definition lambda_handler_score (s3 : S3Client) (storage : Storage)
    (geoms_prefix tile_zxy : string) (precincts : list Feature)
    : M (gmap string (gmap string Q)) :=
  response ← call (S3ListObjects (storage_bucket storage) geoms_prefix)
                  (list_objects s3 (storage_bucket storage) geoms_prefix);
  geometry_keys ← lift (match response with
                        | Some keys => Ok keys
                        | None => Raise (KeyError "Contents")
                        end);
  tile_geom ← lift (tile_geometry tile_zxy);
  foldM (λ totals geometry_key,
           object ← call (S3GetObject (storage_bucket storage) geometry_key)
                         (get_object s3 (storage_bucket storage) geometry_key);
           match CreateGeometryFromWkt (Body object), tile_geom with
           | None, _ => raise AttributeError
           | Some _, None => raise (OtherError "Received a NULL pointer.")
           | Some district_geom, Some tile_geom =>
               district_totals ← score_district district_geom precincts tile_geom;
               mret (<[geometry_key := district_totals]> totals)
           end)
        ∅ geometry_keys.

(** [lambda_handler(event, context)].  The [try] block binds [precincts],
    [tile_key] and [geoms_prefix] on its way; an exception before that
    leaves them unbound, and the [put_object] call, which evaluates
    [tile_key] first, then ends in an [UnboundLocalError].  An exception
    after that is caught and its text becomes [totals]. *)
Definition lambda_handler (s3 : S3Client) (event : Event) : M () :=
  let storage := event_storage event in
  let upload := event_upload event in
  '(tile_zxy, precincts) ←
    try_except (lambda_handler_load s3 storage upload event)
               (λ err, raise (UnboundLocalError "tile_key"));
  let tile_key := UPLOAD_TILES_KEY (upload_id upload) tile_zxy in
  let geoms_prefix := UPLOAD_GEOMETRIES_DIR (upload_id upload) in
  totals ←
    try_except
      (totals ← lambda_handler_score s3 storage geoms_prefix tile_zxy precincts;
       mret (TotalsMap totals))
      (λ err, mret (TotalsStr err));
  let body := {| body_event := event; body_tile_key := tile_key;
                 body_geoms_prefix := geoms_prefix; body_totals := totals;
                 body_precinct_count := length precincts |} in
  call (S3PutObject (storage_bucket storage) tile_key body)
       (put_object s3 (storage_bucket storage) tile_key body).
End Tiles.

(** ** planscore/prepare_state.py *)

(** prepare_state.TILE_ZOOM *)
Definition TILE_ZOOM : Z := 12.

(** [ModestMaps.Geo.Location] *)
Record Location : Type := mkLocation { lat : Q; lon : Q }.

(** [ModestMaps.Core.Coordinate], over the numbers it holds: rationals when
    it comes out of a projection, integers once [container] has floored it. *)
Record Coordinate (N : Type) : Type := mkCoordinate {
  row : N;
  column : N;
  zoom : Z;
}.
Arguments mkCoordinate {N} row column zoom.
Arguments row {N} _.
Arguments column {N} _.
Arguments zoom {N} _.

(** [Coordinate.zoomTo(destination)] *)
Definition zoomTo (c : Coordinate Q) (destination : Z) : Coordinate Q :=
  let factor := (2 ^ (destination - zoom c))%Q in
  mkCoordinate (row c * factor)%Q (column c * factor)%Q destination.

(** [Coordinate.container()] *)
Definition container (c : Coordinate Q) : Coordinate Z :=
  mkCoordinate (Qfloor (row c)) (Qfloor (column c)) (zoom c).

(** [Coordinate.down()] and [Coordinate.right()], by one. *)
Definition down (c : Coordinate Z) : Coordinate Z :=
  mkCoordinate (row c + 1)%Z (column c) (zoom c).
Definition right (c : Coordinate Z) : Coordinate Z :=
  mkCoordinate (row c) (column c + 1)%Z (zoom c).

(** The projection that [get_projection()] returns. *)
Class Projection : Type := {
  locationCoordinate : Location → Coordinate Q;
  coordinateLocation : Coordinate Z → Location;
}.

(** The box that [wkt_format] spells out as
    [POLYGON((x1 y1, x1 y2, x2 y2, x2 y1, x1 y1))]. *)
Record BBox : Type := mkBBox { x1 : Q; y1 : Q; x2 : Q; y2 : Q }.

(** [range(a, b)] *)
Definition py_range (a b : Z) : list Z := seqZ a (b - a).

(** [itertools.product(rows, columns)] *)
Definition product {A B} (rows : list A) (columns : list B) : list (A * B) :=
  r ← rows; c ← columns; [(r, c)].

Section PrepareState.
Context `{!Projection}.

(** The corner tiles of an extent: upper left and lower right. *)
Definition extent_corners (xxyy_extent : Q * Q * Q * Q) (zoom : Z)
    : Coordinate Z * Coordinate Z :=
  let '(w, e, s, n) := xxyy_extent in
  let nw := mkLocation n w in
  let se := mkLocation s e in
  (container (zoomTo (locationCoordinate nw) zoom),
   container (zoomTo (locationCoordinate se) zoom)).

(** The body of the loop: one tile and its bounding box. *)
Definition extent_tile (zoom : Z) (rc : Z * Z) : Coordinate Z * BBox :=
  let '(row, column) := rc in
  let tile_ul := mkCoordinate row column zoom in
  let tile_lr := right (down tile_ul) in
  let tile_nw := coordinateLocation tile_ul in
  let tile_se := coordinateLocation tile_lr in
  (tile_ul, mkBBox (lon tile_nw) (lat tile_se) (lon tile_se) (lat tile_nw)).

(** [iter_extent_tiles(xxyy_extent, zoom)]: the stream of (coordinate,
    bounding box) pairs, as the list of what it yields.  The extent is
    (xmin, xmax, ymin, ymax). *)
Definition iter_extent_tiles (xxyy_extent : Q * Q * Q * Q) (zoom : Z)
    : list (Coordinate Z * BBox) :=
  let '(ul, lr) := extent_corners xxyy_extent zoom in
  let rows := py_range (row ul) (row lr + 1) in
  let columns := py_range (column ul) (column lr + 1) in
  extent_tile zoom <$> product rows columns.
End PrepareState.

(** Row-major order on tiles: by row, then by column. *)
Definition tile_lt (a b : Coordinate Z) : Prop :=
  (row a < row b)%Z ∨ (row a = row b ∧ (column a < column b)%Z).

(** The same order on (row, column) pairs. *)
Definition pair_lt (a b : Z * Z) : Prop :=
  (a.1 < b.1)%Z ∨ (a.1 = b.1 ∧ (a.2 < b.2)%Z).

(** ** Reference definitions for the statements *)

Section Reference.
Context {G : Type} `{!OGR G} `{!Env G}.

(** The scorer as the specification's steps 1-4 and 6-8 describe it, with
    no containment shortcut (step 5): points are tested for being inside,
    area geometries have their overlap computed. *)
Definition score_precinct_explicit (partial_district_geom : option G)
    (precinct_feat : Feature G) : M (logged G) (gmap string Q) :=
  let props := properties precinct_feat in
  let totals := totals_init props in
  match geometry precinct_feat, partial_district_geom with
  | None, _ | Some _, None => mret totals
  | Some precinct_geom, Some district_geom =>
      if IsEmpty precinct_geom || IsEmpty district_geom then mret totals
      else if is_point_type (GetGeometryType precinct_geom) then
        weigh_totals props
          (if Within precinct_geom district_geom then PNum 1 else PNum 0) totals
      else
        precinct_frac ← lift (getitem props FRACTION_FIELD);
        if py_eq_zero precinct_frac then mret totals
        else
          '(precinct_geom, overlap_geom) ←
            overlap_with_repair precinct_geom district_geom;
          if Qeq_bool (Area precinct_geom) 0 then mret totals
          else
            match overlap_geom with
            | None => raise AttributeError
            | Some overlap_geom =>
                let overlap_area := (Area overlap_geom / Area precinct_geom)%Q in
                f ← lift (py_mul (PNum overlap_area) precinct_frac);
                weigh_totals props (PNum f) totals
            end
  end.

(** The number that a property value stands for in a product: [v or 0]. *)
Definition attr_value (v : pyval) : Q :=
  default 0%Q (as_num (py_or_zero v)).

(** Every listed property of the feature is a number, or null, or empty. *)
Definition numeric_fields (props : gmap string pyval) : Prop :=
  ∀ name v, name ∈ FIELD_NAMES → props !! name = Some v →
    is_Some (as_num (py_or_zero v)).

(** The share of one attribute under the weight [w]: present exactly for
    the listed names that the feature has. *)
Definition share (w : Q) (props : gmap string pyval) (name : string) : option Q :=
  if decide (name ∈ FIELD_NAMES)
  then (λ v, py_round ROUND_COUNT (w * attr_value v)) <$> props !! name
  else None.

(** The precinct lies wholly in the district geometry, in OGR's terms: a
    point is within it; an area geometry overlaps it in its full area. *)
Definition covered_by (precinct_geom district_geom : G) : Prop :=
  if is_point_type (GetGeometryType precinct_geom)
  then Within precinct_geom district_geom = true
  else ∃ overlap_geom,
         Intersection precinct_geom district_geom = Ok (Some overlap_geom)
         ∧ (Area overlap_geom == Area precinct_geom)%Q.

(** The geometry that the containment shortcut rests on: being within is
    transitive, and what lies within a geometry overlaps it in its full
    area. *)
Class OGRLaws : Prop := {
  Within_trans a b c :
    Within a b = true → Within b c = true → Within a c = true;
  Within_overlap a b :
    is_point_type (GetGeometryType a) = false → Within a b = true →
    ∃ overlap_geom, Intersection a b = Ok (Some overlap_geom)
                    ∧ (Area overlap_geom == Area a)%Q;
}.

(** The three early returns of lines 72-89: no precinct geometry, no
    district geometry, or a stored fraction of zero. *)
Definition returns_early (partial_district_geom : option G)
    (precinct_feat : Feature G) : Prop :=
  match geometry precinct_feat, partial_district_geom with
  | None, _ | Some _, None => True
  | Some precinct_geom, Some district_geom =>
      IsEmpty precinct_geom = true ∨ IsEmpty district_geom = true
      ∨ (is_point_type (GetGeometryType precinct_geom) = false
         ∧ ∃ frac, properties precinct_feat !! FRACTION_FIELD = Some frac
                   ∧ py_eq_zero frac = true)
  end.

(** The exceptions that line 103 repairs. *)
Definition is_topology_error (e : exn) : bool :=
  match e with
  | RuntimeError msg => str_contains "TopologyException" msg
  | _ => false
  end.
End Reference.
Arguments OGRLaws G {_}.

(** ** A planar stand-in for OGR: axis-parallel boxes

    Enough geometry to run the scorer on the fixtures of the test suite:
    boxes, points, an empty collection, and a box whose ring is traced in
    a self-crossing order (invalid until buffered). *)
Module Planar.
Inductive shape : Type :=
| Empty
| Point (x y : Q)
| Box (xmin ymin xmax ymax : Q)
| Bowtie (xmin ymin xmax ymax : Q).

Definition Qltb (a b : Q) : bool := negb (Qle_bool b a).
Definition qmin (a b : Q) : Q := if Qle_bool a b then a else b.
Definition qmax (a b : Q) : Q := if Qle_bool a b then b else a.

Definition area (s : shape) : Q :=
  match s with
  | Box a b c d => Qred ((c - a) * (d - b))
  | _ => 0
  end.

Definition within (a b : shape) : bool :=
  match a, b with
  | Point x y, Box x1 y1 x2 y2 =>
      Qltb x1 x && Qltb x x2 && Qltb y1 y && Qltb y y2
  | Box a1 b1 a2 b2, Box x1 y1 x2 y2 =>
      Qle_bool a1 a2 && Qle_bool b1 b2
      && Qle_bool x1 a1 && Qle_bool a2 x2 && Qle_bool y1 b1 && Qle_bool b2 y2
  | _, _ => false
  end.

Definition disjoint (a b : shape) : bool :=
  match a, b with
  | Point x y, Box x1 y1 x2 y2 | Box x1 y1 x2 y2, Point x y =>
      Qltb x x1 || Qltb x2 x || Qltb y y1 || Qltb y2 y
  | Box a1 b1 a2 b2, Box x1 y1 x2 y2 =>
      Qltb a2 x1 || Qltb x2 a1 || Qltb b2 y1 || Qltb y2 b1
  | Point x y, Point x' y' => negb (Qeq_bool x x' && Qeq_bool y y')
  | _, _ => true
  end.

Definition topology_message : string :=
  "TopologyException: Input geom 0 is invalid: Self-intersection".

Definition intersection (a b : shape) : result (option shape) :=
  match a, b with
  | Bowtie _ _ _ _, _ | _, Bowtie _ _ _ _ => Raise (RuntimeError topology_message)
  | Box a1 b1 a2 b2, Box x1 y1 x2 y2 =>
      if disjoint a b then Ok (Some Empty)
      else Ok (Some (Box (qmax a1 x1) (qmax b1 y1) (qmin a2 x2) (qmin b2 y2)))
  | Point x y, other | other, Point x y =>
      if disjoint (Point x y) other then Ok (Some Empty) else Ok (Some (Point x y))
  | Empty, _ | _, Empty => Ok (Some Empty)
  end.

Definition buffer (a : shape) (d : Q) : option shape :=
  match a with
  | Empty => Some Empty
  | Point x y => Some (Box (x - d) (y - d) (x + d) (y + d))
  | Box x1 y1 x2 y2 | Bowtie x1 y1 x2 y2 =>
      Some (Box (x1 - d) (y1 - d) (x2 + d) (y2 + d))
  end.

(** Tile 12/2049/2046 and the district of the test suite that covers
    the unit square around the origin. *)
Definition tile_2049_2046 : shape := Box (45 # 512) (45 # 512) (45 # 256) (45 # 256).
Definition whole_district : shape := Box (-1) (-1) 1 1.

Definition from_wkt (wkt : string) : option shape :=
  if String.eqb wkt "POLYGON ((-1 -1,-1 1,1 1,1 -1,-1 -1))" then Some whole_district
  else if String.eqb wkt "TILE 12/2049/2046" then Some tile_2049_2046
  else None.

#[export] Instance planar_ogr : OGR shape := {|
  CreateGeometryFromWkt := from_wkt;
  IsEmpty s := match s with Empty => true | _ => false end;
  GetGeometryType s :=
    match s with
    | Empty => wkbGeometryCollection
    | Point _ _ => wkbPoint
    | Box _ _ _ _ | Bowtie _ _ _ _ => wkbPolygon
    end;
  IsValid s := match s with Bowtie _ _ _ _ => false | _ => true end;
  Area := area;
  Within := within;
  Disjoint := disjoint;
  Intersection := intersection;
  Buffer := buffer;
|}.

(** The precinct of the scoring tests: one voter, half of it in this tile. *)
Definition half_precinct (g : shape) : Feature shape :=
  {| properties := {[ "Voters" := PNum 1; FRACTION_FIELD := PNum (1 # 2) ]};
     geometry := Some g |}.

Definition blockpoint (g : shape) : Feature shape :=
  {| properties := {[ "Voters" := PNum 1 ]}; geometry := Some g |}.

Definition precinct_box : shape := Box (12 # 100) (12 # 100) (16 # 100) (16 # 100).

(** A ring collapsed onto a segment: a polygon of no area. *)
Definition sliver : shape := Box (12 # 100) (12 # 100) (12 # 100) (16 # 100).

(** A precinct polygon that carries no fraction. *)
Definition unweighted_precinct : Feature shape :=
  {| properties := {[ "Voters" := PNum 1 ]}; geometry := Some precinct_box |}.

Definition feature_collection : gmap string (list (Feature shape)) :=
  {[ "features" := [half_precinct precinct_box] ]}.

#[export] Instance planar_env : Env shape := {|
  FIELD_NAMES := ["Voters"; "Red Votes"; "Blue Votes"];
  ROUND_COUNT := 4;
  UPLOAD_TILES_KEY id zxy := "uploads/" +:+ id +:+ "/tiles/" +:+ zxy +:+ ".json";
  UPLOAD_GEOMETRIES_DIR id := "uploads/" +:+ id +:+ "/geometries";
  relpath path start :=
    Ok (String.substring (S (String.length start))
                         (String.length path - S (String.length start)) path);
  splitext path :=
    (String.substring 0 (String.length path - 8) path,
     String.substring (String.length path - 8) 8 path);
  gzip_decompress body :=
    if String.eqb body "gzip:features" then Ok "features"
    else Raise (OtherError "Not a gzipped file");
  json_load body :=
    if String.eqb body "features" then Ok feature_collection
    else if String.eqb body "unweighted" then Ok {[ "features" := [unweighted_precinct] ]}
    else Raise (OtherError "Expecting value");
  parse_zxy zxy := Ok (12, 2049, 2046)%Z;
  tile_wkt z x y := "TILE 12/2049/2046";
|}.

Definition storage : Storage :=
  {| storage_bucket := "planscore"; storage_prefix := "data/XX" |}.

(** A bucket that holds nothing. *)
Definition missing_s3 : S3Client :=
  {| get_object _ _ := Raise (ClientError "NoSuchKey");
     list_objects _ _ := Ok None;
     put_object _ _ _ := Ok () |}.

(** A bucket that refuses to be read. *)
Definition denied_s3 : S3Client :=
  {| get_object _ _ := Raise (ClientError "AccessDenied");
     list_objects _ _ := Raise (ClientError "AccessDenied");
     put_object _ _ _ := Ok () |}.

(** A bucket with one gzipped tile and one district geometry; the tile's
    body is [tile_body]. *)
Definition bucket_s3 (tile_body : S3Object) : S3Client :=
  {| get_object _ key :=
       if String.eqb key "data/XX/12/2049/2046.geojson" then Ok tile_body
       else if String.eqb key "uploads/ID/geometries/0.wkt"
       then Ok {| ContentEncoding := None;
                  Body := "POLYGON ((-1 -1,-1 1,1 1,1 -1,-1 -1))" |}
       else Raise (ClientError "NoSuchKey");
     list_objects _ _ := Ok (Some ["uploads/ID/geometries/0.wkt"]);
     put_object _ _ _ := Ok () |}.

Definition gzipped_tile : S3Object :=
  {| ContentEncoding := Some "gzip"; Body := "gzip:features" |}.
Definition unweighted_tile : S3Object :=
  {| ContentEncoding := None; Body := "unweighted" |}.

Definition tile_event : Event :=
  {| event_storage := storage;
     event_upload := {| upload_id := "ID";
                        upload_model := Some {| key_prefix := "data/XX" |} |};
     event_key := "data/XX/12/2049/2046.geojson" |}.

(** A district that reaches east to [x], as far as it lies in tile
    12/2049/2046; at x = 0.14 it cuts the precinct of the tests in half. *)
Definition district_part (x : Q) : shape := Box (45 # 512) (45 # 512) x (45 # 256).
Definition cut_district : shape := Box (-1) (-1) (14 # 100) 1.
Definition cut_partial : shape := district_part (14 # 100).
Definition cut_overlap : shape := Box (12 # 100) (12 # 100) (14 # 100) (16 # 100).

(** The precinct of the tests with its ring out of order, and what a
    buffer of 1e-7 makes of it. *)
Definition bowtie_precinct : shape :=
  Bowtie (12 # 100) (12 # 100) (16 # 100) (16 # 100).
Definition buffered_precinct : shape :=
  Box ((12 # 100) - (1 # 10000000)) ((12 # 100) - (1 # 10000000))
      ((16 # 100) + (1 # 10000000)) ((16 # 100) + (1 # 10000000)).

Definition inner_point : shape := Point (14 # 100) (14 # 100).
End Planar.

(** ** A stand-in for the projection: degrees laid out evenly

    Columns run east from 180 W and rows run south from 90 N; at zoom
    level z the world is 2^z tiles wide and high. *)
Module Equirect.
Definition to_coordinate (loc : Location) : Coordinate Q :=
  mkCoordinate ((90 - lat loc) / 180)%Q ((lon loc + 180) / 360)%Q 0.

Definition to_location (c : Coordinate Z) : Location :=
  let span := inject_Z (2 ^ zoom c) in
  mkLocation (90 - inject_Z (row c) * 180 / span)%Q
             (inject_Z (column c) * 360 / span - 180)%Q.

#[export] Instance equirect : Projection := {|
  locationCoordinate := to_coordinate;
  coordinateLocation := to_location;
|}.

(** The north-eastern octant next to the origin:
    (xmin, xmax, ymin, ymax) = (0, 90, 0, 45). *)
Definition octant : Q * Q * Q * Q := (0, 90, 0, 45)%Q.
End Equirect.

(** ** planscore/prepare_state.py: excerpts and the command *)

(** [osr.SpatialReference], by its EPSG code. *)
Inductive spatial_reference : Type := EPSG (code : Z).

(** prepare_state.EPSG4326 *)
Definition EPSG4326 : spatial_reference := EPSG 4326.

(** prepare_state.KEY_FORMAT, as the function of its two fields. *)
Definition KEY_FORMAT (directory zxy : string) : string :=
  "data/" +:+ directory +:+ "/" +:+ zxy +:+ ".geojson".

(** [Geometry.TransformTo]: the geometry in another spatial reference. *)
Class OGRReproject (G : Type) : Type := {
  TransformTo : G → spatial_reference → G;
}.

(** An [ogr.Feature] of a layer: the fields that are set, and its geometry
    if it has one. *)
Record OgrFeature (G : Type) : Type := {
  fields : gmap string pyval;
  geometry_ref : option G;
}.
Arguments fields {G} _.
Arguments geometry_ref {G} _.

(** An [ogr.Layer], as far as [main] asks it: its extent, and the features
    it iterates over once a spatial filter is set ([None] for no filter). *)
Record Layer (G : Type) : Type := {
  GetExtent : Q * Q * Q * Q;
  filtered_features : option G → list (OgrFeature G);
}.
Arguments GetExtent {G} _.
Arguments filtered_features {G} _.

(** The parsed command line. *)
Record Args : Type := {
  args_filename : string;
  args_directory : string;
  args_zoom : Z;
  args_s3 : bool;
}.

(** What [main] leaves behind: an object in the bucket or a file. *)
Inductive written : Type :=
| PutTile (bucket key body : string)
| WriteFile (path content : string).

(** The calls that the log of [main] records. *)
Inductive prepared (G : Type) : Type :=
| Geometry (c : logged G)
| Output (w : written).
Arguments Geometry {G} c.
Arguments Output {G} w.

(** The library behind [main]: OGR's data sources and JSON export, the
    text of a box, gzip, and the two ways out. *)
Class PrepEnv (G : Type) : Type := {
  ogr_Open : string → option (Layer G);    (* ogr.Open(filename).GetLayer(0) *)
  ExportToJson : OgrFeature G → string;     (* with COORDINATE_PRECISION=7 *)
  wkt_format : BBox → string;               (* wkt_format.format(x1=, y1=, x2=, y2=) *)
  gzip_compress : string → string;          (* gzip.compress *)
  s3_put_tile : string → string → string → result ();  (* s3.put_object *)
  write_file : string → string → result (); (* os.makedirs and file.write *)
}.

(** [a / b] on floats. *)
Definition py_div (a b : Q) : result Q :=
  if Qeq_bool b 0 then Raise (OtherError "float division by zero")
  else Ok (a / b)%Q.

(** The text between the features of a collection, and around them. *)
Definition newline : string := String (Ascii.ascii_of_nat 10) EmptyString.
Definition quote : string := String (Ascii.ascii_of_nat 34) EmptyString.

(** [sep.join(parts)] *)
Fixpoint join (sep : string) (parts : list string) : string :=
  match parts with
  | [] => EmptyString
  | [part] => part
  | part :: rest => part +:+ sep +:+ join sep rest
  end.

Section Prepare.
Context {G : Type} `{!OGR G} `{!OGRReproject G} `{!PrepEnv G} `{!Projection}.

Definition is_polygon_type (t : wkbGeometryType) : bool :=
  match t with
  | wkbPolygon | wkbPolygon25D | wkbMultiPolygon | wkbMultiPolygon25D => true
  | _ => false
  end.

(** [excerpt_feature(feature, bbox_geom)]: a cloned feature trimmed to the
    bbox and marked with a fraction. *)
Definition excerpt_feature (feature : OgrFeature G) (bbox_geom : option G)
    : M (logged G) (OgrFeature G) :=
  match geometry_ref feature, bbox_geom with
  | None, _ => raise AttributeError
  | Some _, None => raise (OtherError "Received a NULL pointer.")
  | Some original_geometry, Some bbox_geom =>
      clipped ← ogr_Intersection original_geometry bbox_geom;
      match clipped with
      | None => raise AttributeError
      | Some clipped =>
          let local_geometry := TransformTo clipped EPSG4326 in
          if is_polygon_type (GetGeometryType original_geometry) then
            (* Only attempt to calculate out a fraction for an original polygon *)
            fraction ← lift (py_div (Area local_geometry) (Area original_geometry));
            mret {| fields := <[FRACTION_FIELD := PNum fraction]> (fields feature);
                    geometry_ref := Some local_geometry |}
          else
            (* Set fraction to null otherwise *)
            mret {| fields := delete FRACTION_FIELD (fields feature);
                    geometry_ref := Some local_geometry |}
      end
  end.

(** The text ['{zoom}/{column}/{row}'] of a tile's three numbers. *)
Definition format_zxy (tile : Coordinate Z) : string :=
  pretty (zoom tile) +:+ "/" +:+ pretty (column tile) +:+ "/" +:+ pretty (row tile).

(** The three [print]s into the buffer of lines 96-99. *)
Definition collection_text (features_json : list string) : string :=
  "{" +:+ quote +:+ "type" +:+ quote +:+ ": "
      +:+ quote +:+ "FeatureCollection" +:+ quote +:+ ", "
      +:+ quote +:+ "features" +:+ quote +:+ ": [" +:+ newline
  +:+ join ("," +:+ newline) features_json +:+ newline
  +:+ "]}" +:+ newline.

(** Carry a log of geometry calls over into the log of [main]. *)
Definition relog {A} (m : M (logged G) A) : M (prepared G) A :=
  (Geometry <$> fst m, snd m).

(** Lines 84-91: the excerpts of the features that the tile's box selects,
    as JSON. *)
Definition tile_features_json (layer : Layer G) (bbox_geom : option G)
    : M (prepared G) (list string) :=
  foldM (λ features_json feature,
           local_feature ← relog (excerpt_feature feature bbox_geom);
           mret (features_json ++ [ExportToJson local_feature]))
        [] (filtered_features layer bbox_geom).

(** Lines 93-115: nothing for a tile without features; otherwise the
    collection goes to the bucket, gzipped, or to a file of its own. *)
Definition write_tile (args : Args) (tile : Coordinate Z)
    (features_json : list string) : M (prepared G) () :=
  match features_json with
  | [] => mret ()
  | _ :: _ =>
      let buffer := collection_text features_json in
      let tile_zxy := format_zxy tile in
      let key := KEY_FORMAT (args_directory args) tile_zxy in
      if args_s3 args then
        let body := gzip_compress buffer in
        call (Output (PutTile "planscore" key body))
             (s3_put_tile "planscore" key body)
      else
        call (Output (WriteFile key buffer)) (write_file key buffer)
  end.

(** Lines 84-115: the body of the loop, for one tile and its box. *)
Definition main_tile (args : Args) (layer : Layer G) (tile : Coordinate Z)
    (bbox : BBox) : M (prepared G) () :=
  let bbox_geom := CreateGeometryFromWkt (wkt_format bbox) in
  features_json ← tile_features_json layer bbox_geom;
  write_tile args tile features_json.

(** [main()], from the parsed arguments on; what it prints is left out. *)
Definition main (args : Args) : M (prepared G) () :=
  match ogr_Open (args_filename args) with
  | None => raise AttributeError
  | Some layer =>
      foldM (λ _ tile_bbox, main_tile args layer tile_bbox.1 tile_bbox.2)
            () (iter_extent_tiles (GetExtent layer) (args_zoom args))
  end.
End Prepare.

(** ** Reference definitions for the further facts *)

(** The sum of a list of numbers. *)
Definition Qsum (l : list Q) : Q := foldr Qplus 0%Q l.

Section Shares.
Context {G : Type} `{!OGR G} `{!Env G}.

(** What one precinct adds to the total of a name: its subtotal for the
    name, and nothing when it has none. *)
Definition precinct_share (partial_district_geom : option G) (tile_geom : G)
    (name : string) (precinct_feat : Feature G) : Q :=
  match snd (score_precinct partial_district_geom precinct_feat tile_geom) with
  | Ok subtotals => default 0%Q (subtotals !! name)
  | Raise _ => 0%Q
  end.

(** All the values of a mapping of totals are rounded numbers. *)
Definition rounded (m : gmap string Q) : Prop :=
  ∀ name v, m !! name = Some v → py_round ROUND_COUNT v = v.
End Shares.

(** The calls of the log by kind: geometry operations, and writes to S3. *)
Definition is_ogr_call {G : Type} (c : logged G) : bool :=
  match c with
  | OgrIntersection _ _ | OgrBuffer _ _ => true
  | _ => false
  end.

Definition is_put {G : Type} (c : logged G) : bool :=
  match c with
  | S3PutObject _ _ _ => true
  | _ => false
  end.

(** What a run of [main] has written, in order, and where. *)
Definition outputs {G : Type} (tr : list (prepared G)) : list written :=
  omap (λ c, match c with Output w => Some w | Geometry _ => None end) tr.

Definition written_key (w : written) : string :=
  match w with
  | PutTile _ key _ => key
  | WriteFile path _ => path
  end.

(** The character that separates the parts of a key, and whether a text
    has it. *)
Definition slash : Ascii.ascii :=
  Ascii.Ascii true true true true false true false false.

Fixpoint has_slash (s : string) : bool :=
  match s with
  | EmptyString => false
  | String c s' => Ascii.eqb c slash || has_slash s'
  end.

(** ** Fixtures for the further facts

    A source layer over the octant, in EPSG:4326 already, whose one good
    precinct lies across the east edge of the box of tile 1/2 at zoom 2;
    that box is taken to be the one of tile 12/2049/2046. *)
Module PlanarPrepare.
Import Planar Equirect.

#[export] Instance planar_reproject : OGRReproject shape := {|
  TransformTo g _ := g;
|}.

(** A precinct that reaches past the east edge of the tile, and the part
    of it inside. *)
Definition wide_precinct : shape := Box (12 # 100) (12 # 100) (20 # 100) (16 # 100).
Definition wide_clipped : shape := Box (12 # 100) (12 # 100) (45 # 256) (16 # 100).

(** A feature of the source layer; the fraction it carries is stale. *)
Definition source_feature (g : shape) : OgrFeature shape :=
  {| fields := properties (half_precinct g); geometry_ref := Some g |}.

(** What [excerpt_feature] makes of the wide precinct, and the precinct
    that the scorer reads back. *)
Definition wide_excerpt : OgrFeature shape :=
  {| fields := <[FRACTION_FIELD := PNum (area wide_clipped / area wide_precinct)]>
                 (fields (source_feature wide_precinct));
     geometry_ref := Some wide_clipped |}.
Definition wide_loaded : Feature shape :=
  {| properties := fields wide_excerpt; geometry := Some wide_clipped |}.

(** A precinct whose fraction is a text. *)
Definition mislabeled_precinct : Feature shape :=
  {| properties := {[ "Voters" := PNum 1; FRACTION_FIELD := PStr "half" ]};
     geometry := Some precinct_box |}.

(** A layer with the wide precinct in the small box and [elsewhere] in
    every larger one. *)
Definition layer_of (elsewhere : list (OgrFeature shape)) : Layer shape :=
  {| GetExtent := octant;
     filtered_features bbox_geom :=
       match bbox_geom with
       | Some g => if Qle_bool (area g) 1 then [source_feature wide_precinct]
                   else elsewhere
       | None => source_feature wide_precinct :: elsewhere
       end |}.

#[export] Instance planar_prep : PrepEnv shape := {|
  ogr_Open filename :=
    if String.eqb filename "precincts.shp" then Some (layer_of [])
    else if String.eqb filename "slivers.shp"
    then Some (layer_of [source_feature sliver])
    else None;
  ExportToJson feature := "{}";
  wkt_format bbox :=
    if Qeq_bool (x1 bbox) 0 && Qeq_bool (y2 bbox) 45 then "TILE 12/2049/2046"
    else "POLYGON ((-1 -1,-1 1,1 1,1 -1,-1 -1))";
  gzip_compress text := "gzip:" +:+ text;
  s3_put_tile _ _ _ := Ok ();
  write_file _ _ := Ok ();
|}.

Definition prepare_args (filename : string) (s3 : bool) : Args :=
  {| args_filename := filename; args_directory := "XX"; args_zoom := 2;
     args_s3 := s3 |}.

(** An OGR that does not take an invalid ring for disjoint from anything. *)
Definition bowtie_ogr : OGR shape := {|
  CreateGeometryFromWkt := from_wkt;
  IsEmpty s := match s with Empty => true | _ => false end;
  GetGeometryType s :=
    match s with
    | Empty => wkbGeometryCollection
    | Point _ _ => wkbPoint
    | Box _ _ _ _ | Bowtie _ _ _ _ => wkbPolygon
    end;
  IsValid s := match s with Bowtie _ _ _ _ => false | _ => true end;
  Area := area;
  Within := within;
  Disjoint a b := match a with Bowtie _ _ _ _ => false | _ => disjoint a b end;
  Intersection := intersection;
  Buffer := buffer;
|}.

(** A decoder for which every document is an object without 'features'. *)
Definition featureless_env : Env shape := {|
  FIELD_NAMES := ["Voters"; "Red Votes"; "Blue Votes"];
  ROUND_COUNT := 4;
  UPLOAD_TILES_KEY id zxy := "uploads/" +:+ id +:+ "/tiles/" +:+ zxy +:+ ".json";
  UPLOAD_GEOMETRIES_DIR id := "uploads/" +:+ id +:+ "/geometries";
  relpath path start := Ok path;
  splitext path := (path, EmptyString);
  gzip_decompress body := Ok body;
  json_load body := Ok ∅;
  parse_zxy zxy := Ok (12, 2049, 2046)%Z;
  tile_wkt z x y := "TILE 12/2049/2046";
|}.

(** Tiles whose body is gzip-encoded but not gzipped, and not JSON. *)
Definition broken_gzip : S3Object :=
  {| ContentEncoding := Some "gzip"; Body := "features" |}.
Definition broken_json : S3Object :=
  {| ContentEncoding := None; Body := "<html>" |}.
End PlanarPrepare.

(** * Facts *)

(** ** Numbers *)

Lemma round_half_even_proper (x y : Q) :
  (x == y)%Q → round_half_even x = round_half_even y.
Proof.
  intros Hxy. unfold round_half_even.
  rewrite (Qfloor_comp _ _ Hxy).
  assert (Hc : (x - inject_Z (Qfloor y) ?= 1 # 2)%Q
               = (y - inject_Z (Qfloor y) ?= 1 # 2)%Q).
  { apply Qcompare_comp; [by rewrite Hxy | reflexivity]. }
  by rewrite Hc.
Qed.

Lemma py_round_proper (n : nat) (x y : Q) :
  (x == y)%Q → py_round n x = py_round n y.
Proof.
  intros Hxy. unfold py_round.
  rewrite (round_half_even_proper (x * _) (y * inject_Z (10 ^ Z.of_nat n))); [done|].
  by rewrite Hxy.
Qed.

Lemma py_round_zero (n : nat) (x : Q) : (x == 0)%Q → py_round n x = 0%Q.
Proof.
  intros Hx. rewrite (py_round_proper n x 0 Hx). unfold py_round.
  replace (round_half_even (0 * inject_Z (10 ^ Z.of_nat n))) with 0%Z; [done|].
  symmetry. rewrite (round_half_even_proper _ 0); [done|]. ring.
Qed.

Lemma as_num_or_zero (v : pyval) (y : Q) :
  as_num (py_or_zero v) = Some y → attr_value v = y.
Proof. unfold attr_value. by intros ->. Qed.

(** ** The monad *)

Section MonadFacts.
Context {E : Type}.
Implicit Types (t : list E).

Lemma bind_ok {A B} t (a : A) (k : A → M E B) :
  (mbind k (t, Ok a) : M E B) = (t ++ fst (k a), snd (k a)).
Proof. unfold mbind, M_bind, bind. by destruct (k a). Qed.

Lemma bind_raise {A B} t e (k : A → M E B) :
  (mbind k ((t, Raise e) : M E A) : M E B) = (t, Raise e).
Proof. done. Qed.

Lemma bind_ret {A B} (a : A) (k : A → M E B) : (mret a ≫= k) = k a.
Proof. unfold mret, M_ret, ret. rewrite bind_ok. by destruct (k a). Qed.

Lemma bind_lift_ok {A B} (a : A) (k : A → M E B) : (lift (Ok a) ≫= k) = k a.
Proof. apply (bind_ret a k). Qed.

Lemma bind_lift_raise {A B} e (k : A → M E B) :
  (lift (Raise e) ≫= k) = raise e.
Proof. done. Qed.

Lemma bind_ok_inv {A B} (m : M E A) (k : A → M E B) tr (b : B) :
  (m ≫= k) = (tr, Ok b) →
  ∃ t1 a t2, m = (t1, Ok a) ∧ k a = (t2, Ok b) ∧ tr = t1 ++ t2.
Proof.
  destruct m as [t1 [a|e]]; [|done]. rewrite bind_ok. intros [= <- Hs].
  exists t1, a, (fst (k a)). destruct (k a); simpl in *. by subst.
Qed.

Lemma fst_bind {A B} (m : M E A) (k : A → M E B) :
  (∀ a, fst (k a) = []) → fst (m ≫= k) = fst m.
Proof.
  intros Hk. destruct m as [t [a|e]]; [|done].
  rewrite bind_ok. cbn [fst]. by rewrite Hk, app_nil_r.
Qed.

Lemma snd_bind_raise {A B} (m : M E A) (k : A → M E B) e :
  snd m = Raise e → snd (m ≫= k) = Raise e.
Proof. destruct m as [t [a|e']]; [done|]. by intros [= ->]. Qed.

Lemma foldM_nil {A B} (f : A → B → M E A) (a : A) : foldM f a [] = mret a.
Proof. done. Qed.

Lemma foldM_cons {A B} (f : A → B → M E A) (a : A) (x : B) (l : list B) :
  foldM f a (x :: l) = (f a x ≫= λ a', foldM f a' l).
Proof. done. Qed.

Lemma foldM_ext_in {A B} (f g : A → B → M E A) (a : A) (l : list B) :
  (∀ a x, x ∈ l → f a x = g a x) → foldM f a l = foldM g a l.
Proof.
  revert a. induction l as [|x l IH]; intros a Hfg; [done|].
  simpl. rewrite Hfg by left.
  destruct (g a x) as [t [a'|e]]; [|done].
  unfold bind. rewrite IH; [done|]. intros; apply Hfg. by right.
Qed.

Lemma foldM_no_calls {A B} (f : A → B → M E A) (a : A) (l : list B) :
  (∀ a x, fst (f a x) = []) → fst (foldM f a l) = [].
Proof.
  intros Hf. revert a. induction l as [|x l IH]; intros a; [done|].
  simpl. specialize (Hf a x). destruct (f a x) as [t [a'|e]]; simpl in *; [|done].
  specialize (IH a'). destruct (foldM f a' l). simpl in *. by subst.
Qed.
End MonadFacts.

(** ** The totals of one precinct *)

Section TotalsFacts.
Context {G : Type} `{!OGR G} `{!Env G}.
Implicit Types (props : gmap string pyval) (totals : gmap string Q).

Lemma totals_names_elem props name :
  name ∈ totals_names props ↔ name ∈ FIELD_NAMES ∧ is_Some (props !! name).
Proof. unfold totals_names. rewrite list_elem_of_filter. tauto. Qed.

Lemma zeros_lookup (l : list string) name :
  (list_to_map ((λ n, (n, 0%Q)) <$> l) : gmap string Q) !! name
  = if decide (name ∈ l) then Some 0%Q else None.
Proof.
  induction l as [|n l IH].
  - rewrite fmap_nil, list_to_map_nil, lookup_empty.
    destruct (decide (name ∈ [])) as [Hin|_]; [set_solver|done].
  - rewrite fmap_cons, list_to_map_cons.
    destruct (decide (n = name)) as [->|Hne].
    + rewrite lookup_insert_eq.
      destruct (decide (name ∈ name :: l)) as [_|Hnin]; [done|set_solver].
    + rewrite lookup_insert_ne by done. rewrite IH.
      destruct (decide (name ∈ l)) as [H1|H1],
               (decide (name ∈ n :: l)) as [H2|H2]; set_solver.
Qed.

Lemma totals_init_lookup props name :
  totals_init props !! name
  = if decide (name ∈ FIELD_NAMES) then (λ _, 0%Q) <$> props !! name else None.
Proof.
  unfold totals_init. rewrite zeros_lookup.
  pose proof (totals_names_elem props name) as Hel.
  destruct (decide (name ∈ totals_names props)) as [Hin|Hnin];
    destruct (decide (name ∈ FIELD_NAMES)) as [Hf|Hnf].
  - destruct (proj1 Hel Hin) as [_ [v ->]]. done.
  - tauto.
  - destruct (props !! name) eqn:Hp; [|done]. exfalso. naive_solver.
  - done.
Qed.

(** The loop of lines 117-119 over any list of names the feature has. *)
Lemma weigh_loop props (fraction : pyval) (w : Q) (l : list string) totals :
  as_num fraction = Some w →
  (∀ name, name ∈ l → ∃ v, props !! name = Some v
                            ∧ is_Some (as_num (py_or_zero v))) →
  ∃ totals',
    foldM (E := logged G) (λ totals name,
             value ← lift (getitem props name);
             precinct_value ← lift (py_mul fraction (py_or_zero value));
             mret (<[name := py_round ROUND_COUNT precinct_value]> totals))
          totals l = ([], Ok totals')
    ∧ ∀ name, totals' !! name
              = if decide (name ∈ l)
                then (λ v, py_round ROUND_COUNT (w * attr_value v)) <$> props !! name
                else totals !! name.
Proof.
  intros Hw. revert totals. induction l as [|n l IH]; intros totals Hl.
  - exists totals. split; [done|]. intros name. case_decide; [set_solver|done].
  - destruct (Hl n) as (v & Hv & y & Hy); [by left|].
    destruct (IH (<[n := py_round ROUND_COUNT (w * y)]> totals)) as (t' & Hrun & Hlook).
    { intros; apply Hl. by right. }
    exists t'. split.
    + assert (Hg : getitem props n = Ok v) by (unfold getitem; by rewrite Hv).
      assert (Hm : py_mul fraction (py_or_zero v) = Ok (w * y)%Q)
        by (unfold py_mul; by rewrite Hw, Hy).
      rewrite foldM_cons, Hg, bind_lift_ok, Hm, bind_lift_ok, bind_ret.
      exact Hrun.
    + intros name. rewrite Hlook.
      destruct (decide (name = n)) as [->|Hne].
      * rewrite Hv. simpl. rewrite (as_num_or_zero _ _ Hy).
        repeat case_decide; try set_solver.
        by rewrite lookup_insert_eq.
      * rewrite lookup_insert_ne by done.
        repeat case_decide; set_solver.
Qed.

(** With a numeric weight and numeric attributes the loop succeeds, makes
    no call, and every listed attribute gets its rounded share. *)
Lemma weigh_totals_ok props (fraction : pyval) (w : Q) :
  as_num fraction = Some w → numeric_fields props →
  ∃ totals, weigh_totals props fraction (totals_init props) = ([], Ok totals)
            ∧ ∀ name, totals !! name = share w props name.
Proof.
  intros Hw Hnum. unfold weigh_totals.
  destruct (weigh_loop props fraction w (remove_dups (totals_names props))
              (totals_init props) Hw) as (t' & Hrun & Hlook).
  { intros name Hin. rewrite elem_of_remove_dups, totals_names_elem in Hin.
    destruct Hin as [Hf [v Hv]]. exists v. split; [done|]. by eapply Hnum. }
  exists t'. split; [done|]. intros name. rewrite Hlook, totals_init_lookup.
  unfold share. pose proof (totals_names_elem props name) as Hel.
  rewrite <- (elem_of_remove_dups (totals_names props)) in Hel.
  repeat case_decide; try done.
  - tauto.
  - destruct (props !! name) eqn:Hp; [|done]. exfalso. naive_solver.
Qed.

(** The loop never changes the set of names. *)
Lemma weigh_totals_dom props (fraction : pyval) totals tr totals' :
  (∀ name, name ∈ totals_names props → is_Some (totals !! name)) →
  weigh_totals props fraction totals = (tr, Ok totals') →
  ∀ name, is_Some (totals' !! name) ↔ is_Some (totals !! name).
Proof.
  unfold weigh_totals.
  assert (Hsub : ∀ n, n ∈ remove_dups (totals_names props) → n ∈ totals_names props)
    by (intros n; by rewrite elem_of_remove_dups).
  revert Hsub. generalize (remove_dups (totals_names props)) as l.
  intros l. revert totals tr. induction l as [|n l IH]; intros totals tr Hsub Hin Hrun name.
  - rewrite foldM_nil in Hrun. by inversion Hrun.
  - rewrite foldM_cons in Hrun.
    destruct (getitem props n) as [v|e]; [|done].
    rewrite bind_lift_ok in Hrun.
    destruct (py_mul fraction (py_or_zero v)) as [pv|e]; [|done].
    rewrite bind_lift_ok, bind_ret in Hrun.
    assert (Hin' : ∀ n', n' ∈ totals_names props →
                         is_Some (<[n := py_round ROUND_COUNT pv]> totals !! n')).
    { intros n' Hn'. destruct (decide (n' = n)) as [->|Hne].
      - rewrite lookup_insert_eq. by eauto.
      - rewrite lookup_insert_ne by done. by apply Hin. }
    rewrite (IH _ _ (λ n' Hn', Hsub n' (list_elem_of_further _ _ _ Hn')) Hin' Hrun).
    destruct (decide (name = n)) as [->|Hne].
    + rewrite lookup_insert_eq. split; [intros _|by eauto].
      apply Hin, Hsub. by left.
    + by rewrite lookup_insert_ne.
Qed.

(** Weights that are equal as rationals give the same totals. *)
Lemma weigh_totals_proper props (a b : pyval) (x y : Q) totals :
  as_num a = Some x → as_num b = Some y → (x == y)%Q →
  weigh_totals props a totals = weigh_totals props b totals.
Proof.
  intros Ha Hb Hxy. unfold weigh_totals. apply foldM_ext_in.
  intros t name _. destruct (getitem props name) as [v|e]; [|done].
  rewrite !bind_lift_ok. unfold py_mul. rewrite Ha, Hb.
  destruct (as_num (py_or_zero v)) as [z|]; [|done].
  rewrite !bind_lift_ok. do 2 f_equal. apply py_round_proper. by rewrite Hxy.
Qed.

Lemma weigh_totals_no_calls props (fraction : pyval) totals :
  fst (weigh_totals props fraction totals) = [].
Proof.
  unfold weigh_totals. apply foldM_no_calls. intros t name.
  destruct (getitem props name) as [v|e]; [|done]. rewrite bind_lift_ok.
  destruct (py_mul fraction (py_or_zero v)) as [pv|e]; [|done].
  by rewrite bind_lift_ok.
Qed.

(** The loop raises no [KeyError]: the names it visits are on the feature. *)
Lemma weigh_totals_no_key_error props (fraction : pyval) totals key :
  snd (weigh_totals props fraction totals) ≠ Raise (KeyError key).
Proof.
  unfold weigh_totals.
  assert (Hsub : ∀ n, n ∈ remove_dups (totals_names props) → is_Some (props !! n)).
  { intros n. rewrite elem_of_remove_dups, totals_names_elem. tauto. }
  revert Hsub. generalize (remove_dups (totals_names props)) as l.
  intros l. revert totals. induction l as [|n l IH]; intros totals Hsub; [done|].
  rewrite foldM_cons. destruct (Hsub n) as [v Hv]; [by left|].
  assert (Hg : getitem props n = Ok v) by (unfold getitem; by rewrite Hv).
  rewrite Hg, bind_lift_ok.
  destruct (py_mul fraction (py_or_zero v)) as [pv|e] eqn:Hm.
  - rewrite bind_lift_ok, bind_ret. apply IH. intros; apply Hsub. by right.
  - rewrite bind_lift_raise. unfold py_mul in Hm.
    destruct (as_num fraction), (as_num (py_or_zero v)); by inversion Hm.
Qed.
End TotalsFacts.

(** ** score_precinct *)

Section ScorePrecinctFacts.
Context {G : Type} `{!OGR G} `{!Env G}.
Implicit Types (feat : Feature G) (pd : option G) (tile g d : G).

Lemma totals_init_keys (props : gmap string pyval) name :
  is_Some (totals_init props !! name)
  ↔ name ∈ FIELD_NAMES ∧ is_Some (props !! name).
Proof.
  rewrite totals_init_lookup. case_decide as Hf.
  - rewrite fmap_is_Some. tauto.
  - rewrite is_Some_alt. tauto.
Qed.

Lemma totals_init_has_names (props : gmap string pyval) name :
  name ∈ totals_names props → is_Some (totals_init props !! name).
Proof. rewrite totals_init_keys, totals_names_elem. tauto. Qed.

(** The end of [score_precinct], from the fraction on: lines 117-121 or
    the early return of line 112. *)
Lemma finish_keys (props : gmap string pyval)
    (m : M (logged G) (option pyval)) tr totals name :
  (fraction ← m;
   match fraction with
   | None => mret (totals_init props)
   | Some precinct_fraction =>
       weigh_totals props precinct_fraction (totals_init props)
   end) = (tr, Ok totals) →
  is_Some (totals !! name) ↔ name ∈ FIELD_NAMES ∧ is_Some (props !! name).
Proof.
  intros (t1 & [pf|] & t2 & _ & Hk & _)%bind_ok_inv.
  - rewrite (weigh_totals_dom _ _ _ _ _ (totals_init_has_names props) Hk).
    apply totals_init_keys.
  - injection Hk as _ <-. apply totals_init_keys.
Qed.

(** C9.  Whatever path [score_precinct] returns by, the names of its
    totals are exactly the names of [score.FIELD_NAMES] that the feature
    has among its properties, so that no other property of the feature
    ever shows up; and on the early returns (no precinct geometry, no
    district geometry, stored fraction zero) it makes no call and reports
    a zero for each of those names. *)
Theorem score_precinct_key_set pd feat tile :
  (∀ tr totals, score_precinct pd feat tile = (tr, Ok totals) →
     ∀ name, is_Some (totals !! name)
             ↔ name ∈ FIELD_NAMES ∧ is_Some (properties feat !! name))
  ∧ (returns_early pd feat →
     score_precinct pd feat tile = ([], Ok (totals_init (properties feat)))
     ∧ ∀ name, name ∈ FIELD_NAMES → is_Some (properties feat !! name) →
               totals_init (properties feat) !! name = Some 0%Q).
Proof.
  split.
  - intros tr totals Hrun name. unfold score_precinct in Hrun.
    destruct (geometry feat) as [g|], pd as [d|];
      try (injection Hrun as _ <-; apply totals_init_keys).
    destruct (IsEmpty g); [injection Hrun as _ <-; apply totals_init_keys|].
    destruct (IsEmpty d); [injection Hrun as _ <-; apply totals_init_keys|].
    apply bind_ok_inv in Hrun as (t1 & [is_point frac] & t2 & _ & Hk & _).
    destruct (py_eq_zero frac); [injection Hk as _ <-; apply totals_init_keys|].
    by eapply finish_keys.
  - intros Hearly. split.
    + unfold returns_early in Hearly. unfold score_precinct.
      destruct (geometry feat) as [g|], pd as [d|]; try done.
      destruct Hearly as [-> | [Hd | (Hpt & frac & Hfrac & Hz)]]; [done| |].
      * rewrite Hd. by destruct (IsEmpty g).
      * destruct (IsEmpty g); [done|]. destruct (IsEmpty d); [done|].
        rewrite Hpt. unfold getitem. rewrite Hfrac, bind_lift_ok, bind_ret.
        by rewrite Hz.
    + intros name Hf [v Hv]. rewrite totals_init_lookup.
      rewrite decide_True by done. by rewrite Hv.
Qed.

(** C10.  A precinct feature with a non-empty geometry that is no point,
    scored against a non-empty district geometry, must carry the
    'PlanScore:Fraction' property: without it the lookup raises
    [KeyError] and nothing is defaulted.  A point or multipoint feature
    never ends in a [KeyError], with or without the property. *)
Theorem score_precinct_requires_fraction feat g d tile :
  geometry feat = Some g → IsEmpty g = false → IsEmpty d = false →
  (is_point_type (GetGeometryType g) = false →
   properties feat !! FRACTION_FIELD = None →
   score_precinct (Some d) feat tile = ([], Raise (KeyError FRACTION_FIELD)))
  ∧ (is_point_type (GetGeometryType g) = true →
     ∀ key, snd (score_precinct (Some d) feat tile) ≠ Raise (KeyError key)).
Proof.
  intros Hg Hge Hde. unfold score_precinct. rewrite Hg, Hge, Hde. split.
  - intros -> Hnone. unfold getitem. by rewrite Hnone.
  - intros -> key. rewrite bind_ret. cbn [py_eq_zero as_num].
    replace (Qeq_bool 1 0) with false by done.
    destruct (Within tile d); rewrite bind_ret.
    + apply weigh_totals_no_key_error.
    + destruct (Within g d); apply weigh_totals_no_key_error.
Qed.
End ScorePrecinctFacts.

Section ScorePrecinctPaths.
Context {G : Type} `{!OGR G} `{!Env G}.
Implicit Types (feat : Feature G) (tile g d : G).

Lemma share_zero (props : gmap string pyval) name :
  share 0 props name
  = if decide (name ∈ FIELD_NAMES) then (λ _, 0%Q) <$> props !! name else None.
Proof.
  unfold share. case_decide as Hf; [|done].
  destruct (props !! name) as [v|]; [|done].
  change (Some (py_round ROUND_COUNT (0 * attr_value v)) = Some 0%Q).
  f_equal; apply py_round_zero; ring.
Qed.

Lemma share_proper (w w' : Q) (props : gmap string pyval) name :
  (w == w')%Q → share w props name = share w' props name.
Proof.
  intros Hw. unfold share. case_decide as Hf; [|done].
  destruct (props !! name) as [v|]; [|done].
  change (Some (py_round ROUND_COUNT (w * attr_value v))
          = Some (py_round ROUND_COUNT (w' * attr_value v))).
  f_equal; apply py_round_proper; by rewrite Hw.
Qed.

Lemma totals_names_agree (props props' : gmap string pyval) :
  (∀ name, name ∈ FIELD_NAMES → props' !! name = props !! name) →
  totals_names props' = totals_names props.
Proof.
  unfold totals_names. induction FIELD_NAMES as [|n l IH]; intros Hagree; [done|].
  rewrite !filter_cons, (Hagree n) by left.
  rewrite IH; [done|]. intros; apply Hagree. by right.
Qed.

Lemma weigh_totals_agree (props props' : gmap string pyval) fraction totals :
  (∀ name, name ∈ FIELD_NAMES → props' !! name = props !! name) →
  weigh_totals props' fraction totals = weigh_totals props fraction totals.
Proof.
  intros Hagree. unfold weigh_totals. rewrite (totals_names_agree _ _ Hagree).
  apply foldM_ext_in. intros t name Hin.
  rewrite elem_of_remove_dups, totals_names_elem in Hin.
  unfold getitem. by rewrite Hagree by tauto.
Qed.

(** C5, as amended.  A point or multipoint feature is weighed by 1, all
    or nothing:
    for a point of the tile's partition (one that lies within its tile),
    every listed attribute contributes its value, rounded, when the point
    is within the district geometry and 0 when it is not; no geometry is
    built.  The property 'PlanScore:Fraction' is not consulted: features
    that differ only in it score alike. *)
Theorem score_precinct_point `{!OGRLaws G} feat g d tile :
  geometry feat = Some g → IsEmpty g = false → IsEmpty d = false →
  is_point_type (GetGeometryType g) = true →
  Within g tile = true →
  numeric_fields (properties feat) →
  (∃ totals,
     score_precinct (Some d) feat tile = ([], Ok totals)
     ∧ ∀ name,
         totals !! name
         = if decide (name ∈ FIELD_NAMES)
           then (λ v, if Within g d
                      then py_round ROUND_COUNT (attr_value v) else 0%Q)
                <$> properties feat !! name
           else None)
  ∧ (FRACTION_FIELD ∉ FIELD_NAMES →
     ∀ feat',
       geometry feat' = geometry feat →
       (∀ name, name ≠ FRACTION_FIELD →
                properties feat' !! name = properties feat !! name) →
       score_precinct (Some d) feat' tile = score_precinct (Some d) feat tile).
Proof.
  intros Hg Hge Hde Hpt Hclip Hnum. split.
  - unfold score_precinct. rewrite Hg, Hge, Hde, Hpt, bind_ret.
    cbn [py_eq_zero as_num]. replace (Qeq_bool 1 0) with false by done.
    destruct (Within tile d) eqn:Htile.
    + rewrite bind_ret, (Within_trans _ _ _ Hclip Htile).
      destruct (weigh_totals_ok (properties feat) (PNum 1) 1 eq_refl Hnum)
        as (totals & Hrun & Hlook).
      exists totals. split; [done|]. intros name. rewrite Hlook. unfold share.
      case_decide; [|done]. destruct (properties feat !! name) as [v|]; [|done].
      change (Some (py_round ROUND_COUNT (1 * attr_value v))
              = Some (py_round ROUND_COUNT (attr_value v))).
      f_equal; apply py_round_proper; ring.
    + destruct (Within g d); rewrite bind_ret.
      * destruct (weigh_totals_ok (properties feat) (PNum 1) 1 eq_refl Hnum)
          as (totals & Hrun & Hlook).
        exists totals. split; [done|]. intros name. rewrite Hlook. unfold share.
        case_decide; [|done]. destruct (properties feat !! name) as [v|]; [|done].
        change (Some (py_round ROUND_COUNT (1 * attr_value v))
                = Some (py_round ROUND_COUNT (attr_value v))).
        f_equal; apply py_round_proper; ring.
      * destruct (weigh_totals_ok (properties feat) (PNum 0) 0 eq_refl Hnum)
          as (totals & Hrun & Hlook).
        exists totals. split; [done|]. intros name.
        by rewrite Hlook, share_zero.
  - intros Hfrac feat' Hg' Hprops.
    assert (Hagree : ∀ name, name ∈ FIELD_NAMES →
                             properties feat' !! name = properties feat !! name).
    { intros name Hin. apply Hprops. by intros ->. }
    unfold score_precinct, totals_init.
    rewrite Hg', Hg, Hge, Hde, Hpt, !bind_ret, (totals_names_agree _ _ Hagree).
    destruct (py_eq_zero (PNum 1)); [done|].
    destruct (Within tile d); [|destruct (Within g d)];
      by rewrite !bind_ret, (weigh_totals_agree _ _ _ _ Hagree).
Qed.

(** The overlap computation when OGR answers at once. *)
Lemma overlap_with_repair_ok g d (ov : option G) :
  Intersection g d = Ok ov →
  overlap_with_repair g d = ([OgrIntersection g d], Ok (g, ov)).
Proof.
  intros Hi. unfold overlap_with_repair, ogr_Intersection, call.
  by rewrite Hi, bind_ok.
Qed.

(** C2.  A precinct with an area geometry and a stored fraction [w]
    other than 0, in a tile that does not lie within the district
    geometry, has its overlap with the district computed; it then
    contributes, for every listed attribute, [w] times the overlap's
    share of the precinct's area times the attribute's value, rounded;
    and all zeros, without any division, when the precinct's area is 0. *)
Theorem score_precinct_area feat g d tile (frac : pyval) (w : Q) (ov : G) :
  geometry feat = Some g → IsEmpty g = false → IsEmpty d = false →
  is_point_type (GetGeometryType g) = false →
  properties feat !! FRACTION_FIELD = Some frac →
  as_num frac = Some w → ¬ (w == 0)%Q →
  Within tile d = false →
  Intersection g d = Ok (Some ov) →
  numeric_fields (properties feat) →
  ∃ totals,
    score_precinct (Some d) feat tile = ([OgrIntersection g d], Ok totals)
    ∧ ((Area g == 0)%Q →
       ∀ name, totals !! name
               = if decide (name ∈ FIELD_NAMES)
                 then (λ _, 0%Q) <$> properties feat !! name else None)
    ∧ (¬ (Area g == 0)%Q →
       ∀ name, totals !! name
               = share (w * (Area ov / Area g)) (properties feat) name).
Proof.
  intros Hg Hge Hde Hpt Hfrac Hw Hnz Htile Hov Hnum.
  unfold score_precinct. rewrite Hg, Hge, Hde, Hpt.
  unfold getitem. rewrite Hfrac, bind_lift_ok, bind_ret.
  unfold py_eq_zero. rewrite Hw.
  destruct (Qeq_bool w 0) eqn:Hz; [by apply Qeq_bool_eq in Hz|].
  rewrite Htile, (overlap_with_repair_ok _ _ _ Hov).
  destruct (Qeq_bool (Area g) 0) eqn:Harea.
  - exists (totals_init (properties feat)). split; [|split].
    + unfold mbind, M_bind, bind. by rewrite Harea.
    + intros _ name. apply totals_init_lookup.
    + intros Hne. by apply Qeq_bool_eq in Harea.
  - assert (Hm : py_mul (PNum (Area ov / Area g)) frac
                 = Ok (Area ov / Area g * w)%Q) by (unfold py_mul; by rewrite Hw).
    destruct (weigh_totals_ok (properties feat)
                (PNum (Area ov / Area g * w)) _ eq_refl Hnum)
      as (totals & Hrun & Hlook).
    exists totals. split; [|split].
    + unfold mbind, M_bind, bind. rewrite Harea, Hm. cbn. by rewrite Hrun.
    + intros Hzero. by apply Qeq_bool_neq in Harea.
    + intros _ name. rewrite Hlook. apply share_proper. ring.
Qed.

(** The overlap computation when OGR raises a topology error on an
    invalid geometry: buffer, then a second and last attempt. *)
Lemma overlap_with_repair_retry g d g' msg :
  Intersection g d = Raise (RuntimeError msg) →
  str_contains "TopologyException" msg = true → IsValid g = false →
  Buffer g (1 # 10000000) = Some g' →
  overlap_with_repair g d
  = ([OgrIntersection g d; OgrBuffer g (1 # 10000000); OgrIntersection g' d],
     match Intersection g' d with
     | Ok ov => Ok (g', ov)
     | Raise e' => Raise e'
     end).
Proof.
  intros Hraise Htopo Hinv Hbuf.
  unfold overlap_with_repair, ogr_Intersection, ogr_Buffer, call.
  rewrite Hraise, bind_raise. cbn [try_except]. rewrite Htopo, Hinv, Hbuf.
  cbn [negb andb]. rewrite bind_ok. cbn [fst snd].
  by destruct (Intersection g' d).
Qed.

(** The overlap computation when OGR raises what line 103 does not repair. *)
Lemma overlap_with_repair_raise g d e :
  Intersection g d = Raise e →
  is_topology_error e = false ∨ IsValid g = true →
  overlap_with_repair g d = ([OgrIntersection g d], Raise e).
Proof.
  intros Hraise Hnot.
  unfold overlap_with_repair, ogr_Intersection, call.
  rewrite Hraise, bind_raise. cbn [try_except].
  destruct e as [| | | |msg| |]; try done.
  cbn [is_topology_error] in Hnot.
  destruct (str_contains "TopologyException" msg); [|done].
  destruct Hnot as [Hnot | ->]; done.
Qed.

(** After the overlap, lines 110-119 make no further call. *)
Lemma area_tail_no_calls (frac : pyval) (m : M (logged G) (G * option G)) :
  fst ('(precinct_geom, overlap_geom) ← m;
       if Qeq_bool (Area precinct_geom) 0 then mret None
       else
         match overlap_geom with
         | None => raise AttributeError
         | Some overlap_geom =>
             let overlap_area := (Area overlap_geom / Area precinct_geom)%Q in
             f ← lift (py_mul (PNum overlap_area) frac);
             mret (Some (PNum f))
         end) = fst m.
Proof.
  apply fst_bind. intros [pg [ov| ] ]; destruct (Qeq_bool (Area pg) 0); try done.
  cbv zeta. destruct (py_mul (PNum (Area ov / Area pg)) frac); [by rewrite bind_lift_ok|done].
Qed.

Lemma finish_no_calls (props : gmap string pyval) (totals : gmap string Q)
    (m : M (logged G) (option pyval)) :
  fst (fraction ← m;
       match fraction with
       | None => mret totals
       | Some precinct_fraction => weigh_totals props precinct_fraction totals
       end) = fst m.
Proof. apply fst_bind. intros [pf|]; [apply weigh_totals_no_calls|done]. Qed.

(** C6.  When the intersection of precinct and district raises: a
    topology error on an invalid precinct geometry is met by buffering the
    precinct by 1e-7 and intersecting once more, and whatever that second
    attempt raises is let through; any other error, or a topology error
    on a valid geometry, leaves [score_precinct] as it came, after the one
    attempt. *)
Theorem score_precinct_topology_repair feat g d tile (frac : pyval) (e : exn) :
  geometry feat = Some g → IsEmpty g = false → IsEmpty d = false →
  is_point_type (GetGeometryType g) = false →
  properties feat !! FRACTION_FIELD = Some frac → py_eq_zero frac = false →
  Within tile d = false →
  Intersection g d = Raise e →
  (is_topology_error e = true → IsValid g = false →
   ∀ g', Buffer g (1 # 10000000) = Some g' →
     fst (score_precinct (Some d) feat tile)
     = [OgrIntersection g d; OgrBuffer g (1 # 10000000); OgrIntersection g' d]
     ∧ ∀ e', Intersection g' d = Raise e' →
             snd (score_precinct (Some d) feat tile) = Raise e')
  ∧ (is_topology_error e = false ∨ IsValid g = true →
     score_precinct (Some d) feat tile = ([OgrIntersection g d], Raise e)).
Proof.
  intros Hg Hge Hde Hpt Hfrac Hnz Htile Hraise.
  unfold score_precinct. rewrite Hg, Hge, Hde, Hpt.
  unfold getitem. rewrite Hfrac, bind_lift_ok, bind_ret, Hnz, Htile. split.
  - intros Htopo Hinv g' Hbuf. destruct e as [| | | |msg| |]; try done.
    cbn [is_topology_error] in Htopo.
    rewrite (overlap_with_repair_retry _ _ _ _ Hraise Htopo Hinv Hbuf). split.
    + by rewrite finish_no_calls, area_tail_no_calls.
    + intros e' ->. by do 2 apply snd_bind_raise.
  - intros Hnot. by rewrite (overlap_with_repair_raise _ _ _ Hraise Hnot).
Qed.

(** A precinct within its tile, the tile within the district geometry:
    the precinct lies wholly in the district geometry. *)
Lemma clipped_covered `{!OGRLaws G} g d tile :
  Within g tile = true → Within tile d = true → covered_by g d.
Proof.
  intros Hclip Htile. pose proof (Within_trans _ _ _ Hclip Htile) as Hin.
  unfold covered_by. destruct (is_point_type (GetGeometryType g)) eqn:Hpt; [done|].
  by apply Within_overlap.
Qed.

(** C1, as amended.  When the tile lies within the district geometry and
    the precinct, clipped to the tile, lies within the tile, a precinct
    that is a point, or that has an area other than 0 and a numeric stored
    fraction, gets from [score_precinct] exactly what the explicit
    computation gives, without a single geometry being built. *)
Theorem containment_shortcut `{!OGRLaws G} feat g d tile :
  geometry feat = Some g →
  Within tile d = true →
  Within g tile = true →
  (is_point_type (GetGeometryType g) = false → ¬ (Area g == 0)%Q) →
  (∀ frac, properties feat !! FRACTION_FIELD = Some frac → is_Some (as_num frac)) →
  fst (score_precinct (Some d) feat tile) = []
  ∧ snd (score_precinct (Some d) feat tile)
    = snd (score_precinct_explicit (Some d) feat).
Proof.
  intros Hg Htile Hclip Harea Hnumfrac.
  pose proof (clipped_covered _ _ _ Hclip Htile) as Hcov.
  unfold score_precinct, score_precinct_explicit, covered_by in *. rewrite Hg.
  destruct (IsEmpty g); [done|]. destruct (IsEmpty d); [done|]. cbn [orb].
  destruct (is_point_type (GetGeometryType g)) eqn:Hpt.
  - rewrite bind_ret, Hcov, Htile. cbn [py_eq_zero as_num].
    replace (Qeq_bool 1 0) with false by done. rewrite bind_ret.
    split; [apply weigh_totals_no_calls|done].
  - destruct Hcov as (ov & Hov & Hfull). specialize (Harea eq_refl).
    unfold getitem.
    destruct (properties feat !! FRACTION_FIELD) as [frac|] eqn:Hfrac; [|done].
    destruct (Hnumfrac frac eq_refl) as [w Hw].
    rewrite !bind_lift_ok, bind_ret.
    destruct (py_eq_zero frac); [done|]. rewrite Htile, bind_ret.
    split; [apply weigh_totals_no_calls|].
    rewrite (overlap_with_repair_ok _ _ _ Hov), bind_ok. cbn [fst snd].
    destruct (Qeq_bool (Area g) 0) eqn:Hz; [by apply Qeq_bool_eq in Hz|].
    assert (Hm : py_mul (PNum (Area ov / Area g)) frac
                 = Ok (Area ov / Area g * w)%Q) by (unfold py_mul; by rewrite Hw).
    rewrite Hm, bind_lift_ok.
    rewrite (weigh_totals_proper _ frac (PNum (Area ov / Area g * w))
               w (Area ov / Area g * w)%Q _ Hw eq_refl).
    + by destruct (weigh_totals _ _ _).
    + rewrite Hfull. unfold Qdiv. rewrite Qmult_inv_r by done. ring.
Qed.
End ScorePrecinctPaths.

(** ** score_district *)

Section ScoreDistrictFacts.
Context {G : Type} `{!OGR G} `{!Env G}.
Implicit Types (tile d : G) (precincts : list (Feature G)).

Lemma add_subtotals_lookup (totals subtotals : gmap string Q) name :
  add_subtotals totals subtotals !! name
  = match subtotals !! name with
    | Some value =>
        Some (py_round ROUND_COUNT (value + default 0%Q (totals !! name)))
    | None => totals !! name
    end.
Proof.
  unfold add_subtotals. rewrite lookup_union, map_lookup_imap.
  destruct (subtotals !! name) as [value|]; cbn [mbind option_bind].
  - by destruct (totals !! name).
  - by destruct (totals !! name).
Qed.

(** The loop of lines 56-59 when every precinct is scored without error. *)
Lemma score_district_loop (partial : option G) tile precincts
    (outs : list (list (logged G) * gmap string Q)) (acc : gmap string Q) :
  Forall2 (λ p o, score_precinct partial p tile = (o.1, Ok o.2)) precincts outs →
  foldM (λ totals precinct_feat,
           subtotals ← score_precinct partial precinct_feat tile;
           mret (add_subtotals totals subtotals))
        acc precincts
  = (concat outs.*1, Ok (foldl add_subtotals acc outs.*2)).
Proof.
  intros Hall. revert acc. induction Hall as [|p [t sub] ps os Hp _ IH]; intros acc.
  - done.
  - rewrite foldM_cons. cbn [fst snd] in Hp. rewrite Hp, bind_ok.
    cbn [fst snd mret M_ret ret]. rewrite bind_ok, IH.
    cbn [fst snd]. by rewrite app_nil_r.
Qed.

(** C3.  [score_district] returns empty totals, and builds no geometry,
    when district and tile are disjoint.  Otherwise it intersects the
    district with the tile once, hands that one partial geometry to
    [score_precinct] for each precinct in turn, and folds the subtotals
    into the totals, each name's sum rounded as it is added. *)
Theorem score_district_spec d precincts tile :
  (Disjoint d tile = true → score_district d precincts tile = ([], Ok ∅))
  ∧ (Disjoint d tile = false →
     ∀ (partial : option G) (outs : list (list (logged G) * gmap string Q)),
       Intersection d tile = Ok partial →
       Forall2 (λ p o, score_precinct partial p tile = (o.1, Ok o.2))
               precincts outs →
       score_district d precincts tile
       = (OgrIntersection d tile :: concat outs.*1,
          Ok (foldl add_subtotals ∅ outs.*2)))
  ∧ (∀ (totals subtotals : gmap string Q) name,
       add_subtotals totals subtotals !! name
       = match subtotals !! name with
         | Some value =>
             Some (py_round ROUND_COUNT (value + default 0%Q (totals !! name)))
         | None => totals !! name
         end).
Proof.
  split; [|split].
  - intros Hdis. unfold score_district. by rewrite Hdis.
  - intros Hdis partial outs Hint Hall. unfold score_district, ogr_Intersection, call.
    rewrite Hdis, Hint, bind_ok. by rewrite (score_district_loop _ _ _ _ _ Hall).
  - apply add_subtotals_lookup.
Qed.
End ScoreDistrictFacts.

(** ** load_tile_precincts and lambda_handler *)

Section HandlerFacts.
Context {G : Type} `{!OGR G} `{!Env G}.

(** C4.  [load_tile_precincts] asks S3 for the tile's object once.  A
    [ClientError] with code [NoSuchKey] gives the empty list; every other
    exception of the request is raised again; and an answer whose body
    decodes to a GeoJSON object gives the list under its 'features'. *)
Theorem load_tile_precincts_spec (s3 : S3Client) (storage : Storage)
    (tile_zxy : string) :
  let key := storage_prefix storage +:+ "/" +:+ tile_zxy +:+ ".geojson" in
  let request := S3GetObject (G := G) (storage_bucket storage) key in
  (get_object s3 (storage_bucket storage) key = Raise (ClientError "NoSuchKey") →
   load_tile_precincts s3 storage tile_zxy = ([request], Ok []))
  ∧ (∀ e, get_object s3 (storage_bucket storage) key = Raise e →
          e ≠ ClientError "NoSuchKey" →
          load_tile_precincts s3 storage tile_zxy = ([request], Raise e))
  ∧ (∀ object body geojson features,
       get_object s3 (storage_bucket storage) key = Ok object →
       (if bool_decide (ContentEncoding object = Some "gzip")
        then gzip_decompress (Body object) else Ok (Body object)) = Ok body →
       json_load body = Ok geojson →
       geojson !! "features" = Some features →
       load_tile_precincts s3 storage tile_zxy = ([request], Ok features)).
Proof.
  intros key request. unfold load_tile_precincts, call. fold key.
  split; [|split].
  - intros ->. done.
  - intros e -> Hne. rewrite bind_raise. cbn [try_except].
    destruct e as [| | | | |code|]; try done.
    destruct (String.eqb code "NoSuchKey") eqn:Hcode; [|done].
    apply String.eqb_eq in Hcode. by subst.
  - intros object body geojson features -> Hbody Hjson Hfeat.
    rewrite bind_ok. cbn [try_except mret M_ret ret fst snd]. rewrite bind_ok.
    cbn [fst snd]. unfold getitem.
    destruct (bool_decide (ContentEncoding object = Some "gzip")).
    + by rewrite Hbody, bind_lift_ok, Hjson, bind_lift_ok, Hfeat.
    + injection Hbody as ->. by rewrite bind_ret, Hjson, bind_lift_ok, Hfeat.
Qed.

(** C8, as amended.  Once the tile's precincts are loaded, an exception
    raised while the district geometries are listed, loaded or scored
    does not leave [lambda_handler]: the handler goes on to write the
    result object, with the text of the exception as its 'totals', and
    ends as that write ends. *)
Theorem lambda_handler_records_error (s3 : S3Client) (event : Event)
    (t1 t2 : list (logged G)) (tile_zxy : string)
    (precincts : list (Feature G)) (err : exn) :
  let storage := event_storage event in
  let upload := event_upload event in
  let tile_key := UPLOAD_TILES_KEY (upload_id upload) tile_zxy in
  let geoms_prefix := UPLOAD_GEOMETRIES_DIR (upload_id upload) in
  let body := {| body_event := event; body_tile_key := tile_key;
                 body_geoms_prefix := geoms_prefix;
                 body_totals := TotalsStr err;
                 body_precinct_count := length precincts |} in
  lambda_handler_load s3 storage upload event = (t1, Ok (tile_zxy, precincts)) →
  lambda_handler_score s3 storage geoms_prefix tile_zxy precincts
    = (t2, Raise err) →
  lambda_handler s3 event
  = (t1 ++ t2 ++ [S3PutObject (storage_bucket storage) tile_key body],
     put_object s3 (storage_bucket storage) tile_key body).
Proof.
  intros storage upload tile_key geoms_prefix body Hload Hscore.
  unfold lambda_handler. fold storage upload. rewrite Hload.
  cbn [try_except]. rewrite bind_ok. cbn [fst snd]. fold geoms_prefix tile_key.
  rewrite Hscore, bind_raise. cbn [try_except mret M_ret ret].
  rewrite app_nil_r, bind_ok. cbn [fst snd call]. by fold body.
Qed.
End HandlerFacts.

(** ** iter_extent_tiles *)

Section PrepareStateFacts.
Context `{!Projection}.

Lemma py_range_elem (a b k : Z) : k ∈ py_range a b ↔ (a ≤ k < b)%Z.
Proof. unfold py_range. rewrite elem_of_seqZ. lia. Qed.

Lemma seqZ_sorted (m n : Z) : StronglySorted Z.lt (seqZ m n).
Proof.
  remember (Z.to_nat n) as k eqn:Hk. revert m n Hk.
  induction k as [|k IH]; intros m n Hk.
  - rewrite seqZ_nil by lia. constructor.
  - rewrite seqZ_cons by lia. constructor.
    + apply IH. lia.
    + apply Forall_seqZ. lia.
Qed.

Lemma product_cons {A B} (r : A) (rows : list A) (columns : list B) :
  product (r :: rows) columns = (pair r <$> columns) ++ product rows columns.
Proof.
  assert (Hrow : (columns ≫= λ c, [(r, c)]) = pair r <$> columns).
  { induction columns as [|c cs IH]; [done|]. cbn. by f_equal. }
  unfold product. cbn [mbind list_bind]. by rewrite <- Hrow.
Qed.

Lemma product_elem {A B} (rows : list A) (columns : list B) (r : A) (c : B) :
  (r, c) ∈ product rows columns ↔ r ∈ rows ∧ c ∈ columns.
Proof.
  unfold product. rewrite list_elem_of_bind. split.
  - intros (r' & Hin & Hr). apply list_elem_of_bind in Hin as (c' & Hin & Hc).
    apply list_elem_of_singleton in Hin as [= -> ->]. done.
  - intros [Hr Hc]. exists r. split; [|done].
    apply list_elem_of_bind. exists c. split; [|done]. by left.
Qed.

Lemma product_sorted (rows columns : list Z) :
  StronglySorted Z.lt rows → StronglySorted Z.lt columns →
  StronglySorted pair_lt (product rows columns).
Proof.
  intros Hrows Hcols. induction Hrows as [|r rows Hrows IH Hr]; [constructor|].
  rewrite product_cons. apply StronglySorted_app. split; [|split].
  - intros [r1 c1] [r2 c2] Hin1 Hin2.
    apply list_elem_of_fmap in Hin1 as (c & [= -> ->] & _).
    apply product_elem in Hin2 as [Hin2 _].
    rewrite Forall_forall in Hr. left. by apply Hr.
  - eapply StronglySorted_fmap; [|exact Hcols]. intros c1 c2 Hlt. by right.
  - exact IH.
Qed.

(** C7.  For an extent and a zoom level, [iter_extent_tiles] yields the
    tiles of that zoom whose row and column lie between those of the
    extent's corner tiles, each with the box that its own corners
    project to, in row-major order: rows ascending, and columns ascending
    within a row; so no tile comes twice, and the list is the same
    every time. *)
Theorem iter_extent_tiles_row_major (xxyy_extent : Q * Q * Q * Q) (z : Z) :
  let ul := (extent_corners xxyy_extent z).1 in
  let lr := (extent_corners xxyy_extent z).2 in
  let tiles := (iter_extent_tiles xxyy_extent z).*1 in
  (∀ t, t ∈ tiles ↔ zoom t = z
                     ∧ (row ul ≤ row t ≤ row lr)%Z
                     ∧ (column ul ≤ column t ≤ column lr)%Z)
  ∧ StronglySorted tile_lt tiles
  ∧ (∀ t box, (t, box) ∈ iter_extent_tiles xxyy_extent z →
       let nw := coordinateLocation t in
       let se := coordinateLocation (right (down t)) in
       box = mkBBox (lon nw) (lat se) (lon se) (lat nw)).
Proof.
  intros ul lr tiles. subst tiles. unfold iter_extent_tiles.
  destruct (extent_corners xxyy_extent z) as [ul' lr'] eqn:Hc.
  cbn [fst snd] in ul, lr. subst ul lr.
  rewrite <- list_fmap_compose. split; [|split].
  - intros [r c z']. rewrite list_elem_of_fmap. split.
    + intros ([r' c'] & [= -> -> ->] & Hin).
      apply product_elem in Hin as [Hr Hcol].
      apply py_range_elem in Hr, Hcol. cbn. lia.
    + cbn. intros (-> & Hr & Hcol). exists (r, c). split; [done|].
      apply product_elem. rewrite !py_range_elem. lia.
  - eapply StronglySorted_fmap; [|apply product_sorted; apply seqZ_sorted].
    intros [r1 c1] [r2 c2] Hlt. exact Hlt.
  - intros t box Hin. apply list_elem_of_fmap in Hin as ([r c] & [= -> ->] & _).
    done.
Qed.
End PrepareStateFacts.

(** ** The statements at the fixtures of the test suite *)

Import Planar.

(** *** Order facts for the planar model *)

Lemma Qltb_lt (a b : Q) : Qltb a b = true ↔ (a < b)%Q.
Proof.
  unfold Qltb. rewrite negb_true_iff, <- not_true_iff_false, Qle_bool_iff.
  split; [apply Qnot_le_lt|apply Qlt_not_le].
Qed.

Lemma qmax_r (a b : Q) : (a <= b)%Q → (qmax b a == b)%Q.
Proof.
  intros Hab. unfold qmax. destruct (Qle_bool b a) eqn:Hba; [|reflexivity].
  apply Qle_bool_iff in Hba. by apply Qle_antisym.
Qed.

Lemma qmin_l (a b : Q) : (a <= b)%Q → (qmin a b == a)%Q.
Proof.
  intros Hab. unfold qmin. destruct (Qle_bool a b) eqn:Hba; [reflexivity|].
  apply Qle_bool_iff in Hab. congruence.
Qed.

(** The boxes obey the laws of containment. *)
#[export] Instance planar_laws : OGRLaws shape.
Proof.
  split.
  - intros a b c Hab Hbc. cbn in *.
    destruct a as [|x y|a1 b1 a2 b2|], b as [|?|x1 y1 x2 y2|]; try done;
      destruct c as [|?|u1 v1 u2 v2|]; try done; cbn in *;
      repeat rewrite andb_true_iff in *; repeat rewrite Qltb_lt in *;
      repeat rewrite Qle_bool_iff in *; repeat split; lra.
  - intros a b Hpt Hab. cbn in *.
    destruct a as [|x y|a1 b1 a2 b2|], b as [|?|x1 y1 x2 y2|]; try done.
    cbn in Hab. repeat rewrite andb_true_iff in Hab.
    repeat rewrite Qle_bool_iff in Hab.
    destruct Hab as (((((Ha & Hb) & Hx1) & Hx2) & Hy1) & Hy2).
    unfold intersection.
    assert (Hdis : disjoint (Box a1 b1 a2 b2) (Box x1 y1 x2 y2) = false).
    { cbn. repeat rewrite orb_false_iff. repeat rewrite <- not_true_iff_false.
      repeat rewrite Qltb_lt. repeat split; lra. }
    rewrite Hdis. eexists. split; [reflexivity|]. cbn. rewrite !Qred_correct.
    rewrite !qmax_r, !qmin_l by done. reflexivity.
Qed.

(** The fixtures carry numbers only. *)
Lemma half_precinct_numeric (g : shape) :
  numeric_fields (properties (half_precinct g)).
Proof.
  intros name v Hin Hlook. cbn in Hin.
  repeat (apply elem_of_cons in Hin as [->|Hin]); [| | |by apply elem_of_nil in Hin];
    vm_compute in Hlook; inversion Hlook; by eexists.
Qed.

Lemma blockpoint_numeric (g : shape) :
  numeric_fields (properties (blockpoint g)).
Proof.
  intros name v Hin Hlook. cbn in Hin.
  repeat (apply elem_of_cons in Hin as [->|Hin]); [| | |by apply elem_of_nil in Hin];
    vm_compute in Hlook; inversion Hlook; by eexists.
Qed.

(** The four scalar precincts of the tests: one voter, stored fraction 0.5,
    in a tile that the district overlaps.  Within the district: 0.5; half
    in it: 0.25; touching it: 0; outside it: 0. *)
Lemma score_precinct_area_witness :
  (∃ totals,
     score_precinct (Some (district_part (17 # 100))) (half_precinct precinct_box)
       tile_2049_2046
     = ([OgrIntersection precinct_box (district_part (17 # 100))], Ok totals)
     ∧ totals !! "Voters" = Some (1 # 2)%Q)
  ∧ (∃ totals,
       score_precinct (Some (district_part (14 # 100))) (half_precinct precinct_box)
         tile_2049_2046
       = ([OgrIntersection precinct_box (district_part (14 # 100))], Ok totals)
       ∧ totals !! "Voters" = Some (1 # 4)%Q)
  ∧ (∃ totals,
       score_precinct (Some (district_part (12 # 100))) (half_precinct precinct_box)
         tile_2049_2046
       = ([OgrIntersection precinct_box (district_part (12 # 100))], Ok totals)
       ∧ totals !! "Voters" = Some 0%Q)
  ∧ (∃ totals,
       score_precinct (Some (district_part (11 # 100))) (half_precinct precinct_box)
         tile_2049_2046
       = ([OgrIntersection precinct_box (district_part (11 # 100))], Ok totals)
       ∧ totals !! "Voters" = Some 0%Q).
Proof.
  split; [|split; [|split]].
  - destruct (score_precinct_area (half_precinct precinct_box) precinct_box
                (district_part (17 # 100)) tile_2049_2046 (PNum (1 # 2)) (1 # 2)
                precinct_box)
      as (totals & Hrun & _ & Hshare);
      [reflexivity | reflexivity | reflexivity | reflexivity | reflexivity
      | reflexivity | by vm_compute | reflexivity | reflexivity
      | apply half_precinct_numeric |].
    exists totals. split; [exact Hrun|].
    rewrite Hshare by (by vm_compute). reflexivity.
  - destruct (score_precinct_area (half_precinct precinct_box) precinct_box
                (district_part (14 # 100)) tile_2049_2046 (PNum (1 # 2)) (1 # 2)
                cut_overlap)
      as (totals & Hrun & _ & Hshare);
      [reflexivity | reflexivity | reflexivity | reflexivity | reflexivity
      | reflexivity | by vm_compute | reflexivity | reflexivity
      | apply half_precinct_numeric |].
    exists totals. split; [exact Hrun|].
    rewrite Hshare by (by vm_compute). reflexivity.
  - destruct (score_precinct_area (half_precinct precinct_box) precinct_box
                (district_part (12 # 100)) tile_2049_2046 (PNum (1 # 2)) (1 # 2)
                sliver)
      as (totals & Hrun & _ & Hshare);
      [reflexivity | reflexivity | reflexivity | reflexivity | reflexivity
      | reflexivity | by vm_compute | reflexivity | reflexivity
      | apply half_precinct_numeric |].
    exists totals. split; [exact Hrun|].
    rewrite Hshare by (by vm_compute). reflexivity.
  - destruct (score_precinct_area (half_precinct precinct_box) precinct_box
                (district_part (11 # 100)) tile_2049_2046 (PNum (1 # 2)) (1 # 2)
                Empty)
      as (totals & Hrun & _ & Hshare);
      [reflexivity | reflexivity | reflexivity | reflexivity | reflexivity
      | reflexivity | by vm_compute | reflexivity | reflexivity
      | apply half_precinct_numeric |].
    exists totals. split; [exact Hrun|].
    rewrite Hshare by (by vm_compute). reflexivity.
Defined.

(** C1 as stated fails: a precinct polygon without area and with stored
    fraction 0.5, clipped to a tile that lies within the district geometry,
    gets 0.5 by the shortcut and 0 by the explicit computation. *)
Lemma containment_shortcut_counterexample :
  Within tile_2049_2046 tile_2049_2046 = true
  ∧ Within sliver tile_2049_2046 = true
  ∧ covered_by sliver tile_2049_2046
  ∧ score_precinct (Some tile_2049_2046) (half_precinct sliver) tile_2049_2046
    = ([], Ok {[ "Voters" := (1 # 2)%Q ]})
  ∧ score_precinct_explicit (Some tile_2049_2046) (half_precinct sliver)
    = ([OgrIntersection sliver tile_2049_2046], Ok {[ "Voters" := 0%Q ]})
  ∧ snd (score_precinct (Some tile_2049_2046) (half_precinct sliver) tile_2049_2046)
    ≠ snd (score_precinct_explicit (Some tile_2049_2046) (half_precinct sliver)).
Proof.
  assert (Hshort : score_precinct (Some tile_2049_2046) (half_precinct sliver)
                     tile_2049_2046
                   = ([], Ok {[ "Voters" := (1 # 2)%Q ]})) by (by vm_compute).
  assert (Hlong : score_precinct_explicit (Some tile_2049_2046) (half_precinct sliver)
                  = ([OgrIntersection sliver tile_2049_2046],
                     Ok {[ "Voters" := 0%Q ]})) by (by vm_compute).
  split; [reflexivity|]. split; [reflexivity|]. split.
  { exists sliver. split; [reflexivity|]. by vm_compute. }
  split; [exact Hshort|]. split; [exact Hlong|].
  rewrite Hshort, Hlong. cbn [snd]. intros Heq.
  apply (f_equal (λ r, match r with
                       | Ok totals => totals !! "Voters"
                       | Raise _ => None
                       end)) in Heq.
  vm_compute in Heq. discriminate Heq.
Qed.

(** The precinct of the tests in a tile that lies within the district. *)
Lemma containment_shortcut_witness :
  fst (score_precinct (Some tile_2049_2046) (half_precinct precinct_box)
         tile_2049_2046) = []
  ∧ snd (score_precinct (Some tile_2049_2046) (half_precinct precinct_box)
           tile_2049_2046)
    = snd (score_precinct_explicit (Some tile_2049_2046) (half_precinct precinct_box)).
Proof.
  apply (containment_shortcut (half_precinct precinct_box) precinct_box
           tile_2049_2046 tile_2049_2046).
  - reflexivity.
  - reflexivity.
  - reflexivity.
  - intros _. by vm_compute.
  - intros frac Hfrac. vm_compute in Hfrac. inversion Hfrac. by eexists.
Defined.

(** A district that cuts the tile, over a half precinct and a block
    point: 0.25 and 1 add up to 1.25; and a district away from the tile. *)
Lemma score_district_spec_witness :
  score_district cut_district
    [half_precinct precinct_box; blockpoint (Point (1 # 10) (1 # 10))]
    tile_2049_2046
  = ([OgrIntersection cut_district tile_2049_2046;
      OgrIntersection precinct_box cut_partial],
     Ok {[ "Voters" := (5 # 4)%Q ]})
  ∧ score_district (Box 2 2 3 3) [half_precinct precinct_box] tile_2049_2046
    = ([], Ok ∅).
Proof.
  split.
  - destruct (score_district_spec cut_district
                [half_precinct precinct_box; blockpoint (Point (1 # 10) (1 # 10))]
                tile_2049_2046) as (_ & Hrun & _).
    rewrite (Hrun eq_refl (Some cut_partial)
               [([OgrIntersection precinct_box cut_partial],
                 {[ "Voters" := (1 # 4)%Q ]});
                ([], {[ "Voters" := 1%Q ]})]).
    + by vm_compute.
    + reflexivity.
    + repeat constructor; by vm_compute.
  - apply (score_district_spec (Box 2 2 3 3) [half_precinct precinct_box]
             tile_2049_2046). reflexivity.
Defined.

(** A missing tile, a bucket that denies access, and a gzipped tile. *)
Lemma load_tile_precincts_spec_witness :
  load_tile_precincts missing_s3 storage "12/2049/2046"
  = ([S3GetObject "planscore" "data/XX/12/2049/2046.geojson"], Ok [])
  ∧ load_tile_precincts denied_s3 storage "12/2049/2046"
    = ([S3GetObject "planscore" "data/XX/12/2049/2046.geojson"],
       Raise (ClientError "AccessDenied"))
  ∧ load_tile_precincts (bucket_s3 gzipped_tile) storage "12/2049/2046"
    = ([S3GetObject "planscore" "data/XX/12/2049/2046.geojson"],
       Ok [half_precinct precinct_box]).
Proof.
  split; [|split].
  - apply (load_tile_precincts_spec missing_s3 storage "12/2049/2046"). reflexivity.
  - apply (load_tile_precincts_spec denied_s3 storage "12/2049/2046");
      [reflexivity|discriminate].
  - apply (proj2 (proj2 (load_tile_precincts_spec (bucket_s3 gzipped_tile) storage
                           "12/2049/2046"))
             gzipped_tile "features" feature_collection);
      reflexivity.
Defined.

(** C5 as stated fails: the containment test of lines 91-95 comes before
    the point test of lines 96-98.  A block point that lies outside its
    tile, and outside the district geometry, counts in full when the tile
    lies within the district geometry; the claim has it count for 0. *)
Lemma score_precinct_point_counterexample :
  is_point_type (GetGeometryType (Point 5 5)) = true
  ∧ Within (Point 5 5) tile_2049_2046 = false
  ∧ Within tile_2049_2046 tile_2049_2046 = true
  ∧ score_precinct (Some tile_2049_2046) (blockpoint (Point 5 5)) tile_2049_2046
    = ([], Ok {[ "Voters" := 1%Q ]})
  ∧ ¬ (∃ totals,
         snd (score_precinct (Some tile_2049_2046) (blockpoint (Point 5 5))
                tile_2049_2046) = Ok totals
         ∧ totals !! "Voters" = Some 0%Q).
Proof.
  assert (Hrun : score_precinct (Some tile_2049_2046) (blockpoint (Point 5 5))
                   tile_2049_2046
                 = ([], Ok {[ "Voters" := 1%Q ]})) by (by vm_compute).
  split; [reflexivity|]. split; [reflexivity|]. split; [reflexivity|].
  split; [exact Hrun|].
  rewrite Hrun. cbn [snd]. intros (totals & [= <-] & Hzero).
  vm_compute in Hzero. discriminate Hzero.
Qed.

(** A block point inside the tile counts in full, with or without a
    fraction among its properties. *)
Lemma score_precinct_point_witness :
  (∃ totals,
     score_precinct (Some tile_2049_2046) (blockpoint inner_point) tile_2049_2046
     = ([], Ok totals)
     ∧ totals !! "Voters" = Some 1%Q)
  ∧ score_precinct (Some tile_2049_2046)
      {| properties := {[ "Voters" := PNum 1; FRACTION_FIELD := PNum (1 # 2) ]};
         geometry := Some inner_point |} tile_2049_2046
    = score_precinct (Some tile_2049_2046) (blockpoint inner_point) tile_2049_2046.
Proof.
  destruct (score_precinct_point (blockpoint inner_point) inner_point
              tile_2049_2046 tile_2049_2046)
    as [(totals & Hrun & Hlook) Hsame];
    [reflexivity | reflexivity | reflexivity | reflexivity | reflexivity
    | apply blockpoint_numeric |].
  split.
  - exists totals. split; [exact Hrun|]. rewrite Hlook. by vm_compute.
  - apply Hsame.
    + unfold FRACTION_FIELD. cbn. intros Hin.
      repeat (apply elem_of_cons in Hin as [Hin|Hin]; [discriminate Hin|]).
      by apply elem_of_nil in Hin.
    + reflexivity.
    + intros name Hne. cbn [properties blockpoint].
      destruct (decide (name = "Voters")) as [->|Hv]; [by vm_compute|].
      rewrite lookup_insert_ne by done.
      by rewrite !lookup_singleton_ne.
Defined.

(** A precinct with a self-crossing ring is buffered and intersected
    again; a district with one is not, and the error comes through. *)
Lemma score_precinct_topology_repair_witness :
  fst (score_precinct (Some cut_partial) (half_precinct bowtie_precinct)
         tile_2049_2046)
  = [OgrIntersection bowtie_precinct cut_partial;
     OgrBuffer bowtie_precinct (1 # 10000000);
     OgrIntersection buffered_precinct cut_partial]
  ∧ score_precinct (Some bowtie_precinct) (half_precinct precinct_box)
      tile_2049_2046
    = ([OgrIntersection precinct_box bowtie_precinct],
       Raise (RuntimeError topology_message)).
Proof.
  split.
  - destruct (score_precinct_topology_repair (half_precinct bowtie_precinct)
                bowtie_precinct cut_partial tile_2049_2046 (PNum (1 # 2))
                (RuntimeError topology_message)) as [Hrepair _];
      [reflexivity | reflexivity | reflexivity | reflexivity | reflexivity
      | reflexivity | reflexivity | reflexivity |].
    apply (Hrepair eq_refl eq_refl buffered_precinct). reflexivity.
  - destruct (score_precinct_topology_repair (half_precinct precinct_box)
                precinct_box bowtie_precinct tile_2049_2046 (PNum (1 # 2))
                (RuntimeError topology_message)) as [_ Hraise];
      [reflexivity | reflexivity | reflexivity | reflexivity | reflexivity
      | reflexivity | reflexivity | reflexivity |].
    apply Hraise. right. reflexivity.
Defined.

(** C8 as stated fails: scoring a polygon precinct that has no fraction
    raises [KeyError]; the handler returns normally all the same, and the
    last thing it does is to write the result object, the error's text in
    the place of the totals. *)
Lemma lambda_handler_swallows_counterexample :
  lambda_handler_score (bucket_s3 unweighted_tile) storage
    "uploads/ID/geometries" "12/2049/2046" [unweighted_precinct]
  = ([S3ListObjects "planscore" "uploads/ID/geometries";
      S3GetObject "planscore" "uploads/ID/geometries/0.wkt";
      OgrIntersection whole_district tile_2049_2046],
     Raise (KeyError FRACTION_FIELD))
  ∧ snd (lambda_handler (bucket_s3 unweighted_tile) tile_event) = Ok ()
  ∧ last (fst (lambda_handler (bucket_s3 unweighted_tile) tile_event))
    = Some (S3PutObject "planscore" "uploads/ID/tiles/12/2049/2046.json"
              {| body_event := tile_event;
                 body_tile_key := "uploads/ID/tiles/12/2049/2046.json";
                 body_geoms_prefix := "uploads/ID/geometries";
                 body_totals := TotalsStr (KeyError FRACTION_FIELD);
                 body_precinct_count := 1 |}).
Proof. split; [by vm_compute|]. split; by vm_compute. Qed.

(** The same invocation, call by call. *)
Lemma lambda_handler_records_error_witness :
  lambda_handler (bucket_s3 unweighted_tile) tile_event
  = ([S3GetObject "planscore" "data/XX/12/2049/2046.geojson";
      S3ListObjects "planscore" "uploads/ID/geometries";
      S3GetObject "planscore" "uploads/ID/geometries/0.wkt";
      OgrIntersection whole_district tile_2049_2046;
      S3PutObject "planscore" "uploads/ID/tiles/12/2049/2046.json"
        {| body_event := tile_event;
           body_tile_key := "uploads/ID/tiles/12/2049/2046.json";
           body_geoms_prefix := "uploads/ID/geometries";
           body_totals := TotalsStr (KeyError FRACTION_FIELD);
           body_precinct_count := 1 |}],
     Ok ()).
Proof.
  rewrite (lambda_handler_records_error (bucket_s3 unweighted_tile) tile_event
             [S3GetObject "planscore" "data/XX/12/2049/2046.geojson"]
             [S3ListObjects "planscore" "uploads/ID/geometries";
              S3GetObject "planscore" "uploads/ID/geometries/0.wkt";
              OgrIntersection whole_district tile_2049_2046]
             "12/2049/2046" [unweighted_precinct] (KeyError FRACTION_FIELD))
    by (by vm_compute).
  reflexivity.
Defined.

(** The half precinct has a total for 'Voters' and for nothing else; an
    empty geometry collection gives a zero for 'Voters'. *)
Lemma score_precinct_key_set_witness :
  (∀ name, is_Some (({[ "Voters" := (1 # 4)%Q ]} : gmap string Q) !! name)
           ↔ name ∈ ["Voters"; "Red Votes"; "Blue Votes"]
             ∧ is_Some (properties (half_precinct precinct_box) !! name))
  ∧ score_precinct (Some tile_2049_2046) (blockpoint Empty) tile_2049_2046
    = ([], Ok (totals_init (properties (blockpoint Empty))))
  ∧ totals_init (properties (blockpoint Empty)) !! "Voters" = Some 0%Q.
Proof.
  split.
  - intros name.
    refine (proj1 (score_precinct_key_set (Some cut_partial)
                     (half_precinct precinct_box) tile_2049_2046)
              [OgrIntersection precinct_box cut_partial]
              {[ "Voters" := (1 # 4)%Q ]} _ name).
    by vm_compute.
  - destruct (proj2 (score_precinct_key_set (Some tile_2049_2046)
                       (blockpoint Empty) tile_2049_2046)) as [Hrun Hzero].
    + left. reflexivity.
    + split; [exact Hrun|]. apply Hzero.
      * by left.
      * exists (PNum 1). reflexivity.
Defined.

(** A polygon without the fraction property, and a block point without it. *)
Lemma score_precinct_requires_fraction_witness :
  score_precinct (Some tile_2049_2046) unweighted_precinct tile_2049_2046
  = ([], Raise (KeyError FRACTION_FIELD))
  ∧ snd (score_precinct (Some tile_2049_2046) (blockpoint inner_point)
           tile_2049_2046) ≠ Raise (KeyError FRACTION_FIELD).
Proof.
  split.
  - destruct (score_precinct_requires_fraction unweighted_precinct precinct_box
                tile_2049_2046 tile_2049_2046) as [Hkey _];
      [reflexivity | reflexivity | reflexivity |].
    apply Hkey; reflexivity.
  - destruct (score_precinct_requires_fraction (blockpoint inner_point)
                inner_point tile_2049_2046 tile_2049_2046) as [_ Hpoint];
      [reflexivity | reflexivity | reflexivity |].
    apply Hpoint. reflexivity.
Defined.

Import Equirect.

(** At zoom 2 the octant covers rows 1-2 and columns 2-3. *)
Lemma iter_extent_tiles_row_major_witness :
  (iter_extent_tiles octant 2).*1
  = [mkCoordinate 1 2 2; mkCoordinate 1 3 2; mkCoordinate 2 2 2; mkCoordinate 2 3 2]%Z
  ∧ mkCoordinate 2%Z 3%Z 2%Z ∈ (iter_extent_tiles octant 2).*1
  ∧ StronglySorted tile_lt (iter_extent_tiles octant 2).*1.
Proof.
  destruct (iter_extent_tiles_row_major octant 2) as (Hin & Hsorted & _).
  split; [by vm_compute|]. split; [|exact Hsorted].
  apply Hin. by vm_compute.
Defined.

(** * Further facts *)

(** ** Rounding *)

Lemma scale_pos (n : nat) : (0 < 10 ^ Z.of_nat n)%Z.
Proof. apply Z.pow_pos_nonneg; lia. Qed.

Lemma scale_to_pos (n : nat) : Zpos (Z.to_pos (10 ^ Z.of_nat n)) = (10 ^ Z.of_nat n)%Z.
Proof. apply Z2Pos.id, scale_pos. Qed.

Lemma round_half_even_Z (z : Z) : round_half_even (inject_Z z) = z.
Proof.
  unfold round_half_even. rewrite Qfloor_Z.
  assert (Hlt : (inject_Z z - inject_Z z ?= 1 # 2)%Q = Lt).
  { apply (proj1 (Qlt_alt _ _)). lra. }
  by rewrite Hlt.
Qed.

(** A multiple of 10^-n, times 10^n, is its numerator. *)
Lemma grid_scale (n : nat) (z : Z) :
  ((z # Z.to_pos (10 ^ Z.of_nat n)) * inject_Z (10 ^ Z.of_nat n) == inject_Z z)%Q.
Proof.
  unfold Qeq, Qmult, inject_Z. cbn [Qnum Qden].
  rewrite Pos.mul_1_r, scale_to_pos. lia.
Qed.

(** Rounding leaves the multiples of 10^-n where they are. *)
Lemma py_round_of_grid (n : nat) (v : Q) (z : Z) :
  (v == z # Z.to_pos (10 ^ Z.of_nat n))%Q →
  py_round n v = Qred (z # Z.to_pos (10 ^ Z.of_nat n)).
Proof.
  intros Hv. unfold py_round. cbv zeta.
  rewrite (round_half_even_proper _ (inject_Z z)), round_half_even_Z; [done|].
  rewrite Hv. apply grid_scale.
Qed.

Lemma py_round_grid (n : nat) (x : Q) :
  ∃ z, py_round n x = Qred (z # Z.to_pos (10 ^ Z.of_nat n)).
Proof. by eexists. Qed.

Lemma py_round_idem (n : nat) (x : Q) : py_round n (py_round n x) = py_round n x.
Proof.
  destruct (py_round_grid n x) as [z Hz]. rewrite Hz.
  apply py_round_of_grid, Qred_correct.
Qed.

(** The sum of two rounded numbers needs no rounding. *)
Lemma py_round_sum (n : nat) (a b : Q) :
  py_round n a = a → py_round n b = b → (py_round n (a + b) == a + b)%Q.
Proof.
  intros Ha Hb.
  destruct (py_round_grid n a) as [za Hza], (py_round_grid n b) as [zb Hzb].
  rewrite Ha in Hza. rewrite Hb in Hzb.
  assert (Hsum : (a + b == (za + zb) # Z.to_pos (10 ^ Z.of_nat n))%Q).
  { rewrite Hza, Hzb, !Qred_correct. unfold Qeq, Qplus. cbn [Qnum Qden].
    rewrite Pos2Z.inj_mul. ring. }
  rewrite (py_round_of_grid _ _ _ Hsum), Qred_correct. by symmetry.
Qed.

Lemma round_half_even_bounds (x : Q) :
  (Qfloor x ≤ round_half_even x ≤ Qfloor x + 1)%Z.
Proof.
  unfold round_half_even.
  destruct (x - inject_Z (Qfloor x) ?= 1 # 2)%Q; [destruct (Z.even _)| |]; lia.
Qed.

Lemma round_half_even_mono (x y : Q) :
  (x <= y)%Q → (round_half_even x ≤ round_half_even y)%Z.
Proof.
  intros Hxy. pose proof (Qfloor_resp_le _ _ Hxy) as Hfl.
  pose proof (round_half_even_bounds x) as Hx.
  pose proof (round_half_even_bounds y) as Hy.
  destruct (decide (Qfloor x = Qfloor y)) as [Heq|Hne]; [|lia].
  unfold round_half_even in *. rewrite <- Heq in *.
  destruct (Qcompare_spec (x - inject_Z (Qfloor x)) (1 # 2)) as [Hx'|Hx'|Hx'],
           (Qcompare_spec (y - inject_Z (Qfloor x)) (1 # 2)) as [Hy'|Hy'|Hy'];
    try destruct (Z.even (Qfloor x)); try lia; exfalso; lra.
Qed.

Lemma py_round_mono (n : nat) (x y : Q) :
  (x <= y)%Q → (py_round n x <= py_round n y)%Q.
Proof.
  intros Hxy. unfold py_round. cbv zeta. rewrite !Qred_correct.
  unfold Qle. cbn [Qnum Qden]. apply Z.mul_le_mono_nonneg_r; [lia|].
  apply round_half_even_mono, Qmult_le_compat_r; [done|].
  change 0%Q with (inject_Z 0). rewrite <- Zle_Qle. pose proof (scale_pos n). lia.
Qed.

(** ** score_precinct, all paths *)

Section ScorePrecinctMore.
Context {G : Type} `{!OGR G} `{!Env G}.
Implicit Types (feat : Feature G) (pd : option G) (tile g d : G).

(** The names of the totals, on every path. *)
Lemma score_precinct_names pd feat tile tr (totals : gmap string Q) name :
  score_precinct pd feat tile = (tr, Ok totals) →
  is_Some (totals !! name)
  ↔ name ∈ FIELD_NAMES ∧ is_Some (properties feat !! name).
Proof.
  intros Hrun. unfold score_precinct in Hrun.
  destruct (geometry feat) as [g|], pd as [d|];
    try (injection Hrun as _ <-; apply totals_init_keys).
  destruct (IsEmpty g); [injection Hrun as _ <-; apply totals_init_keys|].
  destruct (IsEmpty d); [injection Hrun as _ <-; apply totals_init_keys|].
  apply bind_ok_inv in Hrun as (t1 & [is_point frac] & t2 & _ & Hk & _).
  destruct (py_eq_zero frac); [injection Hk as _ <-; apply totals_init_keys|].
  by eapply finish_keys.
Qed.

Lemma totals_init_rounded (props : gmap string pyval) name v :
  totals_init props !! name = Some v → py_round ROUND_COUNT v = v.
Proof.
  rewrite totals_init_lookup. case_decide; [|done].
  destruct (props !! name); [|done]. intros [= <-]. by apply py_round_zero.
Qed.

(** The loop of lines 117-119 stores rounded numbers only. *)
Lemma weigh_totals_rounded (props : gmap string pyval) (fraction : pyval)
    (totals totals' : gmap string Q) tr :
  (∀ name v, totals !! name = Some v → py_round ROUND_COUNT v = v) →
  weigh_totals props fraction totals = (tr, Ok totals') →
  ∀ name v, totals' !! name = Some v → py_round ROUND_COUNT v = v.
Proof.
  unfold weigh_totals. generalize (remove_dups (totals_names props)) as l.
  intros l. revert totals tr. induction l as [|n l IH]; intros totals tr Hin Hrun.
  - rewrite foldM_nil in Hrun. by injection Hrun as _ <-.
  - rewrite foldM_cons in Hrun.
    destruct (getitem props n) as [v|e]; [|done].
    rewrite bind_lift_ok in Hrun.
    destruct (py_mul fraction (py_or_zero v)) as [pv|e]; [|done].
    rewrite bind_lift_ok, bind_ret in Hrun.
    eapply IH; [|exact Hrun]. intros name v'.
    destruct (decide (name = n)) as [->|Hne].
    + rewrite lookup_insert_eq. intros [= <-]. apply py_round_idem.
    + rewrite lookup_insert_ne by done. apply Hin.
Qed.

(** Every total that [score_precinct] returns is a rounded number. *)
Lemma score_precinct_rounded pd feat tile tr (totals : gmap string Q) name v :
  score_precinct pd feat tile = (tr, Ok totals) →
  totals !! name = Some v → py_round ROUND_COUNT v = v.
Proof.
  intros Hrun. unfold score_precinct in Hrun.
  destruct (geometry feat) as [g|], pd as [d|];
    try (injection Hrun as _ <-; apply totals_init_rounded).
  destruct (IsEmpty g); [injection Hrun as _ <-; apply totals_init_rounded|].
  destruct (IsEmpty d); [injection Hrun as _ <-; apply totals_init_rounded|].
  apply bind_ok_inv in Hrun as (t1 & [is_point frac] & t2 & _ & Hk & _).
  destruct (py_eq_zero frac); [injection Hk as _ <-; apply totals_init_rounded|].
  apply bind_ok_inv in Hk as (t3 & [pf|] & t4 & _ & Hk & _).
  - eapply weigh_totals_rounded; [|exact Hk]. apply totals_init_rounded.
  - injection Hk as _ <-. apply totals_init_rounded.
Qed.

(** The log of the overlap computation: one to three calls, the first of
    them the intersection of precinct and district as they came. *)
Lemma overlap_with_repair_calls g d :
  ∃ rest, fst (overlap_with_repair g d) = OgrIntersection g d :: rest
          ∧ length rest ≤ 2
          ∧ Forall (λ c, match c with
                         | OgrIntersection _ _ | OgrBuffer _ _ => True
                         | _ => False
                         end) rest.
Proof.
  unfold overlap_with_repair, ogr_Intersection, ogr_Buffer, call.
  destruct (Intersection g d) as [ov|e].
  - exists []. rewrite bind_ok. cbn. repeat split; [lia|constructor].
  - rewrite bind_raise. cbn [try_except].
    destruct e as [| | | |msg| |];
      try (exists []; cbn; repeat split; [lia|constructor]).
    destruct (str_contains "TopologyException" msg && negb (IsValid g));
      [|exists []; cbn; repeat split; [lia|constructor]].
    rewrite bind_ok. cbn [fst snd].
    destruct (Buffer g (1 # 10000000)) as [g'|].
    + exists [OgrBuffer g (1 # 10000000); OgrIntersection g' d].
      destruct (Intersection g' d); cbn; repeat split; try lia;
        repeat constructor.
    + exists [OgrBuffer g (1 # 10000000)]. cbn.
      repeat split; [lia|repeat constructor].
Qed.

(** X1.  [score_precinct] builds no geometry on its early returns, for a
    point or multipoint, or when the tile lies within the district
    geometry, whatever the feature holds; in the one remaining case its
    log opens with the intersection of precinct and district and has at
    most two further calls (the buffer and the second intersection). *)
Theorem score_precinct_calls pd feat tile :
  (returns_early pd feat
   ∨ (∃ g d, geometry feat = Some g ∧ pd = Some d
             ∧ (is_point_type (GetGeometryType g) = true
                ∨ Within tile d = true)) →
   fst (score_precinct pd feat tile) = [])
  ∧ (∀ g d frac,
       geometry feat = Some g → pd = Some d →
       IsEmpty g = false → IsEmpty d = false →
       is_point_type (GetGeometryType g) = false →
       properties feat !! FRACTION_FIELD = Some frac → py_eq_zero frac = false →
       Within tile d = false →
       ∃ rest, fst (score_precinct pd feat tile) = OgrIntersection g d :: rest
               ∧ length rest ≤ 2).
Proof.
  split.
  - intros Hcase. unfold score_precinct.
    destruct (geometry feat) as [g|] eqn:Hg; [|done].
    destruct pd as [d|]; [|done].
    destruct (IsEmpty g) eqn:Hge; [done|]. destruct (IsEmpty d) eqn:Hde; [done|].
    destruct (is_point_type (GetGeometryType g)) eqn:Hpt.
    + rewrite bind_ret. destruct (py_eq_zero (PNum 1)); [done|].
      rewrite finish_no_calls. by destruct (Within tile d), (Within g d).
    + unfold getitem.
      destruct (properties feat !! FRACTION_FIELD) as [frac|] eqn:Hfrac; [|done].
      rewrite bind_lift_ok, bind_ret.
      destruct (py_eq_zero frac) eqn:Hz; [done|]. rewrite finish_no_calls.
      destruct Hcase as [Hearly|(g' & d' & [= <-] & [= <-] & [Hp|Htile])].
      * unfold returns_early in Hearly. rewrite Hg in Hearly.
        destruct Hearly as [?|[?|(_ & frac' & Hfrac' & Hz')]]; [congruence..|].
        rewrite Hfrac in Hfrac'. congruence.
      * congruence.
      * by rewrite Htile.
  - intros g d frac Hg -> Hge Hde Hpt Hfrac Hz Htile. unfold score_precinct.
    rewrite Hg, Hge, Hde, Hpt. unfold getitem.
    rewrite Hfrac, bind_lift_ok, bind_ret, Hz, Htile.
    rewrite finish_no_calls, area_tail_no_calls.
    destruct (overlap_with_repair_calls g d) as (rest & Hlog & Hlen & _).
    by exists rest.
Qed.
End ScorePrecinctMore.

Section ScorePrecinctValues.
Context {G : Type} `{!OGR G} `{!Env G}.
Implicit Types (feat : Feature G) (tile g d : G).

Lemma weigh_totals_type_error (props : gmap string pyval) (fraction : pyval)
    (totals : gmap string Q) name :
  as_num fraction = None →
  name ∈ FIELD_NAMES → is_Some (props !! name) →
  weigh_totals props fraction totals = ([], Raise TypeError).
Proof.
  intros Hnone Hin Hsome. unfold weigh_totals.
  assert (Hel : name ∈ remove_dups (totals_names props))
    by (by rewrite elem_of_remove_dups, totals_names_elem).
  assert (Hall : ∀ n, n ∈ remove_dups (totals_names props) → is_Some (props !! n)).
  { intros n. rewrite elem_of_remove_dups, totals_names_elem. tauto. }
  destruct (remove_dups (totals_names props)) as [|n l]; [by apply elem_of_nil in Hel|].
  rewrite foldM_cons. destruct (Hall n) as [v Hv]; [by left|].
  assert (Hg : getitem props n = Ok v) by (unfold getitem; by rewrite Hv).
  rewrite Hg, bind_lift_ok. unfold py_mul. by rewrite Hnone.
Qed.

Lemma weigh_totals_no_names (props : gmap string pyval) (fraction : pyval)
    (totals : gmap string Q) :
  (∀ name, name ∈ FIELD_NAMES → props !! name = None) →
  weigh_totals props fraction totals = ([], Ok totals).
Proof.
  intros Hnone. unfold weigh_totals.
  assert (Hnil : remove_dups (totals_names props) = []).
  { apply elem_of_nil_inv. intros n.
    rewrite elem_of_remove_dups, totals_names_elem. intros [Hin [v Hv]].
    by rewrite (Hnone n Hin) in Hv. }
  by rewrite Hnil.
Qed.

(** X2.  A stored fraction that is no number (null, or a string) on a
    feature with an area geometry: when the tile lies within the district
    the scorer raises [TypeError] as soon as the feature has a listed
    attribute, and returns empty totals when it has none; when the tile
    does not, it raises [TypeError] after the intersection unless the
    precinct has no area, in which case the zeros come back. *)
Theorem score_precinct_fraction_not_a_number feat g d tile (frac : pyval) :
  geometry feat = Some g → IsEmpty g = false → IsEmpty d = false →
  is_point_type (GetGeometryType g) = false →
  properties feat !! FRACTION_FIELD = Some frac → as_num frac = None →
  (Within tile d = true →
   (∃ name, name ∈ FIELD_NAMES ∧ is_Some (properties feat !! name)) →
   score_precinct (Some d) feat tile = ([], Raise TypeError))
  ∧ (Within tile d = true →
     (∀ name, name ∈ FIELD_NAMES → properties feat !! name = None) →
     score_precinct (Some d) feat tile = ([], Ok ∅))
  ∧ (Within tile d = false →
     ∀ ov, Intersection g d = Ok (Some ov) → ¬ (Area g == 0)%Q →
     score_precinct (Some d) feat tile = ([OgrIntersection g d], Raise TypeError))
  ∧ (Within tile d = false →
     ∀ ov, Intersection g d = Ok ov → (Area g == 0)%Q →
     score_precinct (Some d) feat tile
     = ([OgrIntersection g d], Ok (totals_init (properties feat)))).
Proof.
  intros Hg Hge Hde Hpt Hfrac Hnone.
  assert (Hz : py_eq_zero frac = false) by (unfold py_eq_zero; by rewrite Hnone).
  unfold score_precinct. rewrite Hg, Hge, Hde, Hpt. unfold getitem.
  rewrite Hfrac, bind_lift_ok, bind_ret, Hz.
  split; [|split; [|split]].
  - intros -> (name & Hin & Hsome). rewrite bind_ret.
    by apply (weigh_totals_type_error _ _ _ name).
  - intros -> Hnames. rewrite bind_ret, weigh_totals_no_names by done.
    do 2 f_equal. apply map_eq. intros name.
    rewrite totals_init_lookup, lookup_empty. case_decide as Hin; [|done].
    by rewrite (Hnames name Hin).
  - intros -> ov Hov Harea.
    rewrite (overlap_with_repair_ok _ _ _ Hov), bind_ok. cbn [fst snd].
    destruct (Qeq_bool (Area g) 0) eqn:Hq; [by apply Qeq_bool_eq in Hq|].
    unfold py_mul. rewrite Hnone. cbn [as_num]. by rewrite bind_lift_raise.
  - intros -> ov Hov Harea.
    rewrite (overlap_with_repair_ok _ _ _ Hov), bind_ok. cbn [fst snd].
    by rewrite (Qeq_eq_bool _ _ Harea).
Qed.

(** An area feature with a numeric fraction [w], in a tile within the
    district or with an overlap that OGR computes: the totals are the
    shares under some weight between 0 and [w]. *)
Lemma area_feature_share feat g d tile (frac : pyval) (w : Q) :
  geometry feat = Some g → IsEmpty g = false → IsEmpty d = false →
  is_point_type (GetGeometryType g) = false →
  properties feat !! FRACTION_FIELD = Some frac → as_num frac = Some w →
  (0 <= w)%Q →
  (Within tile d = true
   ∨ ∃ ov, Intersection g d = Ok (Some ov) ∧ (0 <= Area ov <= Area g)%Q) →
  numeric_fields (properties feat) →
  ∃ tr totals W,
    score_precinct (Some d) feat tile = (tr, Ok totals)
    ∧ (0 <= W <= w)%Q
    ∧ ∀ name, totals !! name = share W (properties feat) name.
Proof.
  intros Hg Hge Hde Hpt Hfrac Hw Hpos Hcase Hnum.
  unfold score_precinct. rewrite Hg, Hge, Hde, Hpt. unfold getitem.
  rewrite Hfrac, bind_lift_ok, bind_ret. unfold py_eq_zero. rewrite Hw.
  destruct (Qeq_bool w 0) eqn:Hz.
  { exists [], (totals_init (properties feat)), 0%Q. split; [done|].
    split; [lra|]. intros name. by rewrite share_zero, totals_init_lookup. }
  destruct (Within tile d) eqn:Htile.
  { destruct (weigh_totals_ok (properties feat) frac w Hw Hnum)
      as (totals & Hrun & Hlook).
    rewrite bind_ret. exists [], totals, w. split; [done|]. split; [lra|done]. }
  destruct Hcase as [|(ov & Hov & Hlo & Hhi)]; [done|].
  rewrite (overlap_with_repair_ok _ _ _ Hov), bind_ok. cbn [fst snd].
  destruct (Qeq_bool (Area g) 0) eqn:Harea.
  { cbn [fst snd mret M_ret ret app]. rewrite bind_ok.
    exists [OgrIntersection g d], (totals_init (properties feat)), 0%Q.
    split; [done|]. split; [lra|].
    intros name. by rewrite share_zero, totals_init_lookup. }
  apply Qeq_bool_neq in Harea.
  assert (Hm : py_mul (PNum (Area ov / Area g)) frac
               = Ok (Area ov / Area g * w)%Q) by (unfold py_mul; by rewrite Hw).
  rewrite Hm, bind_lift_ok. cbn [fst snd mret M_ret ret app]. rewrite bind_ok.
  destruct (weigh_totals_ok (properties feat) (PNum (Area ov / Area g * w)) _
              eq_refl Hnum) as (totals & Hrun & Hlook).
  rewrite Hrun. cbn [fst snd app].
  exists [OgrIntersection g d], totals, (Area ov / Area g * w)%Q.
  split; [done|]. split; [|done].
  assert (Hga : (0 < Area g)%Q) by lra.
  assert (Hr0 : (0 <= Area ov / Area g)%Q).
  { apply Qle_shift_div_l; [done|]. lra. }
  assert (Hr1 : (Area ov / Area g <= 1)%Q).
  { apply Qle_shift_div_r; [done|]. lra. }
  split; [by apply Qmult_le_0_compat|].
  rewrite <- (Qmult_1_l w) at 2. by apply Qmult_le_compat_r.
Qed.

(** X3.  A precinct with an area geometry and a stored fraction between 0
    and 1, in a tile within the district or with an overlap no larger than
    the precinct itself, never contributes more than it has: every listed
    attribute whose value is not negative gets a total between 0 and that
    value, rounded. *)
Theorem score_precinct_bounds feat g d tile (frac : pyval) (w : Q) :
  geometry feat = Some g → IsEmpty g = false → IsEmpty d = false →
  is_point_type (GetGeometryType g) = false →
  properties feat !! FRACTION_FIELD = Some frac → as_num frac = Some w →
  (0 <= w <= 1)%Q →
  (Within tile d = true
   ∨ ∃ ov, Intersection g d = Ok (Some ov) ∧ (0 <= Area ov <= Area g)%Q) →
  numeric_fields (properties feat) →
  ∃ tr totals,
    score_precinct (Some d) feat tile = (tr, Ok totals)
    ∧ ∀ name v,
        name ∈ FIELD_NAMES → properties feat !! name = Some v →
        (0 <= attr_value v)%Q →
        ∃ t, totals !! name = Some t
             ∧ (0 <= t <= py_round ROUND_COUNT (attr_value v))%Q.
Proof.
  intros Hg Hge Hde Hpt Hfrac Hw [Hw0 Hw1] Hcase Hnum.
  destruct (area_feature_share feat g d tile frac w)
    as (tr & totals & W & Hrun & [HW0 HW1] & Hlook); try done.
  exists tr, totals. split; [done|]. intros name v Hin Hv Hpos.
  exists (py_round ROUND_COUNT (W * attr_value v)). split.
  - rewrite Hlook. unfold share. rewrite decide_True by done. by rewrite Hv.
  - split.
    + rewrite <- (py_round_zero ROUND_COUNT 0) by reflexivity.
      apply py_round_mono. by apply Qmult_le_0_compat.
    + apply py_round_mono. rewrite <- (Qmult_1_l (attr_value v)) at 2.
      apply Qmult_le_compat_r; [lra|done].
Qed.
End ScorePrecinctValues.

(** ** score_district, all runs *)

Lemma Qsum_perm (l l' : list Q) : l ≡ₚ l' → (Qsum l == Qsum l')%Q.
Proof.
  induction 1 as [|x l l' _ IH|x y l|l l' l'' _ IH1 _ IH2]; cbn.
  - reflexivity.
  - by rewrite IH.
  - ring.
  - by rewrite IH1.
Qed.

Lemma concat_perm {A} (l l' : list (list A)) : l ≡ₚ l' → concat l ≡ₚ concat l'.
Proof.
  induction 1 as [|x l l' _ IH|x y l|l l' l'' _ IH1 _ IH2]; cbn.
  - done.
  - by rewrite IH.
  - rewrite !app_assoc. by rewrite (Permutation_app_comm y x).
  - by rewrite IH1.
Qed.

Section ScoreDistrictMore.
Context {G : Type} `{!OGR G} `{!Env G}.
Implicit Types (tile d : G) (precincts : list (Feature G))
  (outs : list (list (logged G) * gmap string Q))
  (totals acc : gmap string Q) (subs : list (gmap string Q)).

Lemma default_rounded totals name :
  rounded totals →
  py_round ROUND_COUNT (default 0%Q (totals !! name)) = default 0%Q (totals !! name).
Proof.
  intros Hr. destruct (totals !! name) as [v|] eqn:Hv; cbn.
  - by apply (Hr name).
  - by apply py_round_zero.
Qed.

Lemma add_subtotals_rounded totals (sub : gmap string Q) :
  rounded totals → rounded (add_subtotals totals sub).
Proof.
  intros Hr name v. rewrite add_subtotals_lookup.
  destruct (sub !! name); [|apply Hr]. intros [= <-]. apply py_round_idem.
Qed.

Lemma fold_rounded acc subs :
  rounded acc → rounded (foldl add_subtotals acc subs).
Proof.
  revert acc. induction subs as [|sub subs IH]; intros acc Hr; [done|].
  cbn. apply IH. by apply add_subtotals_rounded.
Qed.

Lemma fold_none acc subs name :
  foldl add_subtotals acc subs !! name = None
  ↔ acc !! name = None ∧ Forall (λ sub, sub !! name = None) subs.
Proof.
  revert acc. induction subs as [|sub subs IH]; intros acc; cbn.
  - split; [by intros ?; split|by intros [? _]].
  - rewrite IH, add_subtotals_lookup, Forall_cons.
    destruct (sub !! name); naive_solver.
Qed.

(** Rounding after each addition loses nothing when what is added is
    rounded: the fold is the exact sum. *)
Lemma fold_sum acc subs name :
  rounded acc → Forall (λ sub, rounded sub) subs →
  (default 0 (foldl add_subtotals acc subs !! name)
   == default 0 (acc !! name) + Qsum ((λ sub, default 0 (sub !! name)) <$> subs))%Q.
Proof.
  intros Hacc Hsubs. revert acc Hacc.
  induction Hsubs as [|sub subs Hsub _ IH]; intros acc Hacc; cbn.
  - by rewrite Qplus_0_r.
  - rewrite IH by by apply add_subtotals_rounded.
    rewrite add_subtotals_lookup.
    destruct (sub !! name) as [v|] eqn:Hv; cbn.
    + rewrite (py_round_sum _ v); [unfold Qsum; ring|by apply (Hsub name)|].
      by apply default_rounded.
    + unfold Qsum. ring.
Qed.

Lemma fold_perm subs subs' :
  subs ≡ₚ subs' → Forall (λ sub, rounded sub) subs →
  foldl add_subtotals ∅ subs = foldl add_subtotals ∅ subs'.
Proof.
  intros Hperm Hr. assert (Hr' : Forall (λ sub, rounded sub) subs')
    by (by rewrite <- Hperm).
  apply map_eq. intros name.
  destruct (foldl add_subtotals ∅ subs !! name) as [v|] eqn:Hv,
           (foldl add_subtotals ∅ subs' !! name) as [v'|] eqn:Hv'.
  - f_equal.
    assert (Hround : ∀ l, rounded (foldl add_subtotals (∅ : gmap string Q) l))
      by (intros l; apply fold_rounded; intros ? ?; by rewrite lookup_empty).
    rewrite <- (Hround _ _ _ Hv), <- (Hround _ _ _ Hv').
    apply py_round_proper.
    pose proof (fold_sum ∅ subs name) as Hs. rewrite Hv in Hs.
    pose proof (fold_sum ∅ subs' name) as Hs'. rewrite Hv' in Hs'.
    cbn in Hs, Hs'. rewrite Hs, Hs'; try done;
      try (intros ? ?; by rewrite lookup_empty).
    rewrite lookup_empty. cbn. apply Qplus_comp; [reflexivity|].
    apply Qsum_perm. by apply fmap_Permutation.
  - apply fold_none in Hv' as [_ Hall]. rewrite <- Hperm in Hall.
    assert (Hn : foldl add_subtotals ∅ subs !! name = None)
      by (apply fold_none; by rewrite lookup_empty).
    congruence.
  - apply fold_none in Hv as [_ Hall]. rewrite Hperm in Hall.
    assert (Hn : foldl add_subtotals ∅ subs' !! name = None)
      by (apply fold_none; by rewrite lookup_empty).
    congruence.
  - done.
Qed.

(** A run of the loop of lines 56-59 that comes to its end. *)
Lemma score_district_loop_inv (partial : option G) tile precincts acc tr totals :
  foldM (λ totals precinct_feat,
           subtotals ← score_precinct partial precinct_feat tile;
           mret (add_subtotals totals subtotals))
        acc precincts = (tr, Ok totals) →
  ∃ outs,
    Forall2 (λ p o, score_precinct partial p tile = (o.1, Ok o.2)) precincts outs
    ∧ tr = concat outs.*1
    ∧ totals = foldl add_subtotals acc outs.*2.
Proof.
  revert acc tr. induction precincts as [|p ps IH]; intros acc tr Hrun.
  - rewrite foldM_nil in Hrun. injection Hrun as <- <-. by exists [].
  - rewrite foldM_cons in Hrun.
    apply bind_ok_inv in Hrun as (t1 & a & t2 & Hstep & Hrest & ->).
    apply bind_ok_inv in Hstep as (t3 & sub & t4 & Hp & Hret & ->).
    injection Hret as <- <-. apply IH in Hrest as (outs & Hall & -> & ->).
    exists ((t3, sub) :: outs). split; [by constructor|].
    cbn. by rewrite app_nil_r.
Qed.

(** A run of [score_district] that comes to its end. *)
Lemma score_district_inv d precincts tile tr totals :
  score_district d precincts tile = (tr, Ok totals) →
  (Disjoint d tile = true ∧ tr = [] ∧ totals = ∅)
  ∨ ∃ partial outs,
      Disjoint d tile = false ∧ Intersection d tile = Ok partial
      ∧ Forall2 (λ p o, score_precinct partial p tile = (o.1, Ok o.2))
                precincts outs
      ∧ tr = OgrIntersection d tile :: concat outs.*1
      ∧ totals = foldl add_subtotals ∅ outs.*2.
Proof.
  unfold score_district, ogr_Intersection, call.
  destruct (Disjoint d tile); [intros [= <- <-]; by left|].
  intros (t1 & partial & t2 & Hint & Hloop & ->)%bind_ok_inv.
  injection Hint as <- Hint.
  apply score_district_loop_inv in Hloop as (outs & Hall & -> & ->).
  right. by exists partial, outs.
Qed.

Lemma outs_rounded (partial : option G) tile precincts outs :
  Forall2 (λ p o, score_precinct partial p tile = (o.1, Ok o.2)) precincts outs →
  Forall (λ sub, rounded sub) outs.*2.
Proof.
  induction 1 as [|p [t sub] ps os Hp _ IH]; cbn; constructor; [|done].
  intros name v. by eapply score_precinct_rounded.
Qed.

Lemma fold_some acc subs name :
  is_Some (foldl add_subtotals acc subs !! name)
  ↔ is_Some (acc !! name) ∨ Exists (λ sub, is_Some (sub !! name)) subs.
Proof.
  revert acc. induction subs as [|sub subs IH]; intros acc; cbn.
  - rewrite Exists_nil. tauto.
  - rewrite IH, add_subtotals_lookup, Exists_cons.
    destruct (sub !! name) as [v|] eqn:Hv.
    + split; [intros _; right; left; by exists v|intros _; left; by eexists].
    + rewrite <- (not_eq_None_Some (None : option Q)). tauto.
Qed.

Lemma outs_names (partial : option G) tile precincts outs name :
  Forall2 (λ p o, score_precinct partial p tile = (o.1, Ok o.2)) precincts outs →
  Exists (λ sub, is_Some (sub !! name)) outs.*2
  ↔ name ∈ FIELD_NAMES ∧ Exists (λ p, is_Some (properties p !! name)) precincts.
Proof.
  induction 1 as [|p [t sub] ps os Hp _ IH]; cbn.
  - rewrite !Exists_nil. tauto.
  - rewrite !Exists_cons, IH. cbn in Hp.
    rewrite (score_precinct_names _ _ _ _ _ name Hp). tauto.
Qed.

Lemma outs_shares (partial : option G) tile precincts outs name :
  Forall2 (λ p o, score_precinct partial p tile = (o.1, Ok o.2)) precincts outs →
  (λ sub, default 0%Q (sub !! name)) <$> outs.*2
  = precinct_share partial tile name <$> precincts.
Proof.
  induction 1 as [|p [t sub] ps os Hp _ IH]; cbn; [done|].
  f_equal; [|done]. unfold precinct_share. cbn in Hp. by rewrite Hp.
Qed.

(** X4.  The totals of a district over a tile it meets have a value for
    exactly the names of FIELD_NAMES that some precinct of the tile has
    among its properties, whatever path each precinct took, and every
    value is a rounded number: rounding it again changes nothing. *)
Theorem score_district_names d precincts tile tr totals :
  Disjoint d tile = false →
  score_district d precincts tile = (tr, Ok totals) →
  (∀ name, is_Some (totals !! name)
           ↔ name ∈ FIELD_NAMES
             ∧ Exists (λ p, is_Some (properties p !! name)) precincts)
  ∧ (∀ name v, totals !! name = Some v → py_round ROUND_COUNT v = v).
Proof.
  intros Hdis Hrun.
  apply score_district_inv in Hrun
    as [(Hdis' & _)|(partial & outs & _ & _ & Hall & _ & ->)]; [congruence|].
  split.
  - intros name. rewrite fold_some, lookup_empty, (outs_names _ _ _ _ _ Hall).
    rewrite <- (not_eq_None_Some (None : option Q)). tauto.
  - apply fold_rounded. intros ? ?. by rewrite lookup_empty.
Qed.

(** X5.  Though [score_district] rounds the running total each time a
    precinct is added, nothing is lost: each total is exactly the sum of
    what [score_precinct] gives for that name, precinct by precinct, on
    the one partial district geometry. *)
Theorem score_district_sum d precincts tile (partial : option G) tr totals name :
  Disjoint d tile = false → Intersection d tile = Ok partial →
  score_district d precincts tile = (tr, Ok totals) →
  (default 0 (totals !! name)
   == Qsum (precinct_share partial tile name <$> precincts))%Q.
Proof.
  intros Hdis Hint Hrun.
  apply score_district_inv in Hrun
    as [(Hdis' & _)|(partial' & outs & _ & Hint' & Hall & _ & ->)]; [congruence|].
  assert (partial' = partial) as -> by congruence.
  rewrite fold_sum.
  - rewrite lookup_empty, (outs_shares _ _ _ _ _ Hall). cbn. ring.
  - intros ? ?. by rewrite lookup_empty.
  - by eapply outs_rounded.
Qed.

(** X6.  The order of the precincts of a tile does not matter to the
    totals: scoring any rearrangement of them gives the same totals, and
    the same geometry calls in another order after the first. *)
Theorem score_district_permutation d precincts precincts' tile tr totals :
  precincts ≡ₚ precincts' →
  score_district d precincts tile = (tr, Ok totals) →
  ∃ tr', score_district d precincts' tile = (tr', Ok totals) ∧ tr ≡ₚ tr'.
Proof.
  intros Hperm Hrun.
  apply score_district_inv in Hrun
    as [(Hdis & -> & ->)|(partial & outs & Hdis & Hint & Hall & -> & ->)].
  - exists []. unfold score_district. by rewrite Hdis.
  - destruct (Permutation_Forall2 Hperm Hall) as (outs' & Houts & Hall').
    exists (OgrIntersection d tile :: concat outs'.*1). split.
    + unfold score_district, ogr_Intersection, call.
      rewrite Hdis, Hint, bind_ok, (score_district_loop _ _ _ _ _ Hall').
      cbn [fst snd app]. do 2 f_equal. symmetry. apply fold_perm.
      * by apply fmap_Permutation.
      * by eapply outs_rounded.
    + constructor. apply concat_perm. by apply fmap_Permutation.
Qed.

(** X7.  [score_district] repairs nothing and skips nothing.  An error of
    the one intersection of district and tile ends it, after that single
    call, whatever its message; and the first precinct whose scoring
    raises ends it with that exception, after the calls made so far: no
    later precinct is looked at. *)
Theorem score_district_raises d precincts tile (e : exn) :
  Disjoint d tile = false →
  (Intersection d tile = Raise e →
   score_district d precincts tile = ([OgrIntersection d tile], Raise e))
  ∧ (∀ (partial : option G) scored outs p tr rest,
       Intersection d tile = Ok partial →
       precincts = scored ++ p :: rest →
       Forall2 (λ p o, score_precinct partial p tile = (o.1, Ok o.2)) scored outs →
       score_precinct partial p tile = (tr, Raise e) →
       score_district d precincts tile
       = (OgrIntersection d tile :: concat outs.*1 ++ tr, Raise e)).
Proof.
  intros Hdis. split.
  - intros Hint. unfold score_district, ogr_Intersection, call.
    by rewrite Hdis, Hint.
  - intros partial scored outs p tr rest Hint -> Hall Hp.
    assert (Hloop : ∀ acc : gmap string Q,
      foldM (λ totals precinct_feat,
               subtotals ← score_precinct partial precinct_feat tile;
               mret (add_subtotals totals subtotals))
            acc (scored ++ p :: rest) = (concat outs.*1 ++ tr, Raise e)).
    { induction Hall as [|q [t sub] qs os Hq _ IH]; intros acc.
      - cbn [app]. by rewrite foldM_cons, Hp.
      - cbn [app]. rewrite foldM_cons. cbn [fst snd] in Hq.
        rewrite Hq, bind_ok. cbn [fst snd mret M_ret ret]. rewrite bind_ok, IH.
        cbn. by rewrite app_nil_r, app_assoc. }
    unfold score_district, ogr_Intersection, call.
    by rewrite Hdis, Hint, bind_ok, Hloop.
Qed.
End ScoreDistrictMore.

(** ** Which calls are made *)

Lemma filter_none {A} (P : A → Prop) `{!∀ x, Decision (P x)} (l : list A) :
  Forall (λ x, ¬ P x) l → filter P l = [].
Proof.
  induction 1 as [|x l Hx _ IH]; [done|]. by rewrite filter_cons_False.
Qed.

Section LogFacts.
Context {E : Type}.

Lemma bind_log_Forall {A B} (P : E → Prop) (m : M E A) (k : A → M E B) :
  Forall P (fst m) → (∀ a, Forall P (fst (k a))) → Forall P (fst (m ≫= k)).
Proof.
  intros Hm Hk. destruct m as [t [a|e]]; [|done].
  rewrite bind_ok. cbn [fst] in *. apply Forall_app. split; [done|apply Hk].
Qed.

Lemma foldM_log_Forall {A B} (P : E → Prop) (f : A → B → M E A) (a : A)
    (l : list B) :
  (∀ a x, x ∈ l → Forall P (fst (f a x))) → Forall P (fst (foldM f a l)).
Proof.
  revert a. induction l as [|x l IH]; intros a Hf; [by constructor|].
  rewrite foldM_cons. apply bind_log_Forall.
  - apply Hf. by left.
  - intros a'. apply IH. intros a'' y Hy. apply Hf. by right.
Qed.

Lemma try_except_log_Forall {A} (P : E → Prop) (m : M E A) (h : exn → M E A) :
  Forall P (fst m) → (∀ e, Forall P (fst (h e))) →
  Forall P (fst (try_except m h)).
Proof.
  intros Hm Hh. destruct m as [t [a|e]]; [done|]. cbn [try_except].
  specialize (Hh e). destruct (h e) as [t' r]. cbn [fst] in *.
  apply Forall_app. by split.
Qed.
End LogFacts.

Section HandlerMore.
Context {G : Type} `{!OGR G} `{!Env G}.
Implicit Types (storage : Storage) (event : Event).

Lemma score_precinct_ogr_only pd feat tile :
  Forall (λ c, is_ogr_call c = true) (fst (score_precinct pd feat tile)).
Proof.
  unfold score_precinct.
  destruct (geometry feat) as [g|]; [|by constructor].
  destruct pd as [d|]; [|by constructor].
  destruct (IsEmpty g); [by constructor|]. destruct (IsEmpty d); [by constructor|].
  apply bind_log_Forall.
  { destruct (is_point_type _); [by constructor|].
    destruct (getitem _ _); by constructor. }
  intros [is_point frac]. destruct (py_eq_zero frac); [by constructor|].
  rewrite finish_no_calls.
  destruct (Within tile d); [by constructor|].
  destruct is_point; [by constructor|]. rewrite area_tail_no_calls.
  destruct (overlap_with_repair_calls g d) as (rest & -> & _ & Hrest).
  constructor; [done|]. eapply Forall_impl; [exact Hrest|].
  by intros [].
Qed.

Lemma score_district_ogr_only d precincts tile :
  Forall (λ c, is_ogr_call c = true) (fst (score_district d precincts tile)).
Proof.
  unfold score_district. destruct (Disjoint d tile); [by constructor|].
  apply bind_log_Forall; [by repeat constructor|]. intros partial.
  apply foldM_log_Forall. intros acc p _.
  apply bind_log_Forall; [apply score_precinct_ogr_only|by constructor].
Qed.

Lemma load_tile_precincts_log (s3 : S3Client) storage tile_zxy :
  fst (load_tile_precincts s3 storage tile_zxy)
  = [S3GetObject (storage_bucket storage)
       (storage_prefix storage +:+ "/" +:+ tile_zxy +:+ ".geojson")].
Proof.
  unfold load_tile_precincts, call.
  destruct (get_object s3 _ _) as [object|e].
  - rewrite bind_ok. cbn [try_except mret M_ret ret fst snd]. rewrite bind_ok.
    cbn [fst snd app]. f_equal.
    destruct (bool_decide _).
    + destruct (gzip_decompress _) as [body|?]; [|done]. rewrite bind_lift_ok.
      destruct (json_load body) as [geojson|?]; [|done]. by rewrite bind_lift_ok.
    + rewrite bind_ret.
      destruct (json_load _) as [geojson|?]; [|done]. by rewrite bind_lift_ok.
  - rewrite bind_raise. cbn [try_except].
    destruct e as [| | | | |code|]; try done.
    by destruct (String.eqb code "NoSuchKey").
Qed.
Lemma lambda_handler_load_log (s3 : S3Client) storage upload event :
  fst (lambda_handler_load s3 storage upload event) = []
  ∨ ∃ tile_zxy,
      fst (lambda_handler_load s3 storage upload event)
      = [S3GetObject (storage_bucket storage)
           (storage_prefix storage +:+ "/" +:+ tile_zxy +:+ ".geojson")].
Proof.
  unfold lambda_handler_load.
  destruct (upload_model upload) as [m|]; [|by left]. rewrite bind_lift_ok.
  destruct (get_tile_zxy _ _) as [tile_zxy|e]; [|by left]. rewrite bind_lift_ok.
  right. exists tile_zxy. rewrite fst_bind by done.
  apply load_tile_precincts_log.
Qed.

Lemma lambda_handler_score_no_put (s3 : S3Client) storage geoms_prefix tile_zxy
    (precincts : list (Feature G)) :
  Forall (λ c, is_put c = false)
    (fst (lambda_handler_score s3 storage geoms_prefix tile_zxy precincts)).
Proof.
  unfold lambda_handler_score, call.
  apply bind_log_Forall; [by repeat constructor|]. intros response.
  apply bind_log_Forall; [by constructor|]. intros geometry_keys.
  apply bind_log_Forall; [by constructor|]. intros tile_geom.
  apply foldM_log_Forall. intros acc key _.
  apply bind_log_Forall; [by repeat constructor|]. intros object.
  destruct (CreateGeometryFromWkt (Body object)) as [d|]; [|by constructor].
  destruct tile_geom as [tile|]; [|by constructor].
  apply bind_log_Forall; [|by constructor].
  eapply Forall_impl; [apply score_district_ogr_only|]. by intros [].
Qed.

(** The loop of lines 142-145 when it comes to its end. *)
Lemma lambda_handler_score_loop (s3 : S3Client) (bucket : string)
    (precincts : list (Feature G)) (tile_geom : option G) keys
    (acc totals : gmap string (gmap string Q)) tr :
  foldM (λ totals geometry_key,
           object ← call (S3GetObject bucket geometry_key)
                         (get_object s3 bucket geometry_key);
           match CreateGeometryFromWkt (Body object), tile_geom with
           | None, _ => raise AttributeError
           | Some _, None => raise (OtherError "Received a NULL pointer.")
           | Some district_geom, Some tile_geom =>
               district_totals ← score_district district_geom precincts tile_geom;
               mret (<[geometry_key := district_totals]> totals)
           end)
        acc keys = (tr, Ok totals) →
  filter (λ c, is_ogr_call c = false) tr = S3GetObject bucket <$> keys
  ∧ (∀ k, is_Some (totals !! k) ↔ is_Some (acc !! k) ∨ k ∈ keys)
  ∧ (∀ k dt, totals !! k = Some dt →
       acc !! k = Some dt
       ∨ ∃ object d tile t,
           get_object s3 bucket k = Ok object
           ∧ CreateGeometryFromWkt (Body object) = Some d
           ∧ tile_geom = Some tile
           ∧ score_district d precincts tile = (t, Ok dt)).
Proof.
  revert acc tr. induction keys as [|key keys IH]; intros acc tr Hrun.
  - rewrite foldM_nil in Hrun. injection Hrun as <- <-.
    split; [done|]. split; [|by left].
    intros k. rewrite elem_of_nil. tauto.
  - rewrite foldM_cons in Hrun.
    apply bind_ok_inv in Hrun as (t1 & acc' & t2 & Hstep & Hrest & ->).
    apply bind_ok_inv in Hstep as (t3 & object & t4 & Hget & Hstep & ->).
    unfold call in Hget. injection Hget as <- Hget.
    destruct (CreateGeometryFromWkt (Body object)) as [d|] eqn:Hd; [|done].
    destruct tile_geom as [tile|]; [|done].
    apply bind_ok_inv in Hstep as (t5 & dt' & t6 & Hscore & Hret & ->).
    injection Hret as <- <-.
    apply IH in Hrest as (Hlog & Hkeys & Hvals). split; [|split].
    + rewrite app_nil_r, <- !app_assoc, filter_app. cbn [app].
      rewrite filter_cons_True by done. rewrite filter_app, Hlog.
      rewrite (filter_none _ t5); [done|].
      pose proof (score_district_ogr_only d precincts tile) as Hogr.
      rewrite Hscore in Hogr. cbn [fst] in Hogr.
      eapply Forall_impl; [exact Hogr|]. intros c Hc. by rewrite Hc.
    + intros k. rewrite Hkeys, elem_of_cons.
      destruct (decide (k = key)) as [->|Hne].
      * rewrite lookup_insert_eq. split; [intros _; right; by left|].
        intros _. left. by eexists.
      * rewrite lookup_insert_ne by done. tauto.
    + intros k dt Hk. apply Hvals in Hk as [Hk|Hk]; [|by right].
      destruct (decide (k = key)) as [->|Hne].
      * rewrite lookup_insert_eq in Hk. injection Hk as ->.
        right. by exists object, d, tile, t5.
      * rewrite lookup_insert_ne in Hk by done. by left.
Qed.

(** X8.  [load_tile_precincts] asks S3 once, whatever comes of it, and
    its except clause covers that request alone: once the object is
    there, a body that cannot be gunzipped or parsed, or a document
    without 'features', ends the call with that very error. *)
Theorem load_tile_precincts_after_fetch (s3 : S3Client) storage tile_zxy :
  let key := storage_prefix storage +:+ "/" +:+ tile_zxy +:+ ".geojson" in
  fst (load_tile_precincts s3 storage tile_zxy)
  = [S3GetObject (storage_bucket storage) key]
  ∧ (∀ object e,
       get_object s3 (storage_bucket storage) key = Ok object →
       ContentEncoding object = Some "gzip" →
       gzip_decompress (Body object) = Raise e →
       snd (load_tile_precincts s3 storage tile_zxy) = Raise e)
  ∧ (∀ object body e,
       get_object s3 (storage_bucket storage) key = Ok object →
       (if bool_decide (ContentEncoding object = Some "gzip")
        then gzip_decompress (Body object) else Ok (Body object)) = Ok body →
       json_load body = Raise e →
       snd (load_tile_precincts s3 storage tile_zxy) = Raise e)
  ∧ (∀ object body geojson,
       get_object s3 (storage_bucket storage) key = Ok object →
       (if bool_decide (ContentEncoding object = Some "gzip")
        then gzip_decompress (Body object) else Ok (Body object)) = Ok body →
       json_load body = Ok geojson → geojson !! "features" = None →
       snd (load_tile_precincts s3 storage tile_zxy)
       = Raise (KeyError "features")).
Proof.
  intros key. split; [apply load_tile_precincts_log|].
  unfold load_tile_precincts, call. fold key. split; [|split].
  - intros object e -> Henc Hzip.
    rewrite bind_ok. cbn [try_except mret M_ret ret fst snd]. rewrite bind_ok.
    cbn [fst snd]. by rewrite bool_decide_eq_true_2, Hzip.
  - intros object body e -> Hbody Hjson.
    rewrite bind_ok. cbn [try_except mret M_ret ret fst snd]. rewrite bind_ok.
    cbn [fst snd]. destruct (bool_decide _).
    + by rewrite Hbody, bind_lift_ok, Hjson.
    + injection Hbody as ->. by rewrite bind_ret, Hjson.
  - intros object body geojson -> Hbody Hjson Hfeat.
    rewrite bind_ok. cbn [try_except mret M_ret ret fst snd]. rewrite bind_ok.
    cbn [fst snd]. unfold getitem. destruct (bool_decide _).
    + by rewrite Hbody, bind_lift_ok, Hjson, bind_lift_ok, Hfeat.
    + injection Hbody as ->. by rewrite bind_ret, Hjson, bind_lift_ok, Hfeat.
Qed.

(** X9.  When the tile cannot be named or its precincts cannot be loaded,
    [lambda_handler] writes nothing: the exception is caught, and the
    write that follows stops at the unbound [tile_key], so the caller
    sees an [UnboundLocalError] in place of the first error, after at
    most the one request for the tile. *)
Theorem lambda_handler_load_failure (s3 : S3Client) event (e : exn) :
  snd (lambda_handler_load s3 (event_storage event) (event_upload event) event)
  = Raise e →
  snd (lambda_handler s3 event) = Raise (UnboundLocalError "tile_key")
  ∧ Forall (λ c, is_put c = false) (fst (lambda_handler s3 event))
  ∧ length (fst (lambda_handler s3 event)) ≤ 1.
Proof.
  intros Hload. unfold lambda_handler.
  pose proof (lambda_handler_load_log s3 (event_storage event)
                (event_upload event) event) as Hlog.
  destruct (lambda_handler_load _ _ _ _) as [t1 r]. cbn [fst snd] in *.
  subst r. cbn [try_except raise]. rewrite app_nil_r, bind_raise. cbn [fst snd].
  split; [done|].
  destruct Hlog as [->|(zxy & ->)]; split; cbn; try lia; by repeat constructor.
Qed.

(** X10.  Once the tile's precincts are loaded, [lambda_handler] writes
    exactly once, at its very end and under the tile's key, whether the
    scoring ended well or not; the object holds the event, the number of
    precincts and the totals or the error's text; and the handler ends
    as that write ends. *)
Theorem lambda_handler_writes_once (s3 : S3Client) event
    (t1 : list (logged G)) (tile_zxy : string) (precincts : list (Feature G)) :
  let storage := event_storage event in
  let upload := event_upload event in
  let tile_key := UPLOAD_TILES_KEY (upload_id upload) tile_zxy in
  let geoms_prefix := UPLOAD_GEOMETRIES_DIR (upload_id upload) in
  let scored := lambda_handler_score s3 storage geoms_prefix tile_zxy precincts in
  let body := {| body_event := event; body_tile_key := tile_key;
                 body_geoms_prefix := geoms_prefix;
                 body_totals := match snd scored with
                                | Ok totals => TotalsMap totals
                                | Raise err => TotalsStr err
                                end;
                 body_precinct_count := length precincts |} in
  lambda_handler_load s3 storage upload event = (t1, Ok (tile_zxy, precincts)) →
  lambda_handler s3 event
  = (t1 ++ fst scored ++ [S3PutObject (storage_bucket storage) tile_key body],
     put_object s3 (storage_bucket storage) tile_key body)
  ∧ Forall (λ c, is_put c = false) (t1 ++ fst scored).
Proof.
  intros storage upload tile_key geoms_prefix scored body Hload. split.
  - unfold lambda_handler. fold storage upload. rewrite Hload.
    cbn [try_except]. rewrite bind_ok. cbn [fst snd].
    fold geoms_prefix tile_key scored. subst body.
    destruct scored as [t2 [totals|err]].
    + rewrite bind_ok. cbn [try_except mret M_ret ret fst snd].
      rewrite app_nil_r, bind_ok. by cbn [fst snd call].
    + rewrite bind_raise. cbn [try_except mret M_ret ret fst snd].
      rewrite app_nil_r, bind_ok. by cbn [fst snd call].
  - apply Forall_app. split; [|apply lambda_handler_score_no_put].
    pose proof (lambda_handler_load_log s3 storage upload event) as Hlog.
    rewrite Hload in Hlog. cbn [fst] in Hlog.
    destruct Hlog as [->|(zxy & ->)]; by repeat constructor.
Qed.

(** X11.  A scoring of a tile that comes to its end has listed the
    upload's geometries once and then fetched each listed key once, in
    the order of the listing; the totals have an entry for exactly the
    listed keys, and each entry is what [score_district] gives for the
    geometry stored under that key, the tile's precincts and the tile. *)
Theorem lambda_handler_score_requests (s3 : S3Client) storage
    (geoms_prefix tile_zxy : string) (precincts : list (Feature G))
    (tr : list (logged G)) (totals : gmap string (gmap string Q)) :
  lambda_handler_score s3 storage geoms_prefix tile_zxy precincts
  = (tr, Ok totals) →
  ∃ keys tile,
    list_objects s3 (storage_bucket storage) geoms_prefix = Ok (Some keys)
    ∧ tile_geometry tile_zxy = Ok tile
    ∧ filter (λ c, is_ogr_call c = false) tr
      = S3ListObjects (storage_bucket storage) geoms_prefix
        :: (S3GetObject (storage_bucket storage) <$> keys)
    ∧ (∀ k, is_Some (totals !! k) ↔ k ∈ keys)
    ∧ (∀ k dt, totals !! k = Some dt →
         ∃ object d tile_geom t,
           get_object s3 (storage_bucket storage) k = Ok object
           ∧ CreateGeometryFromWkt (Body object) = Some d
           ∧ tile = Some tile_geom
           ∧ score_district d precincts tile_geom = (t, Ok dt)).
Proof.
  unfold lambda_handler_score, call. intros Hrun.
  apply bind_ok_inv in Hrun as (t1 & response & t2 & Hlist & Hrun & ->).
  injection Hlist as <- Hlist.
  apply bind_ok_inv in Hrun as (t3 & keys & t4 & Hkeys & Hrun & ->).
  destruct response as [keys'|]; [|done]. injection Hkeys as <- <-.
  apply bind_ok_inv in Hrun as (t5 & tile & t6 & Htile & Hrun & ->).
  injection Htile as <- Htile.
  apply lambda_handler_score_loop in Hrun as (Hlog & Hdom & Hvals).
  exists keys', tile. split; [done|]. split; [done|]. split; [|split].
  - cbn [app]. by rewrite filter_cons_True, Hlog.
  - intros k. rewrite Hdom, lookup_empty.
    rewrite <- (not_eq_None_Some (None : option (gmap string Q))). tauto.
  - intros k dt Hk. apply Hvals in Hk as [Hk|Hk]; [by rewrite lookup_empty in Hk|].
    done.
Qed.
End HandlerMore.

(** ** iter_extent_tiles, by position *)

Lemma product_length {A B} (rows : list A) (columns : list B) :
  length (product rows columns) = length rows * length columns.
Proof.
  induction rows as [|r rows IH]; [done|].
  rewrite product_cons, length_app, length_fmap, IH. done.
Qed.

Lemma product_lookup {A B} (rows : list A) (columns : list B) (i j : nat)
    (r : A) (c : B) :
  rows !! i = Some r → columns !! j = Some c →
  product rows columns !! (i * length columns + j) = Some (r, c).
Proof.
  revert i. induction rows as [|r' rows IH]; intros i Hr Hc; [done|].
  rewrite product_cons. destruct i as [|i].
  - injection Hr as ->. change (0 * length columns + j) with j.
    rewrite lookup_app_l.
    + by rewrite list_lookup_fmap, Hc.
    + rewrite length_fmap. by eapply lookup_lt_Some.
  - rewrite lookup_app_r; rewrite length_fmap; [|lia].
    replace (S i * length columns + j - length columns)
      with (i * length columns + j) by lia.
    by apply IH.
Qed.

Section PrepareStateMore.
Context `{!Projection}.

(** X12.  [iter_extent_tiles] yields rows x columns tiles, where the
    rows and columns are those from the upper left corner tile of the
    extent to the lower right one; the tile at position
    i x columns + j is the one i rows below and j columns right of the
    upper left corner, at the zoom asked for; and an extent whose lower
    right corner lies above or left of the upper left one yields
    nothing, without an error. *)
Theorem iter_extent_tiles_index (xxyy_extent : Q * Q * Q * Q) (z : Z) :
  let ul := (extent_corners xxyy_extent z).1 in
  let lr := (extent_corners xxyy_extent z).2 in
  let rows := Z.to_nat (row lr + 1 - row ul) in
  let columns := Z.to_nat (column lr + 1 - column ul) in
  length (iter_extent_tiles xxyy_extent z) = rows * columns
  ∧ (∀ i j, i < rows → j < columns →
       (iter_extent_tiles xxyy_extent z).*1 !! (i * columns + j)
       = Some (mkCoordinate (row ul + Z.of_nat i) (column ul + Z.of_nat j) z)%Z)
  ∧ ((row lr < row ul)%Z ∨ (column lr < column ul)%Z →
     iter_extent_tiles xxyy_extent z = []).
Proof.
  intros ul lr rows columns. unfold iter_extent_tiles.
  destruct (extent_corners xxyy_extent z) as [ul' lr'] eqn:Hc.
  cbn [fst snd] in ul, lr. subst ul lr.
  assert (Hlen : length (extent_tile z <$> product (py_range (row ul') (row lr' + 1))
                           (py_range (column ul') (column lr' + 1)))
                 = rows * columns).
  { rewrite length_fmap, product_length. unfold py_range.
    by rewrite !length_seqZ. }
  split; [exact Hlen|]. split.
  - intros i j Hi Hj. rewrite <- list_fmap_compose, list_lookup_fmap.
    replace columns with (length (py_range (column ul') (column lr' + 1)))
      by (unfold py_range; by rewrite length_seqZ).
    rewrite (product_lookup _ _ i j (row ul' + Z.of_nat i)%Z
               (column ul' + Z.of_nat j)%Z); [done|..];
      unfold py_range; apply lookup_seqZ_lt; subst rows columns; lia.
  - intros Hinv. apply nil_length_inv. rewrite Hlen. subst rows columns.
    destruct Hinv; [replace (Z.to_nat (row lr' + 1 - row ul')) with 0 by lia
                   |replace (Z.to_nat (column lr' + 1 - column ul')) with 0 by lia];
      lia.
Qed.
End PrepareStateMore.

(** ** excerpt_feature *)

Section ExcerptFacts.
Context {G : Type} `{!OGR G} `{!OGRReproject G}.
Implicit Types (feature local_feature : OgrFeature G) (g b clipped : G).

Lemma py_div_ok (x y : Q) : ¬ (y == 0)%Q → py_div x y = Ok (x / y)%Q.
Proof.
  intros Hy. unfold py_div. destruct (Qeq_bool y 0) eqn:Hz; [|done].
  by apply Qeq_bool_iff in Hz.
Qed.

(** X13.  A feature that [excerpt_feature] returns has the geometry of
    the original cut to the box, by one intersection, and taken to
    EPSG:4326; every field but the fraction is as in the original; and
    the fraction never comes from the original: for a polygon or
    multipolygon it is the area of the new geometry over the area of the
    original one, which then is not zero, and for any other geometry the
    field is unset. *)
Theorem excerpt_feature_fields feature (bbox : option G) tr local_feature :
  excerpt_feature feature bbox = (tr, Ok local_feature) →
  ∃ g b clipped,
    geometry_ref feature = Some g ∧ bbox = Some b
    ∧ Intersection g b = Ok (Some clipped)
    ∧ tr = [OgrIntersection g b]
    ∧ geometry_ref local_feature = Some (TransformTo clipped EPSG4326)
    ∧ (∀ name, name ≠ FRACTION_FIELD →
         fields local_feature !! name = fields feature !! name)
    ∧ (if is_polygon_type (GetGeometryType g)
       then ¬ (Area g == 0)%Q
            ∧ fields local_feature !! FRACTION_FIELD
              = Some (PNum (Area (TransformTo clipped EPSG4326) / Area g))
       else fields local_feature !! FRACTION_FIELD = None).
Proof.
  unfold excerpt_feature, ogr_Intersection, call. intros Hrun.
  destruct (geometry_ref feature) as [g|]; [|done].
  destruct bbox as [b|]; [|done].
  apply bind_ok_inv in Hrun as (t1 & [clipped|] & t2 & Hint & Hrun & ->); [|done].
  injection Hint as <- Hint. exists g, b, clipped.
  destruct (is_polygon_type (GetGeometryType g)).
  - unfold py_div in Hrun. destruct (Qeq_bool (Area g) 0) eqn:Hz; [done|].
    rewrite bind_lift_ok in Hrun. injection Hrun as <- <-.
    repeat split; try done.
    + intros name Hne. cbn. by rewrite lookup_insert_ne.
    + intros Hzero. apply Qeq_bool_iff in Hzero. congruence.
    + cbn. by rewrite lookup_insert_eq.
  - injection Hrun as <- <-. repeat split; try done.
    + intros name Hne. cbn. by rewrite lookup_delete_ne.
    + cbn. by rewrite lookup_delete_eq.
Qed.

(** X14.  Given that the intersection with the box is computed,
    [excerpt_feature] fails in one case only: a polygon or multipolygon
    of no area, whose fraction would be a division by zero; the error
    comes after the intersection.  Every other feature gets its
    excerpt, a line or point of no area included. *)
Theorem excerpt_feature_zero_area feature g b clipped :
  geometry_ref feature = Some g → Intersection g b = Ok (Some clipped) →
  (is_polygon_type (GetGeometryType g) = true → (Area g == 0)%Q →
   excerpt_feature feature (Some b)
   = ([OgrIntersection g b], Raise (OtherError "float division by zero")))
  ∧ (is_polygon_type (GetGeometryType g) = false ∨ ¬ (Area g == 0)%Q →
     ∃ local_feature,
       excerpt_feature feature (Some b)
       = ([OgrIntersection g b], Ok local_feature)).
Proof.
  intros Hg Hint. unfold excerpt_feature, ogr_Intersection, call.
  rewrite Hg, Hint, bind_ok. cbn [fst snd]. split.
  - intros -> Hzero. unfold py_div.
    by rewrite (proj2 (Qeq_bool_iff _ _) Hzero).
  - intros Hcase. destruct (is_polygon_type (GetGeometryType g)).
    + destruct Hcase as [?|Hpos]; [done|].
      rewrite (py_div_ok _ _ Hpos), bind_lift_ok. by eexists.
    + by eexists.
Qed.
End ExcerptFacts.

Section ExcerptScore.
Context {G : Type} `{!OGR G} `{!OGRReproject G} `{!Env G}.

(** X15.  From preparation to scoring.  A polygon of the source layer
    that [excerpt_feature] cuts to a tile's box, read back as a precinct
    with the properties of the excerpt, and scored against a district
    geometry that contains the tile, counts for each listed attribute
    with the prepared fraction of the attribute's value: the area of the
    excerpt over the area of the original, times the value, rounded. *)
Theorem excerpt_feature_then_score (feature : OgrFeature G) (g b clipped : G)
    (feat : Feature G) (pg d tile : G) :
  geometry_ref feature = Some g → Intersection g b = Ok (Some clipped) →
  is_polygon_type (GetGeometryType g) = true → ¬ (Area g == 0)%Q →
  FRACTION_FIELD ∉ FIELD_NAMES → numeric_fields (fields feature) →
  geometry feat = Some pg → IsEmpty pg = false →
  is_point_type (GetGeometryType pg) = false →
  IsEmpty d = false → Within tile d = true →
  ∃ local_feature,
    excerpt_feature feature (Some b) = ([OgrIntersection g b], Ok local_feature)
    ∧ (properties feat = fields local_feature →
       ∃ totals,
         score_precinct (Some d) feat tile = ([], Ok totals)
         ∧ ∀ name, totals !! name
                   = share (Area (TransformTo clipped EPSG4326) / Area g)
                           (fields feature) name).
Proof.
  intros Hg Hint Hpoly Hpos Hfield Hnum Hpg Hpge Hpt Hde Htile.
  eexists. split.
  { unfold excerpt_feature, ogr_Intersection, call.
    rewrite Hg, Hint, bind_ok. cbn [fst snd].
    by rewrite Hpoly, (py_div_ok _ _ Hpos), bind_lift_ok. }
  cbn [fields]. intros Hprops.
  set (w := (Area (TransformTo clipped EPSG4326) / Area g)%Q) in *.
  assert (Hagree : ∀ name, name ∈ FIELD_NAMES →
            properties feat !! name = fields feature !! name).
  { intros name Hin. rewrite Hprops, lookup_insert_ne; [done|].
    intros <-. done. }
  assert (Hshare : ∀ x name,
            share x (properties feat) name = share x (fields feature) name).
  { intros x name. unfold share. case_decide; [|done]. by rewrite Hagree. }
  assert (Hnum' : numeric_fields (properties feat)).
  { intros name v Hin Hv. rewrite Hagree in Hv by done. by eapply Hnum. }
  assert (Hfrac : properties feat !! FRACTION_FIELD = Some (PNum w))
    by (rewrite Hprops; apply lookup_insert_eq).
  unfold score_precinct. rewrite Hpg, Hpge, Hde, Hpt. unfold getitem.
  rewrite Hfrac, bind_lift_ok, bind_ret.
  destruct (py_eq_zero (PNum w)) eqn:Hz.
  - exists (totals_init (properties feat)). split; [done|]. intros name.
    rewrite totals_init_lookup, <- Hshare.
    cbn [py_eq_zero as_num] in Hz. apply Qeq_bool_iff in Hz.
    rewrite (share_proper w 0 _ _ Hz). by rewrite share_zero.
  - rewrite Htile, bind_ret.
    destruct (weigh_totals_ok (properties feat) (PNum w) w eq_refl Hnum')
      as (totals & Hrun & Hlook).
    exists totals. split; [done|]. intros name. by rewrite Hlook, Hshare.
Qed.
End ExcerptScore.

(** ** Keys of tiles *)

Lemma string_app_cons (x : Ascii.ascii) (a b : string) :
  String x a +:+ b = String x (a +:+ b).
Proof. done. Qed.

Lemma string_app_assoc (a b c : string) : (a +:+ b) +:+ c = a +:+ b +:+ c.
Proof.
  induction a as [|x a IH]; [done|]. rewrite !string_app_cons. by f_equal.
Qed.

Lemma string_app_length (a b : string) :
  String.length (a +:+ b) = String.length a + String.length b.
Proof.
  induction a as [|x a IH]; [done|]. rewrite string_app_cons. cbn. by rewrite IH.
Qed.

Lemma string_app_inv_tail (a a' s : string) : a +:+ s = a' +:+ s → a = a'.
Proof.
  revert a'. induction a as [|x a IH]; intros [|x' a'] Heq.
  - done.
  - change (s = String x' (a' +:+ s)) in Heq.
    apply (f_equal String.length) in Heq. cbn in Heq.
    rewrite string_app_length in Heq. lia.
  - change (String x (a +:+ s) = s) in Heq.
    apply (f_equal String.length) in Heq. cbn in Heq.
    rewrite string_app_length in Heq. lia.
  - rewrite !string_app_cons in Heq. injection Heq as -> Heq.
    f_equal. by apply IH.
Qed.

Lemma has_slash_app (a b : string) :
  has_slash (a +:+ b) = has_slash a || has_slash b.
Proof.
  induction a as [|x a IH]; [done|]. rewrite string_app_cons. cbn.
  by rewrite IH, orb_assoc.
Qed.

Lemma pretty_N_char_no_slash (x : N) : Ascii.eqb (pretty_N_char x) slash = false.
Proof. unfold pretty_N_char. repeat case_match; reflexivity. Qed.

Lemma pretty_N_go_no_slash (x : N) (s : string) :
  has_slash (pretty_N_go x s) = has_slash s.
Proof.
  revert s. induction (N.lt_wf_0 x) as [x _ IH]; intros s.
  destruct (decide (x = 0%N)) as [->|Hx]; [by rewrite pretty_N_go_0|].
  rewrite pretty_N_go_step by lia. rewrite IH.
  - cbn. by rewrite pretty_N_char_no_slash.
  - apply N.div_lt; lia.
Qed.

Lemma pretty_Z_no_slash (z : Z) : has_slash (pretty z) = false.
Proof.
  assert (Hpos : ∀ p : positive, has_slash (pretty p) = false).
  { intros p. unfold pretty, pretty_positive, pretty, pretty_N.
    case_decide; [done|]. apply pretty_N_go_no_slash. }
  destruct z as [|p|p]; [done|apply Hpos|].
  change (pretty (Z.neg p)) with ("-" +:+ pretty p).
  rewrite has_slash_app. by rewrite Hpos.
Qed.

(** Two texts without a slash, each followed by a slash and more: equal
    wholes have equal parts. *)
Lemma slash_split (a a' b b' : string) :
  has_slash a = false → has_slash a' = false →
  a +:+ "/" +:+ b = a' +:+ "/" +:+ b' → a = a' ∧ b = b'.
Proof.
  change ("/" +:+ b) with (String slash b).
  change ("/" +:+ b') with (String slash b').
  revert a'. induction a as [|x a IH]; intros [|x' a'] Ha Ha' Heq;
    rewrite ?string_app_cons in Heq; cbn in Ha, Ha'.
  - by injection Heq as ->.
  - injection Heq as <- _. done.
  - injection Heq as -> _. done.
  - injection Heq as -> Heq.
    apply orb_false_iff in Ha as [_ Ha], Ha' as [_ Ha'].
    destruct (IH a' Ha Ha' Heq) as [-> ->]. done.
Qed.

Lemma format_zxy_inj (t t' : Coordinate Z) : format_zxy t = format_zxy t' → t = t'.
Proof.
  unfold format_zxy. intros Heq.
  apply slash_split in Heq as [Hz Heq]; [|apply pretty_Z_no_slash..].
  apply slash_split in Heq as [Hc Hr]; [|apply pretty_Z_no_slash..].
  apply (inj pretty) in Hz, Hc, Hr. destruct t, t'. cbn in *. by subst.
Qed.

Lemma KEY_FORMAT_inj (directory zxy zxy' : string) :
  KEY_FORMAT directory zxy = KEY_FORMAT directory zxy' → zxy = zxy'.
Proof.
  unfold KEY_FORMAT. intros Heq. do 3 apply String.app_inj in Heq.
  by apply string_app_inv_tail in Heq.
Qed.

Lemma product_NoDup {A B} (rows : list A) (columns : list B) :
  NoDup rows → NoDup columns → NoDup (product rows columns).
Proof.
  intros Hrows Hcols. induction Hrows as [|r rows Hr _ IH]; [constructor|].
  rewrite product_cons. apply NoDup_app. split; [|split; [|done]].
  - apply NoDup_fmap_2; [|done]. by intros c c' [= ->].
  - intros [r' c] Hin Hin'. apply list_elem_of_fmap in Hin as (c' & [= -> ->] & _).
    apply product_elem in Hin' as [Hin' _]. done.
Qed.

(** ** main *)

Lemma foldM_app {E A B} (f : A → B → M E A) (a : A) (l1 l2 : list B) :
  foldM f a (l1 ++ l2) = (foldM f a l1 ≫= λ a', foldM f a' l2).
Proof.
  revert a. induction l1 as [|x l1 IH]; intros a.
  - cbn [app]. by rewrite foldM_nil, bind_ret.
  - cbn [app]. rewrite !foldM_cons. destruct (f a x) as [t [a'|e]]; [|done].
    rewrite !bind_ok, IH.
    destruct (foldM f a' l1) as [t' [a''|e]]; cbn [fst snd].
    + unfold mbind, M_bind, bind. destruct (foldM f a'' l2) as [t2 r2].
      cbn. by rewrite app_assoc.
    + done.
Qed.

Section MainFacts.
Context {G : Type} `{!OGR G} `{!OGRReproject G} `{!PrepEnv G} `{!Projection}.
Implicit Types (args : Args) (layer : Layer G) (tile : Coordinate Z)
  (tiles : list (Coordinate Z * BBox)) (tr : list (prepared G)).

Lemma outputs_app tr tr' : outputs (tr ++ tr') = outputs tr ++ outputs tr'.
Proof. apply omap_app. Qed.

Lemma outputs_geometry tr :
  Forall (λ c, ∃ g, c = Geometry g) tr → outputs tr = [].
Proof. induction 1 as [|c tr [g ->] _ IH]; [done|]. exact IH. Qed.

Lemma tile_features_json_outputs layer (bbox_geom : option G) :
  outputs (fst (tile_features_json layer bbox_geom)) = [].
Proof.
  apply outputs_geometry. unfold tile_features_json.
  apply foldM_log_Forall. intros acc feature _.
  apply bind_log_Forall; [|by constructor].
  unfold relog. cbn [fst]. apply Forall_fmap, Forall_true. intros c. by exists c.
Qed.

Lemma features_json_loop_length (bbox_geom : option G)
    (l : list (OgrFeature G)) (acc : list string) tr features_json :
  foldM (λ features_json feature,
           local_feature ← relog (excerpt_feature feature bbox_geom);
           mret (features_json ++ [ExportToJson local_feature]))
        acc l = (tr, Ok features_json) →
  length features_json = length acc + length l.
Proof.
  revert tr acc. induction l as [|feature l IH]; intros tr acc Hrun.
  - rewrite foldM_nil in Hrun. injection Hrun as _ <-. cbn. lia.
  - rewrite foldM_cons in Hrun.
    apply bind_ok_inv in Hrun as (t1 & acc' & t2 & Hstep & Hrest & ->).
    apply bind_ok_inv in Hstep as (t3 & f & t4 & _ & Hret & _).
    injection Hret as _ <-. apply IH in Hrest. rewrite Hrest, length_app. cbn. lia.
Qed.

Lemma tile_features_json_length layer (bbox_geom : option G) tr features_json :
  tile_features_json layer bbox_geom = (tr, Ok features_json) →
  length features_json = length (filtered_features layer bbox_geom).
Proof. intros Hrun. by apply features_json_loop_length in Hrun. Qed.

(** What one tile leaves behind: nothing, or one object under its key. *)
Lemma write_tile_outputs args tile (features_json : list string) :
  outputs (fst (write_tile args tile features_json))
  = match features_json with
    | [] => []
    | _ :: _ =>
        let buffer := collection_text features_json in
        let key := KEY_FORMAT (args_directory args) (format_zxy tile) in
        [if args_s3 args then PutTile "planscore" key (gzip_compress buffer)
         else WriteFile key buffer]
    end.
Proof.
  unfold write_tile. destruct features_json as [|j js]; [done|].
  by destruct (args_s3 args).
Qed.

Lemma main_tile_outputs args layer tile (bbox : BBox) :
  outputs (fst (main_tile args layer tile bbox)) = []
  ∨ ∃ w, outputs (fst (main_tile args layer tile bbox)) = [w]
         ∧ written_key w = KEY_FORMAT (args_directory args) (format_zxy tile).
Proof.
  unfold main_tile. cbv zeta.
  pose proof (tile_features_json_outputs layer
                (CreateGeometryFromWkt (wkt_format bbox))) as Hout.
  destruct (tile_features_json _ _) as [t [js|e]]; cbn [fst] in Hout.
  - rewrite bind_ok. cbn [fst]. rewrite outputs_app, Hout, write_tile_outputs.
    destruct js as [|j js]; [by left|]. right. eexists. split; [done|].
    by destruct (args_s3 args).
  - left. by rewrite bind_raise.
Qed.

Lemma main_loop_sublist args layer tiles (u : ()) :
  written_key
    <$> outputs (fst (foldM (λ _ tile_bbox,
                               main_tile args layer tile_bbox.1 tile_bbox.2)
                            u tiles))
  `sublist_of`
  ((λ tb, KEY_FORMAT (args_directory args) (format_zxy tb.1)) <$> tiles).
Proof.
  revert u. induction tiles as [|[tile bbox] tiles IH]; intros u; [done|].
  rewrite foldM_cons, fmap_cons.
  pose proof (main_tile_outputs args layer tile bbox) as Hstep. cbn [fst snd].
  destruct (main_tile args layer tile bbox) as [t [u'|e]]; cbn [fst] in Hstep.
  - rewrite bind_ok. cbn [fst]. rewrite outputs_app, fmap_app.
    destruct Hstep as [->|(w & -> & Hkey)].
    + apply sublist_cons, IH.
    + cbn. rewrite Hkey. apply sublist_skip, IH.
  - rewrite bind_raise. cbn [fst].
    destruct Hstep as [->|(w & -> & Hkey)].
    + apply sublist_nil_l.
    + cbn. rewrite Hkey. apply sublist_skip, sublist_nil_l.
Qed.

Lemma main_loop_inv args layer tiles (u : ()) tr :
  foldM (λ _ tile_bbox, main_tile args layer tile_bbox.1 tile_bbox.2) u tiles
  = (tr, Ok ()) →
  written_key <$> outputs tr
  = (λ tb, KEY_FORMAT (args_directory args) (format_zxy tb.1))
    <$> filter (λ tb, 0 < length (filtered_features layer
                                    (CreateGeometryFromWkt (wkt_format tb.2))))
               tiles
  ∧ Forall (λ w, match w with
                 | PutTile bucket _ _ => args_s3 args = true ∧ bucket = "planscore"
                 | WriteFile _ _ => args_s3 args = false
                 end) (outputs tr).
Proof.
  revert u tr. induction tiles as [|[tile bbox] tiles IH]; intros u tr Hrun.
  - rewrite foldM_nil in Hrun. injection Hrun as <-. split; [done|constructor].
  - rewrite foldM_cons in Hrun.
    apply bind_ok_inv in Hrun as (t1 & u' & t2 & Hstep & Hrest & ->).
    apply IH in Hrest as [Hkeys Hkinds]. cbn [fst snd] in Hstep.
    unfold main_tile in Hstep. cbv zeta in Hstep.
    apply bind_ok_inv in Hstep as (t3 & js & t4 & Hjson & Hwrite & ->).
    pose proof (tile_features_json_outputs layer
                  (CreateGeometryFromWkt (wkt_format bbox))) as Hout.
    pose proof (tile_features_json_length _ _ _ _ Hjson) as Hlen.
    pose proof (write_tile_outputs args tile js) as Hw.
    rewrite Hjson in Hout. rewrite Hwrite in Hw. cbn [fst] in Hout, Hw.
    rewrite !outputs_app, Hout, Hw, fmap_app, Hkeys. cbn [app].
    destruct js as [|j js].
    + rewrite filter_cons_False by (cbn [snd]; rewrite <- Hlen; cbn; lia).
      done.
    + rewrite filter_cons_True by (cbn [snd]; rewrite <- Hlen; cbn; lia).
      split.
      * cbn. f_equal. by destruct (args_s3 args).
      * constructor; [|done]. by destruct (args_s3 args).
Qed.

(** X16.  A run of [main] that comes to its end has written one object
    for each tile of the layer's extent that selects a feature, and
    nothing for the others, in the order of the tiles; each lies under
    data/, the directory asked for, and the tile's zoom/column/row, with
    .geojson at the end; and all are in the bucket planscore with --s3,
    and all are files without it. *)
Theorem main_outputs args layer tr :
  ogr_Open (args_filename args) = Some layer →
  main args = (tr, Ok ()) →
  written_key <$> outputs tr
  = (λ tb, KEY_FORMAT (args_directory args) (format_zxy tb.1))
    <$> filter (λ tb, 0 < length (filtered_features layer
                                    (CreateGeometryFromWkt (wkt_format tb.2))))
               (iter_extent_tiles (GetExtent layer) (args_zoom args))
  ∧ Forall (λ w, match w with
                 | PutTile bucket _ _ => args_s3 args = true ∧ bucket = "planscore"
                 | WriteFile _ _ => args_s3 args = false
                 end) (outputs tr).
Proof.
  intros Hopen. unfold main. rewrite Hopen. apply main_loop_inv.
Qed.

(** X17.  Whatever [main] is given and however its run ends, no two of
    the objects it writes share a key: no tile overwrites another. *)
Theorem main_keys_distinct args :
  NoDup (written_key <$> outputs (fst (main args))).
Proof.
  unfold main. destruct (ogr_Open (args_filename args)) as [layer|];
    [|constructor].
  eapply sublist_NoDup; [|apply main_loop_sublist].
  unfold iter_extent_tiles.
  destruct (extent_corners (GetExtent layer) (args_zoom args)) as [ul lr].
  rewrite <- list_fmap_compose. apply NoDup_fmap_2_strong.
  - intros [r c] [r' c'] _ _ Heq. cbn in Heq.
    apply KEY_FORMAT_inj, format_zxy_inj in Heq. by injection Heq as -> ->.
  - apply product_NoDup; apply NoDup_seqZ.
Qed.
Lemma main_loop_ok args layer tiles (u : ()) :
  (∀ bucket key body, s3_put_tile bucket key body = Ok ()) →
  (∀ path content, write_file path content = Ok ()) →
  Forall (λ tb, ∃ t js, tile_features_json layer
                          (CreateGeometryFromWkt (wkt_format tb.2))
                        = (t, Ok js)) tiles →
  ∃ tr,
    foldM (λ _ tile_bbox, main_tile args layer tile_bbox.1 tile_bbox.2) u tiles
    = (tr, Ok ()).
Proof.
  intros Hput Hfile Hall. revert u.
  induction Hall as [|[tile bbox] tiles (t & js & Hjson) _ IH]; intros u.
  - destruct u. by exists [].
  - cbn [snd] in Hjson.
    assert (Hwrite : ∃ t', write_tile args tile js = (t', Ok ())).
    { unfold write_tile, call. destruct js as [|j js]; [by exists []|].
      destruct (args_s3 args); [rewrite Hput|rewrite Hfile]; by eexists. }
    destruct Hwrite as (t' & Hwrite). destruct (IH ()) as (tr & Hrest).
    assert (Hstep : main_tile args layer tile bbox = (t ++ t', Ok ())).
    { unfold main_tile. cbv zeta. by rewrite Hjson, bind_ok, Hwrite. }
    exists ((t ++ t') ++ tr). rewrite foldM_cons. cbn [fst snd].
    by rewrite Hstep, bind_ok, Hrest.
Qed.

(** X19.  [main] handles no error.  When the features of a tile cannot
    all be excerpted, the run ends there with that error: the tiles
    before it that selected a feature have been written, and this tile
    and those after it have not. *)
Theorem main_first_error args layer before tile (bbox : BBox) after (e : exn) :
  ogr_Open (args_filename args) = Some layer →
  iter_extent_tiles (GetExtent layer) (args_zoom args)
  = before ++ (tile, bbox) :: after →
  (∀ bucket key body, s3_put_tile bucket key body = Ok ()) →
  (∀ path content, write_file path content = Ok ()) →
  Forall (λ tb, ∃ t js, tile_features_json layer
                          (CreateGeometryFromWkt (wkt_format tb.2))
                        = (t, Ok js)) before →
  snd (tile_features_json layer (CreateGeometryFromWkt (wkt_format bbox)))
  = Raise e →
  snd (main args) = Raise e
  ∧ written_key <$> outputs (fst (main args))
    = (λ tb, KEY_FORMAT (args_directory args) (format_zxy tb.1))
      <$> filter (λ tb, 0 < length (filtered_features layer
                                      (CreateGeometryFromWkt (wkt_format tb.2))))
                 before.
Proof.
  intros Hopen Htiles Hput Hfile Hbefore Hfail. unfold main.
  rewrite Hopen, Htiles, foldM_app.
  destruct (main_loop_ok args layer before () Hput Hfile Hbefore) as (tr & Hrun).
  pose proof (tile_features_json_outputs layer
                (CreateGeometryFromWkt (wkt_format bbox))) as Hout.
  assert (Hstep : ∃ t, main_tile args layer tile bbox = (t, Raise e)
                       ∧ outputs t = []).
  { unfold main_tile. cbv zeta.
    destruct (tile_features_json layer _) as [t r]. cbn [fst snd] in Hfail, Hout.
    subst r. by exists t. }
  destruct Hstep as (t & Hstep & Ht).
  rewrite Hrun, bind_ok, foldM_cons. cbn [fst snd].
  rewrite Hstep, !bind_raise. cbn [fst snd]. split; [done|].
  rewrite outputs_app, Ht, app_nil_r.
  by apply main_loop_inv in Hrun as [Hkeys _].
Qed.
End MainFacts.

Section PreparedAndLoaded.
Context {G : Type} `{!OGR G} `{!Env G}.

(** X18.  The tile that [main] writes for a directory is the object
    that [load_tile_precincts] asks for: with the storage prefix
    data/ and the directory, and the tile named zoom/column/row, the one
    request is for the very key of [KEY_FORMAT]. *)
Theorem prepared_key_is_loaded_key (s3 : S3Client) (storage : Storage)
    (directory : string) (tile : Coordinate Z) :
  storage_prefix storage = "data/" +:+ directory →
  fst (load_tile_precincts s3 storage (format_zxy tile))
  = [S3GetObject (storage_bucket storage)
       (KEY_FORMAT directory (format_zxy tile))].
Proof.
  intros Hprefix. rewrite load_tile_precincts_log, Hprefix.
  unfold KEY_FORMAT. by rewrite string_app_assoc.
Qed.
End PreparedAndLoaded.

(** ** The further facts at the fixtures *)

Import PlanarPrepare.

(** An equation between closed terms, settled by evaluating them. *)
Ltac by_evaluation :=
  lazymatch goal with
  | |- ?a = ?b => vm_cast_no_check (@eq_refl _ b)
  end.

(** A block point builds no geometry; the half precinct against the cut
    district opens with the one intersection. *)
Lemma score_precinct_calls_witness :
  fst (score_precinct (Some cut_partial) (blockpoint inner_point) tile_2049_2046)
  = []
  ∧ ∃ rest,
      fst (score_precinct (Some cut_partial) (half_precinct precinct_box)
             tile_2049_2046)
      = OgrIntersection precinct_box cut_partial :: rest
      ∧ length rest ≤ 2.
Proof.
  split.
  - apply (proj1 (score_precinct_calls (Some cut_partial) (blockpoint inner_point)
                    tile_2049_2046)).
    right. exists inner_point, cut_partial.
    split; [reflexivity|]. split; [reflexivity|]. left. reflexivity.
  - apply (proj2 (score_precinct_calls (Some cut_partial)
                    (half_precinct precinct_box) tile_2049_2046)
             precinct_box cut_partial (PNum (1 # 2)));
      reflexivity.
Defined.

(** A fraction that is a text: a type error, with the tile inside the
    district and with the district cutting through. *)
Lemma score_precinct_fraction_not_a_number_witness :
  score_precinct (Some whole_district) mislabeled_precinct tile_2049_2046
  = ([], Raise TypeError)
  ∧ score_precinct (Some cut_partial) mislabeled_precinct tile_2049_2046
    = ([OgrIntersection precinct_box cut_partial], Raise TypeError).
Proof.
  destruct (score_precinct_fraction_not_a_number mislabeled_precinct precinct_box
              whole_district tile_2049_2046 (PStr "half"))
    as (Hin & _ & _); try reflexivity.
  destruct (score_precinct_fraction_not_a_number mislabeled_precinct precinct_box
              cut_partial tile_2049_2046 (PStr "half"))
    as (_ & _ & Hcut & _); try reflexivity.
  split.
  - apply Hin; [reflexivity|]. exists "Voters". split; [by left|].
    exists (PNum 1). reflexivity.
  - apply (Hcut eq_refl cut_overlap); [reflexivity|]. by vm_compute.
Defined.

(** The half precinct, cut in half again by the district: its one voter
    counts for something between 0 and 1. *)
Lemma score_precinct_bounds_witness :
  ∃ tr totals,
    score_precinct (Some cut_partial) (half_precinct precinct_box) tile_2049_2046
    = (tr, Ok totals)
    ∧ ∃ t, totals !! "Voters" = Some t ∧ (0 <= t <= py_round 4 1)%Q.
Proof.
  destruct (score_precinct_bounds (half_precinct precinct_box) precinct_box
              cut_partial tile_2049_2046 (PNum (1 # 2)) (1 # 2))
    as (tr & totals & Hrun & Hbound); try reflexivity.
  - split; by vm_compute.
  - right. exists cut_overlap. split; [reflexivity|]. split; by vm_compute.
  - apply half_precinct_numeric.
  - exists tr, totals. split; [exact Hrun|].
    apply (Hbound "Voters" (PNum 1)); [by left|reflexivity|by vm_compute].
Defined.

(** The district cut through the half precinct, with a block point
    beside it: one name, one rounded total. *)
Lemma score_district_names_witness :
  (is_Some (({[ "Voters" := (5 # 4)%Q ]} : gmap string Q) !! "Voters")
   ↔ "Voters" ∈ FIELD_NAMES (G := shape)
     ∧ Exists (λ p, is_Some (properties p !! "Voters"))
         [half_precinct precinct_box; blockpoint (Point (1 # 10) (1 # 10))])
  ∧ py_round 4 (5 # 4) = (5 # 4)%Q.
Proof.
  destruct (score_district_names cut_district
              [half_precinct precinct_box; blockpoint (Point (1 # 10) (1 # 10))]
              tile_2049_2046
              [OgrIntersection cut_district tile_2049_2046;
               OgrIntersection precinct_box cut_partial]
              {[ "Voters" := (5 # 4)%Q ]}) as [Hnames Hround];
    [reflexivity | by vm_compute |].
  split; [apply Hnames|]. apply (Hround "Voters"). reflexivity.
Defined.

(** The same district: a quarter from the precinct and one from the
    point. *)
Lemma score_district_sum_witness :
  (default 0 (({[ "Voters" := (5 # 4)%Q ]} : gmap string Q) !! "Voters")
   == Qsum (precinct_share (Some cut_partial) tile_2049_2046 "Voters"
            <$> [half_precinct precinct_box;
                 blockpoint (Point (1 # 10) (1 # 10))]))%Q.
Proof.
  apply (score_district_sum cut_district
           [half_precinct precinct_box; blockpoint (Point (1 # 10) (1 # 10))]
           tile_2049_2046 (Some cut_partial)
           [OgrIntersection cut_district tile_2049_2046;
            OgrIntersection precinct_box cut_partial]);
    [reflexivity | reflexivity | by vm_compute].
Defined.

(** The point first and the precinct second: the same total. *)
Lemma score_district_permutation_witness :
  ∃ tr',
    score_district cut_district
      [blockpoint (Point (1 # 10) (1 # 10)); half_precinct precinct_box]
      tile_2049_2046
    = (tr', Ok {[ "Voters" := (5 # 4)%Q ]})
    ∧ [OgrIntersection cut_district tile_2049_2046;
       OgrIntersection precinct_box cut_partial] ≡ₚ tr'.
Proof.
  apply (score_district_permutation cut_district
           [half_precinct precinct_box; blockpoint (Point (1 # 10) (1 # 10))]).
  - apply perm_swap.
  - by vm_compute.
Defined.

(** A district with its ring out of order is not repaired; and a
    precinct without a fraction ends the scoring before the block point
    after it is looked at. *)
Lemma score_district_raises_witness :
  score_district (OGR0 := bowtie_ogr) bowtie_precinct
    [half_precinct precinct_box] tile_2049_2046
  = ([OgrIntersection bowtie_precinct tile_2049_2046],
     Raise (RuntimeError topology_message))
  ∧ score_district cut_district
      [half_precinct precinct_box; unweighted_precinct;
       blockpoint (Point (1 # 10) (1 # 10))]
      tile_2049_2046
    = ([OgrIntersection cut_district tile_2049_2046;
        OgrIntersection precinct_box cut_partial],
       Raise (KeyError FRACTION_FIELD)).
Proof.
  split.
  - destruct (score_district_raises (OGR0 := bowtie_ogr) bowtie_precinct
                [half_precinct precinct_box] tile_2049_2046
                (RuntimeError topology_message)) as [Hint _]; [reflexivity|].
    apply Hint. reflexivity.
  - destruct (score_district_raises cut_district
                [half_precinct precinct_box; unweighted_precinct;
                 blockpoint (Point (1 # 10) (1 # 10))]
                tile_2049_2046 (KeyError FRACTION_FIELD)) as [_ Hprecinct];
      [reflexivity|].
    apply (Hprecinct (Some cut_partial) [half_precinct precinct_box]
             [([OgrIntersection precinct_box cut_partial],
               {[ "Voters" := (1 # 4)%Q ]})]
             unweighted_precinct [] [blockpoint (Point (1 # 10) (1 # 10))]).
    + reflexivity.
    + reflexivity.
    + repeat constructor.
    + by vm_compute.
Defined.

(** A body marked gzip that is not gzipped, a body that is not JSON, and
    a document without 'features'. *)
Lemma load_tile_precincts_after_fetch_witness :
  snd (load_tile_precincts (bucket_s3 broken_gzip) storage "12/2049/2046")
  = Raise (OtherError "Not a gzipped file")
  ∧ snd (load_tile_precincts (bucket_s3 broken_json) storage "12/2049/2046")
    = Raise (OtherError "Expecting value")
  ∧ snd (load_tile_precincts (Env0 := featureless_env) (bucket_s3 gzipped_tile)
           storage "12/2049/2046")
    = Raise (KeyError "features").
Proof.
  destruct (load_tile_precincts_after_fetch (bucket_s3 broken_gzip) storage
              "12/2049/2046") as (_ & Hzip & _ & _).
  destruct (load_tile_precincts_after_fetch (bucket_s3 broken_json) storage
              "12/2049/2046") as (_ & _ & Hjson & _).
  destruct (load_tile_precincts_after_fetch (Env0 := featureless_env)
              (bucket_s3 gzipped_tile) storage "12/2049/2046")
    as (_ & _ & _ & Hfeat).
  split; [|split].
  - apply (Hzip broken_gzip); reflexivity.
  - apply (Hjson broken_json "<html>"); reflexivity.
  - apply (Hfeat gzipped_tile "gzip:features" ∅); reflexivity.
Defined.

(** A bucket that refuses to be read: nothing is written, and the caller
    sees the unbound name. *)
Lemma lambda_handler_load_failure_witness :
  snd (lambda_handler denied_s3 tile_event) = Raise (UnboundLocalError "tile_key")
  ∧ Forall (λ c, is_put c = false) (fst (lambda_handler denied_s3 tile_event))
  ∧ length (fst (lambda_handler denied_s3 tile_event)) ≤ 1.
Proof.
  apply (lambda_handler_load_failure denied_s3 tile_event
           (ClientError "AccessDenied")).
  by vm_compute.
Defined.

(** The tile of the tests, scored: one write, at the end. *)
Lemma lambda_handler_writes_once_witness :
  snd (lambda_handler (bucket_s3 gzipped_tile) tile_event) = Ok ()
  ∧ Forall (λ c, is_put c = false)
      ([S3GetObject "planscore" "data/XX/12/2049/2046.geojson"]
       ++ fst (lambda_handler_score (bucket_s3 gzipped_tile) storage
                 "uploads/ID/geometries" "12/2049/2046"
                 [half_precinct precinct_box])).
Proof.
  pose proof (lambda_handler_writes_once (bucket_s3 gzipped_tile) tile_event
                [S3GetObject "planscore" "data/XX/12/2049/2046.geojson"]
                "12/2049/2046" [half_precinct precinct_box]) as Hrun.
  cbv zeta in Hrun. destruct Hrun as [Hrun Hnoput]; [by vm_compute|].
  split; [by rewrite Hrun|exact Hnoput].
Defined.

(** The same tile: one listing, one geometry fetched, one entry. *)
Lemma lambda_handler_score_requests_witness :
  ∃ keys tile,
    list_objects (bucket_s3 gzipped_tile) "planscore" "uploads/ID/geometries"
    = Ok (Some keys)
    ∧ tile_geometry "12/2049/2046" = Ok tile
    ∧ filter (λ c, is_ogr_call c = false)
        [S3ListObjects "planscore" "uploads/ID/geometries";
         S3GetObject "planscore" "uploads/ID/geometries/0.wkt";
         OgrIntersection whole_district tile_2049_2046]
      = S3ListObjects "planscore" "uploads/ID/geometries"
        :: (S3GetObject "planscore" <$> keys)
    ∧ (∀ k, is_Some (({[ "uploads/ID/geometries/0.wkt"
                         := {[ "Voters" := (1 # 2)%Q ]} ]}
                      : gmap string (gmap string Q)) !! k) ↔ k ∈ keys)
    ∧ (∀ k dt,
         ({[ "uploads/ID/geometries/0.wkt" := {[ "Voters" := (1 # 2)%Q ]} ]}
          : gmap string (gmap string Q)) !! k = Some dt →
         ∃ object d tile_geom t,
           get_object (bucket_s3 gzipped_tile) "planscore" k = Ok object
           ∧ CreateGeometryFromWkt (Body object) = Some d
           ∧ tile = Some tile_geom
           ∧ score_district d [half_precinct precinct_box] tile_geom
             = (t, Ok dt)).
Proof.
  apply (lambda_handler_score_requests (bucket_s3 gzipped_tile) storage
           "uploads/ID/geometries" "12/2049/2046" [half_precinct precinct_box]).
  by_evaluation.
Defined.

(** The octant at zoom 2: four tiles, the last of them 2/3/2; and the
    octant with west and east exchanged: none. *)
Lemma iter_extent_tiles_index_witness :
  length (iter_extent_tiles octant 2) = 4
  ∧ (iter_extent_tiles octant 2).*1 !! 3 = Some (mkCoordinate 2 3 2)%Z
  ∧ iter_extent_tiles (90, 0, 0, 45)%Q 2 = [].
Proof.
  pose proof (iter_extent_tiles_index octant 2) as Hoct.
  pose proof (iter_extent_tiles_index (90, 0, 0, 45)%Q 2) as Hinv.
  cbv zeta in Hoct, Hinv.
  destruct Hoct as (Hlen & Hidx & _). destruct Hinv as (_ & _ & Hinv).
  split; [exact Hlen|]. split.
  - apply (Hidx 1 1); vm_compute; lia.
  - apply Hinv. right. reflexivity.
Defined.

(** The wide precinct cut to the tile: the stale fraction is replaced. *)
Lemma excerpt_feature_fields_witness :
  ∃ g b clipped,
    geometry_ref (source_feature wide_precinct) = Some g
    ∧ Some tile_2049_2046 = Some b
    ∧ Intersection g b = Ok (Some clipped)
    ∧ [OgrIntersection wide_precinct tile_2049_2046] = [OgrIntersection g b]
    ∧ geometry_ref wide_excerpt = Some (TransformTo clipped EPSG4326)
    ∧ (∀ name, name ≠ FRACTION_FIELD →
         fields wide_excerpt !! name
         = fields (source_feature wide_precinct) !! name)
    ∧ (if is_polygon_type (GetGeometryType g)
       then ¬ (Area g == 0)%Q
            ∧ fields wide_excerpt !! FRACTION_FIELD
              = Some (PNum (Area (TransformTo clipped EPSG4326) / Area g))
       else fields wide_excerpt !! FRACTION_FIELD = None).
Proof.
  apply (excerpt_feature_fields (source_feature wide_precinct)
           (Some tile_2049_2046) [OgrIntersection wide_precinct tile_2049_2046]
           wide_excerpt).
  by vm_compute.
Defined.

(** A polygon collapsed onto a segment stops the excerpt; the wide
    precinct does not. *)
Lemma excerpt_feature_zero_area_witness :
  excerpt_feature (source_feature sliver) (Some tile_2049_2046)
  = ([OgrIntersection sliver tile_2049_2046],
     Raise (OtherError "float division by zero"))
  ∧ ∃ local_feature,
      excerpt_feature (source_feature wide_precinct) (Some tile_2049_2046)
      = ([OgrIntersection wide_precinct tile_2049_2046], Ok local_feature).
Proof.
  destruct (excerpt_feature_zero_area (source_feature sliver) sliver
              tile_2049_2046 sliver) as [Hzero _]; [reflexivity|by vm_compute|].
  destruct (excerpt_feature_zero_area (source_feature wide_precinct)
              wide_precinct tile_2049_2046 wide_clipped) as [_ Hgood];
    [reflexivity|by vm_compute|].
  split.
  - apply Hzero; [reflexivity|by vm_compute].
  - apply Hgood. right. by vm_compute.
Defined.

(** The wide precinct, prepared and then scored in a district that holds
    the tile. *)
Lemma excerpt_feature_then_score_witness :
  ∃ totals,
    score_precinct (Some whole_district) wide_loaded tile_2049_2046
    = ([], Ok totals)
    ∧ totals !! "Voters"
      = share (area wide_clipped / area wide_precinct)
              (fields (source_feature wide_precinct)) "Voters".
Proof.
  destruct (excerpt_feature_then_score (source_feature wide_precinct)
              wide_precinct tile_2049_2046 wide_clipped wide_loaded
              wide_clipped whole_district tile_2049_2046)
    as (local_feature & Hexcerpt & Hscore).
  - reflexivity.
  - by vm_compute.
  - reflexivity.
  - by vm_compute.
  - apply (bool_decide_unpack _). by vm_compute.
  - apply half_precinct_numeric.
  - reflexivity.
  - reflexivity.
  - reflexivity.
  - reflexivity.
  - by vm_compute.
  - assert (Hsame : snd (excerpt_feature (source_feature wide_precinct)
                           (Some tile_2049_2046)) = Ok wide_excerpt)
      by (by vm_compute).
    rewrite Hexcerpt in Hsame. injection Hsame as ->.
    destruct Hscore as (totals & Hrun & Hlook); [reflexivity|].
    exists totals. split; [exact Hrun|apply Hlook].
Defined.

(** The layer of the one wide precinct, sent to S3: one tile of the four
    is written. *)
Lemma main_outputs_witness :
  written_key <$> outputs (fst (main (prepare_args "precincts.shp" true)))
  = ["data/XX/2/2/1.geojson"]
  ∧ Forall (λ w, match w with
                 | PutTile bucket _ _ => true = true ∧ bucket = "planscore"
                 | WriteFile _ _ => true = false
                 end)
      (outputs (fst (main (prepare_args "precincts.shp" true)))).
Proof.
  destruct (main_outputs (prepare_args "precincts.shp" true) (layer_of [])
              (fst (main (prepare_args "precincts.shp" true))))
    as [Hkeys Hkinds]; [reflexivity|by vm_compute|].
  split; [|exact Hkinds]. rewrite Hkeys. by vm_compute.
Defined.

(** The key that [main] writes for tile 12/2049/2046 of directory XX is
    the key that the scorer asks for. *)
Lemma prepared_key_is_loaded_key_witness :
  fst (load_tile_precincts missing_s3 storage
         (format_zxy (mkCoordinate 2046 2049 12)%Z))
  = [S3GetObject (G := shape) "planscore"
       (KEY_FORMAT "XX" (format_zxy (mkCoordinate 2046 2049 12)%Z))].
Proof.
  apply (prepared_key_is_loaded_key missing_s3 storage "XX"
           (mkCoordinate 2046 2049 12)%Z).
  reflexivity.
Defined.

(** A layer with a collapsed polygon in the second tile: the first tile
    is written, and the run ends at the second. *)
Lemma main_first_error_witness :
  snd (main (prepare_args "slivers.shp" false))
  = Raise (OtherError "float division by zero")
  ∧ written_key <$> outputs (fst (main (prepare_args "slivers.shp" false)))
    = ["data/XX/2/2/1.geojson"].
Proof.
  destruct (main_first_error (prepare_args "slivers.shp" false)
              (layer_of [source_feature sliver])
              [extent_tile 2 (1, 2)%Z] (mkCoordinate 1 3 2)%Z
              (extent_tile 2 (1, 3)%Z).2
              [extent_tile 2 (2, 2)%Z; extent_tile 2 (2, 3)%Z]
              (OtherError "float division by zero")) as [Hraise Hkeys].
  - reflexivity.
  - by vm_compute.
  - reflexivity.
  - reflexivity.
  - repeat constructor. eexists _, _. vm_compute. reflexivity.
  - by vm_compute.
  - split; [exact Hraise|]. rewrite Hkeys. by vm_compute.
Defined.
